(** * Endgame knowledge of the engine: a shallow embedding of endgame.cpp

    The evaluators of [src/endgame.cpp] are embedded as functions over a
    [Position] record that carries what the evaluators read from the
    position collaborator.  Integers are [Z]; a [Bitboard] is a [Z] whose
    bits 0..63 stand for the squares A1..H8; C++ integer division is
    [Z.quot]; an array read is a partial lookup, so that an evaluator which
    returns a value is known to have stayed inside its tables. *)

From Stdlib Require Import ZArith List Bool String Ascii Lia.
Import ListNotations.
Local Open Scope Z_scope.

(** ** Enumerations and square arithmetic *)

Definition Square := Z.
Definition File := Z.
Definition Rank := Z.
Definition Bitboard := Z.
Definition Value := Z.
Definition ScaleFactor := Z.
Definition Key := Z.

Inductive Color : Type := WHITE | BLACK.

Inductive PieceType : Type := PAWN | KNIGHT | BISHOP | ROOK | QUEEN | KING.

Definition Color_eqb (a b : Color) : bool :=
  match a, b with
  | WHITE, WHITE | BLACK, BLACK => true
  | _, _ => false
  end.

(** Modelled from the spec: the colour enumeration of types.h, which is not
    among the sources; the first colour is 0 and the second colour is 1, as
    the use of a colour as an index of [sides] and [FortressMask] needs. *)
Definition Color_index (c : Color) : Z :=
  match c with WHITE => 0 | BLACK => 1 end.

(** Modelled from the spec: [operator~] on colours (types.h, absent): the
    weak side is the complement of the strong side. *)
Definition Color_not (c : Color) : Color :=
  match c with WHITE => BLACK | BLACK => WHITE end.

Module Types.

(** Modelled from the spec: the file, rank and square enumerations of
    types.h (absent).  Squares are numbered 0..63 with the file in the low
    three bits, as the source's remark [Mirror SQ_H1 -> SQ_A1] on [sq ^ 7]
    and its 64-entry tables laid out rank by rank require. *)
Definition FILE_A : File := 0.
Definition FILE_B : File := 1.
Definition FILE_C : File := 2.
Definition FILE_D : File := 3.
Definition FILE_E : File := 4.
Definition FILE_F : File := 5.
Definition FILE_G : File := 6.
Definition FILE_H : File := 7.

Definition RANK_1 : Rank := 0.
Definition RANK_2 : Rank := 1.
Definition RANK_3 : Rank := 2.
Definition RANK_4 : Rank := 3.
Definition RANK_5 : Rank := 4.
Definition RANK_6 : Rank := 5.
Definition RANK_7 : Rank := 6.
Definition RANK_8 : Rank := 7.

Definition SQUARE_NB : Z := 64.
Definition RANK_NB : Z := 8.

(** Modelled from the spec: [make_square] of types.h (absent), the square
    of a file and a rank. *)
Definition make_square (f : File) (r : Rank) : Square :=
  Z.lor (Z.shiftl r 3) f.

Definition SQ_A1 : Square := Eval cbv in make_square FILE_A RANK_1.
Definition SQ_H1 : Square := Eval cbv in make_square FILE_H RANK_1.
Definition SQ_H5 : Square := Eval cbv in make_square FILE_H RANK_5.
Definition SQ_B6 : Square := Eval cbv in make_square FILE_B RANK_6.
Definition SQ_A7 : Square := Eval cbv in make_square FILE_A RANK_7.
Definition SQ_B7 : Square := Eval cbv in make_square FILE_B RANK_7.
Definition SQ_C7 : Square := Eval cbv in make_square FILE_C RANK_7.
Definition SQ_G7 : Square := Eval cbv in make_square FILE_G RANK_7.
Definition SQ_H7 : Square := Eval cbv in make_square FILE_H RANK_7.
Definition SQ_A8 : Square := Eval cbv in make_square FILE_A RANK_8.
Definition SQ_C8 : Square := Eval cbv in make_square FILE_C RANK_8.
Definition SQ_H8 : Square := Eval cbv in make_square FILE_H RANK_8.
Definition SQ_NONE : Square := 64.

Definition DELTA_N : Z := 8.
Definition DELTA_S : Z := -8.

(** Modelled from the spec: file and rank extraction (types.h, absent). *)
Definition file_of (s : Square) : File := Z.land s 7.
Definition rank_of (s : Square) : Rank := Z.shiftr s 3.

(** Modelled from the spec: [operator~] on squares (types.h, absent), the
    colour flip that lets the strong side be treated as the first colour.
    It reverses the ranks and keeps the file ([SQ_A1] goes to [SQ_A8]), as
    its two uses in endgame.cpp require: [normalize] promises a pawn on the
    left half of the board after the file mirroring, which a flip that also
    reversed the files would undo; and [Endgame<KXK>] flips the king squares
    to aim [PushToCorners] at the corners of the other colour, which a flip
    through the centre of the board, under which that table is symmetric,
    could not do. *)
Definition Square_not (s : Square) : Square := Z.lxor s SQ_A8.

(** Modelled from the spec: the relative-rank and relative-square
    transforms for a given colour (types.h, absent). *)
Definition relative_rank_r (c : Color) (r : Rank) : Rank :=
  Z.lxor r (Color_index c * 7).
Definition relative_rank (c : Color) (s : Square) : Rank :=
  relative_rank_r c (rank_of s).
Definition relative_square (c : Color) (s : Square) : Square :=
  Z.lxor s (Color_index c * 56).

(** Modelled from the spec: the direction a pawn of a colour advances in
    (types.h, absent). *)
Definition pawn_push (c : Color) : Z :=
  match c with WHITE => DELTA_N | BLACK => DELTA_S end.

(** Modelled from the spec: the same-colour-square test of types.h
    (absent); true when the two squares have different colours. *)
Definition opposite_colors (s1 s2 : Square) : bool :=
  let s := Z.lxor s1 s2 in
  negb (Z.land (Z.lxor (Z.shiftr s 3) s) 1 =? 0).

(** Modelled from the spec: Chebyshev, file and rank distance
    (bitboard.h, absent).  The engine reads the square distance from a
    table filled with this maximum. *)
Definition distance_int (x y : Z) : Z := if x <? y then y - x else x - y.
Definition distance_File (x y : Square) : Z :=
  distance_int (file_of x) (file_of y).
Definition distance_Rank (x y : Square) : Z :=
  distance_int (rank_of x) (rank_of y).
Definition distance (x y : Square) : Z :=
  Z.max (distance_File x y) (distance_Rank x y).

Definition is_ok (s : Square) : Prop := 0 <= s < 64.

End Types.
Export Types.

(** ** Bitboards *)

Module Bitboards.

Definition all_squares : list Square := map Z.of_nat (seq 0 64).

(** Modelled from the spec: the one-square bitboard [SquareBB] of
    bitboard.h (absent). *)
Definition square_bb (s : Square) : Bitboard := Z.shiftl 1 s.

Definition bb_of_list (l : list Square) : Bitboard :=
  fold_right (fun s b => Z.lor (square_bb s) b) 0 l.

Definition bb_where (p : Square -> bool) : Bitboard :=
  bb_of_list (filter p all_squares).

Definition AllSquares : Bitboard := Z.ones 64.

(** The complement of a 64-bit board. *)
Definition bb_not (b : Bitboard) : Bitboard := Z.land (Z.lnot b) AllSquares.

Definition bb_nonzero (b : Bitboard) : bool := negb (b =? 0).

(** Modelled from the spec: the set of dark squares of bitboard.h
    (absent); A1 is a dark square, and so is every square whose file and
    rank indices have an even sum. *)
Definition DarkSquares : Bitboard :=
  Eval cbv in bb_where (fun s => Z.even (file_of s + rank_of s)).

(** Modelled from the spec: file masks of bitboard.h (absent). *)
Definition file_bb (f : File) : Bitboard :=
  bb_where (fun s => file_of s =? f).
Definition FileABB : Bitboard := Eval cbv in file_bb FILE_A.
Definition FileHBB : Bitboard := Eval cbv in file_bb FILE_H.

(** Modelled from the spec: the forward-direction bitboards of bitboard.h
    (absent): the ranks in front of a rank, and the squares in front of a
    square on its file, from a colour's point of view. *)
Definition in_front_bb (c : Color) (r : Rank) : Bitboard :=
  bb_where (fun s => match c with
                     | WHITE => r <? rank_of s
                     | BLACK => rank_of s <? r
                     end).
Definition forward_bb (c : Color) (s : Square) : Bitboard :=
  Z.land (in_front_bb c (rank_of s)) (file_bb (file_of s)).

(** Modelled from the spec: least and most significant square of a
    non-empty bitboard (bitboard.h, absent). *)
Definition lsb (b : Bitboard) : Square :=
  hd SQ_NONE (filter (Z.testbit b) all_squares).
Definition msb (b : Bitboard) : Square :=
  hd SQ_NONE (filter (Z.testbit b) (rev all_squares)).
Definition backmost_sq (c : Color) (b : Bitboard) : Square :=
  match c with WHITE => lsb b | BLACK => msb b end.

Definition more_than_one (b : Bitboard) : bool :=
  bb_nonzero (Z.land b (b - 1)).

End Bitboards.
Export Bitboards.

(** ** Constants and collaborators that the file takes from elsewhere *)

(** The score and scale-factor enumerators and the piece values come from
    types.h, which is not among the sources: they are parameters. *)
Class Constants : Type := {
  VALUE_ZERO : Value;
  VALUE_DRAW : Value;
  VALUE_KNOWN_WIN : Value;
  PawnValueEg : Value;
  KnightValueMg : Value;
  BishopValueMg : Value;
  RookValueMg : Value;
  QueenValueMg : Value;
  SCALE_FACTOR_DRAW : ScaleFactor;
  SCALE_FACTOR_NORMAL : ScaleFactor;
  SCALE_FACTOR_MAX : ScaleFactor;
  SCALE_FACTOR_NONE : ScaleFactor
}.

(** The position snapshot: the piece lists, the side to move, the counter of
    plies since the last pawn move or capture, and the non-pawn material
    kept per side. *)
Record Position : Type := {
  pieceList : Color -> PieceType -> list Square;
  side_to_move : Color;
  rule50_count : Z;
  non_pawn_material : Color -> Value
}.

Section Accessors.

Variable pos : Position.

(** [pos.count<Pt>(c)] *)
Definition count (pt : PieceType) (c : Color) : Z :=
  Z.of_nat (List.length (pieceList pos c pt)).

(** [pos.squares<Pt>(c)[i]]; the engine ends each list with [SQ_NONE]. *)
Definition squares (pt : PieceType) (c : Color) (i : nat) : Square :=
  nth i (pieceList pos c pt) SQ_NONE.

(** [pos.square<Pt>(c)] *)
Definition square (pt : PieceType) (c : Color) : Square :=
  squares pt c 0.

(** [pos.pieces(c, pt)], [pos.pieces(c)], [pos.pieces(pt)] *)
Definition pieces_cp (c : Color) (pt : PieceType) : Bitboard :=
  bb_of_list (pieceList pos c pt).

Definition pieces_c (c : Color) : Bitboard :=
  fold_right (fun pt b => Z.lor (pieces_cp c pt) b) 0
             [PAWN; KNIGHT; BISHOP; ROOK; QUEEN; KING].

Definition pieces_p (pt : PieceType) : Bitboard :=
  Z.lor (pieces_cp WHITE pt) (pieces_cp BLACK pt).

(** Every listed piece stands on the board. *)
Definition on_board : Prop :=
  forall c pt s, In s (pieceList pos c pt) -> is_ok s.

(** A snapshot of a live position: pieces on the board, one king a side. *)
Definition live : Prop :=
  on_board /\ count KING WHITE = 1 /\ count KING BLACK = 1.

End Accessors.

(** What the evaluators ask of code outside endgame.cpp: move generation,
    the passed-pawn test, attack sets, the king-and-pawn bitbase and the
    material key of a position set up from a FEN string. *)
Class Collaborators : Type := {
  MoveList_LEGAL_size : Position -> Z;
  pawn_passed : Position -> Color -> Square -> bool;
  attacks_from_BISHOP : Position -> Square -> Bitboard;
  attacks_from_KING : Position -> Square -> Bitboard;
  attacks_from_PAWN : Position -> Square -> Color -> Bitboard;
  PseudoAttacks_BISHOP : Square -> Bitboard;
  Bitbases_probe : Square -> Square -> Square -> Color -> bool;
  material_key_of_fen : string -> Key
}.

(** ** Geometry tables *)

(** An array read; [None] outside the array. *)
Definition lookup (t : list Z) (i : Z) : option Z :=
  if i <? 0 then None else nth_error t (Z.to_nat i).

Definition PushToEdges : list Z := [
  400; 360; 320; 280; 280; 320; 360; 400;
  360; 280; 240; 200; 200; 240; 280; 360;
  320; 240; 160; 120; 120; 160; 240; 320;
  280; 200; 120;  80;  80; 120; 200; 280;
  280; 200; 120;  80;  80; 120; 200; 280;
  320; 240; 160; 120; 120; 160; 240; 320;
  360; 280; 240; 200; 200; 240; 280; 360;
  400; 360; 320; 280; 280; 320; 360; 400 ].

Definition PushToCorners : list Z := [
  800; 700; 600; 500; 400; 300; 200; 100;
  700; 560; 460; 360; 260; 160;  60; 200;
  600; 460; 320; 220; 120;  20; 160; 300;
  500; 360; 220;  50; -50; 120; 260; 400;
  400; 260; 120; -50;  50; 220; 360; 500;
  300; 160;  20; 120; 220; 320; 460; 600;
  200;  60; 160; 260; 360; 460; 560; 700;
  100; 200; 300; 400; 500; 600; 700; 800 ].

Definition PushClose : list Z := [ 0; 0; 400; 320; 240; 160; 80; 40 ].
Definition PushAway : list Z := [ 0; 20; 80; 160; 240; 320; 360; 400 ].

(** [FortressMask[Color]] *)
Definition FortressMask (c : Color) : Bitboard :=
  match c with
  | WHITE => 0x00007E4242C37E00
  | BLACK => 0x007EC342427E0000
  end.

Definition KRPPKRPScaleFactors : list Z := [ 0; 9; 10; 14; 21; 44; 0; 0 ].

(** ** The square normalizer *)

(** [sq ^ 7], the file mirroring. *)
Definition mirror_file (sq : Square) : Square := Z.lxor sq 7.

(** [verify_material] *)
Definition verify_material (pos : Position) (c : Color) (npm : Value)
    (pawnsCnt : Z) : bool :=
  (non_pawn_material pos c =? npm) && (count pos PAWN c =? pawnsCnt).

(** [normalize]: map the square as if [strongSide] is white and its only
    pawn is on the left half of the board.  The assertion that the strong
    side has one pawn is a precondition of the callers. *)
Definition normalize (pos : Position) (strongSide : Color) (sq : Square)
    : Square :=
  let sq := if FILE_E <=? file_of (square pos PAWN strongSide)
            then mirror_file sq else sq in
  let sq := if Color_eqb strongSide BLACK then Square_not sq else sq in
  sq.

(** The normalized square in the words of the specification, for
    comparison with [normalize]: the board is seen from the strong side,
    and in a mirror when the strong pawn stands on one of the files E to
    H, so that the square keeps its rank relative to the strong side and
    takes the mirrored file or keeps its own. *)
Definition normalized_square (pos : Position) (strongSide : Color)
    (sq : Square) : Square :=
  make_square (if FILE_E <=? file_of (square pos PAWN strongSide)
               then FILE_H - file_of sq else file_of sq)
              (relative_rank strongSide sq).

(** ** Value evaluators *)

Definition obind {A B : Type} (m : option A) (k : A -> option B) : option B :=
  match m with
  | Some a => k a
  | None => None
  end.

Notation "x <- m ;; k" := (obind m (fun x => k))
  (at level 61, m at next level, right associativity).

Section ValueEvaluators.

Context {K : Constants} {X : Collaborators}.

(** The stalemate test of [Endgame<KXK>]. *)
Definition KXK_stalemate (strongSide : Color) (pos : Position) : bool :=
  Color_eqb (side_to_move pos) (Color_not strongSide)
  && (MoveList_LEGAL_size pos =? 0).

(** The test of [Endgame<KXK>] for two or more bishops of one colour and
    nothing else. *)
Definition KXK_same_bishops (strongSide : Color) (pos : Position) : bool :=
  (1 <? count pos BISHOP strongSide)
  && negb (bb_nonzero (Z.land (pieces_cp pos strongSide BISHOP) DarkSquares)
           && bb_nonzero (Z.land (pieces_cp pos strongSide BISHOP)
                                 (bb_not DarkSquares)))
  && (count pos PAWN strongSide =? 0)
  && (count pos KNIGHT strongSide =? 0)
  && (count pos ROOK strongSide =? 0)
  && (count pos QUEEN strongSide =? 0).

(** The test of [Endgame<KXK>] that guards the corner term. *)
Definition KXK_bishop_and_knight (strongSide : Color) (pos : Position)
    : bool :=
  (count pos BISHOP strongSide =? 1) && (count pos KNIGHT strongSide =? 1).

(** [Endgame<KXK>::operator()] *)
Definition KXK (strongSide : Color) (pos : Position) : option Value :=
  let weakSide := Color_not strongSide in
  if KXK_stalemate strongSide pos then Some VALUE_DRAW
  else if KXK_same_bishops strongSide pos then Some VALUE_DRAW
  else
    let winnerKSq := square pos KING strongSide in
    let loserKSq := square pos KING weakSide in
    edge <- lookup PushToEdges loserKSq ;;
    close <- lookup PushClose (distance winnerKSq loserKSq) ;;
    let result := VALUE_KNOWN_WIN
                  + Z.quot (non_pawn_material pos strongSide) 10
                  + edge + close in
    result <- (if KXK_bishop_and_knight strongSide pos
               then
                 let bishopSq := square pos BISHOP strongSide in
                 let '(winnerKSq, loserKSq) :=
                   if opposite_colors bishopSq SQ_A1
                   then (Square_not winnerKSq, Square_not loserKSq)
                   else (winnerKSq, loserKSq) in
                 corner <- lookup PushToCorners loserKSq ;;
                 Some (result + corner)
               else Some result) ;;
    Some (if Color_eqb strongSide (side_to_move pos)
          then result else - result).

(** The magnitude [Endgame<KPK>] gives a won position with the normalized
    pawn on rank [r]. *)
Definition KPK_win_value (r : Rank) : Value :=
  VALUE_KNOWN_WIN - Z.quot PawnValueEg 4 * (7 - r).

(** [Endgame<KPK>::operator()] *)
Definition KPK (strongSide : Color) (pos : Position) : Value :=
  let weakSide := Color_not strongSide in
  let wksq := normalize pos strongSide (square pos KING strongSide) in
  let bksq := normalize pos strongSide (square pos KING weakSide) in
  let psq := normalize pos strongSide (square pos PAWN strongSide) in
  let us := if Color_eqb strongSide (side_to_move pos)
            then WHITE else BLACK in
  if negb (Bitbases_probe wksq psq bksq us) then VALUE_DRAW
  else
    let result := KPK_win_value (rank_of psq) in
    if Color_eqb strongSide (side_to_move pos) then result else - result.

(** The question [Endgame<KPK>] puts to the bitbase, in the words of the
    specification: the normalized squares of the strong king, the pawn and
    the weak king, and the side to move with the strong side taken as the
    first colour. *)
Definition KPK_bitbase_wins (strongSide : Color) (pos : Position) : bool :=
  Bitbases_probe
    (normalized_square pos strongSide (square pos KING strongSide))
    (normalized_square pos strongSide (square pos PAWN strongSide))
    (normalized_square pos strongSide (square pos KING (Color_not strongSide)))
    (if Color_eqb strongSide (side_to_move pos) then WHITE else BLACK).

End ValueEvaluators.

(** ** Scale evaluators *)

(** A bitboard used as a condition. *)
Notation "b1 '&b' b2" := (Z.land b1 b2) (at level 40, left associativity).

Section ScaleEvaluators.

Context {K : Constants} {X : Collaborators}.

(** [Endgame<KBPsK>::operator()] *)
Definition KBPsK (strongSide : Color) (pos : Position) : ScaleFactor :=
  let weakSide := Color_not strongSide in
  let pawns := pieces_cp pos strongSide PAWN in
  let pawnsFile := file_of (lsb pawns) in
  (* All pawns are on a single rook file? *)
  if ((pawnsFile =? FILE_A) || (pawnsFile =? FILE_H))
     && negb (bb_nonzero (pawns &b bb_not (file_bb pawnsFile)))
     && (let bishopSq := square pos BISHOP strongSide in
         let queeningSq :=
           relative_square strongSide (make_square pawnsFile RANK_8) in
         let kingSq := square pos KING weakSide in
         opposite_colors queeningSq bishopSq
         && (distance queeningSq kingSq <=? 1))
  then SCALE_FACTOR_DRAW
  (* Check for the fortress draw in KBPK *)
  else if (count pos PAWN strongSide =? 1)
     && negb (more_than_one (pieces_c pos weakSide))
     && ((pawnsFile =? FILE_B) || (pawnsFile =? FILE_G))
     && (let pawnSq := normalize pos strongSide (square pos PAWN strongSide) in
         let weakKingSq := normalize pos strongSide (square pos KING weakSide) in
         let bishopSq := normalize pos strongSide (square pos BISHOP strongSide) in
         (pawnSq =? SQ_B6) && (bishopSq =? SQ_A7)
         && ((weakKingSq =? SQ_B7) || (weakKingSq =? SQ_A8)))
  then SCALE_FACTOR_DRAW
  (* All the pawns on the same B or G file *)
  else if ((pawnsFile =? FILE_B) || (pawnsFile =? FILE_G))
     && negb (bb_nonzero (pieces_p pos PAWN &b bb_not (file_bb pawnsFile)))
     && (non_pawn_material pos weakSide =? 0)
     && (1 <=? count pos PAWN weakSide)
     && (let weakPawnSq := backmost_sq weakSide (pieces_cp pos weakSide PAWN) in
         let strongKingSq := square pos KING strongSide in
         let weakKingSq := square pos KING weakSide in
         let bishopSq := square pos BISHOP strongSide in
         (relative_rank strongSide weakPawnSq =? RANK_7)
         && bb_nonzero (pieces_cp pos strongSide PAWN
                        &b square_bb (weakPawnSq + pawn_push weakSide))
         && (opposite_colors bishopSq weakPawnSq
             || (count pos PAWN strongSide =? 1))
         && (let strongKingDist := distance weakPawnSq strongKingSq in
             let weakKingDist := distance weakPawnSq weakKingSq in
             (RANK_7 <=? relative_rank strongSide weakKingSq)
             && (weakKingDist <=? 2)
             && (weakKingDist <=? strongKingDist)))
  then SCALE_FACTOR_DRAW
  else SCALE_FACTOR_NONE.

(** The fortress test of [Endgame<KQKRPs>]: a weak pawn in the fortress
    mask, the strong king beyond the weak rook, and a weak pawn next to
    its king on a square a strong pawn on the rook's square would attack. *)
Definition KQKRPs_fortress (strongSide : Color) (pos : Position) : bool :=
  let weakSide := Color_not strongSide in
  let strongKingSq := square pos KING strongSide in
  let weakKingSq := square pos KING weakSide in
  let rsq := square pos ROOK weakSide in
  bb_nonzero (pieces_cp pos weakSide PAWN &b FortressMask weakSide)
  && (relative_rank weakSide rsq <? relative_rank weakSide strongKingSq)
  && bb_nonzero (pieces_cp pos weakSide PAWN
                 &b attacks_from_KING pos weakKingSq
                 &b attacks_from_PAWN pos rsq strongSide).

(** The value of [int(SCALE_FACTOR_NORMAL * double((101 - rule50) / 172))]:
    both operands of the division are [int], so the quotient is truncated
    towards zero before it is converted, and the conversions to [double]
    and back are exact on it. *)
Definition KQKRPs_rule50_scale (rule50 : Z) : ScaleFactor :=
  SCALE_FACTOR_NORMAL * Z.quot (101 - rule50) 172.

(** [Endgame<KQKRPs>::operator()] *)
Definition KQKRPs (strongSide : Color) (pos : Position) : ScaleFactor :=
  if KQKRPs_fortress strongSide pos then SCALE_FACTOR_DRAW
  else if 14 <? rule50_count pos
       then KQKRPs_rule50_scale (rule50_count pos)
       else SCALE_FACTOR_NONE.

(** [Endgame<KRPKR>::operator()] *)
Definition KRPKR (strongSide : Color) (pos : Position) : ScaleFactor :=
  let weakSide := Color_not strongSide in
  let wksq := normalize pos strongSide (square pos KING strongSide) in
  let bksq := normalize pos strongSide (square pos KING weakSide) in
  let wrsq := normalize pos strongSide (square pos ROOK strongSide) in
  let wpsq := normalize pos strongSide (square pos PAWN strongSide) in
  let brsq := normalize pos strongSide (square pos ROOK weakSide) in
  let f := file_of wpsq in
  let r := rank_of wpsq in
  let queeningSq := make_square f RANK_8 in
  let tempo := if Color_eqb (side_to_move pos) strongSide then 1 else 0 in
  (* third-rank defence *)
  if (r <=? RANK_5)
     && (distance bksq queeningSq <=? 1)
     && (wksq <=? SQ_H5)
     && ((rank_of brsq =? RANK_6)
         || ((r <=? RANK_3) && negb (rank_of wrsq =? RANK_6)))
  then SCALE_FACTOR_DRAW
  (* checking from behind, pawn on the 6th rank *)
  else if (r =? RANK_6)
     && (distance bksq queeningSq <=? 1)
     && (rank_of wksq + tempo <=? RANK_6)
     && ((rank_of brsq =? RANK_1)
         || ((tempo =? 0) && (3 <=? distance_File brsq wpsq)))
  then SCALE_FACTOR_DRAW
  else if (RANK_6 <=? r)
     && (bksq =? queeningSq)
     && (rank_of brsq =? RANK_1)
     && ((tempo =? 0) || (2 <=? distance wksq wpsq))
  then SCALE_FACTOR_DRAW
  (* pawn on a7, rook on a8 *)
  else if (wpsq =? SQ_A7)
     && (wrsq =? SQ_A8)
     && ((bksq =? SQ_H7) || (bksq =? SQ_G7))
     && (file_of brsq =? FILE_A)
     && ((rank_of brsq <=? RANK_3) || (FILE_D <=? file_of wksq)
         || (rank_of wksq <=? RANK_5))
  then SCALE_FACTOR_DRAW
  (* the defending king blocks the pawn *)
  else if (r <=? RANK_5)
     && (bksq =? wpsq + DELTA_N)
     && (2 <=? distance wksq wpsq - tempo)
     && (2 <=? distance wksq brsq - tempo)
  then SCALE_FACTOR_DRAW
  (* pawn on the 7th rank supported by the rook from behind *)
  else if (r =? RANK_7)
     && negb (f =? FILE_A)
     && (file_of wrsq =? f)
     && negb (wrsq =? queeningSq)
     && (distance wksq queeningSq <? distance bksq queeningSq - 2 + tempo)
     && (distance wksq queeningSq <? distance bksq wrsq + tempo)
  then SCALE_FACTOR_MAX - 2 * distance wksq queeningSq
  (* the same with the pawn further back *)
  else if negb (f =? FILE_A)
     && (file_of wrsq =? f)
     && (wrsq <? wpsq)
     && (distance wksq queeningSq <? distance bksq queeningSq - 2 + tempo)
     && (distance wksq (wpsq + DELTA_N)
         <? distance bksq (wpsq + DELTA_N) - 2 + tempo)
     && ((3 <=? distance bksq wrsq + tempo)
         || ((distance wksq queeningSq <? distance bksq wrsq + tempo)
             && (distance wksq (wpsq + DELTA_N)
                 <? distance bksq wrsq + tempo)))
  then SCALE_FACTOR_MAX
       - 8 * distance wpsq queeningSq
       - 2 * distance wksq queeningSq
  (* the defending king somewhere in the pawn's path *)
  else if (r <=? RANK_4) && (wpsq <? bksq)
  then
    if file_of bksq =? file_of wpsq then 10
    else if (distance_File bksq wpsq =? 1) && (2 <? distance wksq bksq)
         then 24 - 2 * distance wksq bksq
         else SCALE_FACTOR_NONE
  else SCALE_FACTOR_NONE.

(** [Endgame<KRPKB>::operator()] *)
Definition KRPKB (strongSide : Color) (pos : Position) : ScaleFactor :=
  let weakSide := Color_not strongSide in
  (* Test for a rook pawn *)
  if bb_nonzero (pieces_p pos PAWN &b Z.lor FileABB FileHBB)
  then
    let ksq := square pos KING weakSide in
    let bsq := square pos BISHOP weakSide in
    let psq := square pos PAWN strongSide in
    let rk := relative_rank strongSide psq in
    let push := pawn_push strongSide in
    if (rk =? RANK_5) && negb (opposite_colors bsq psq)
    then
      let d := distance (psq + 3 * push) ksq in
      if (d <=? 2)
         && negb ((d =? 0) && (ksq =? square pos KING strongSide + 2 * push))
      then 24
      else 48
    else if (rk =? RANK_6)
       && (distance (psq + 2 * push) ksq <=? 1)
       && bb_nonzero (PseudoAttacks_BISHOP bsq &b square_bb (psq + push))
       && (2 <=? distance_File bsq psq)
    then 8
    else SCALE_FACTOR_NONE
  else SCALE_FACTOR_NONE.

(** The condition under which [Endgame<KRPPKRP>] reads its table: no
    strong pawn is passed, and the defending king is within a file of both
    pawns and beyond them. *)
Definition KRPPKRP_max_rank (strongSide : Color) (pos : Position) : Rank :=
  Z.max (relative_rank strongSide (squares pos PAWN strongSide 0))
        (relative_rank strongSide (squares pos PAWN strongSide 1)).

Definition KRPPKRP_reads_table (strongSide : Color) (pos : Position)
    : bool :=
  let weakSide := Color_not strongSide in
  let wpsq1 := squares pos PAWN strongSide 0 in
  let wpsq2 := squares pos PAWN strongSide 1 in
  let bksq := square pos KING weakSide in
  negb (pawn_passed pos strongSide wpsq1 || pawn_passed pos strongSide wpsq2)
  && ((distance_File bksq wpsq1 <=? 1)
      && (distance_File bksq wpsq2 <=? 1)
      && (KRPPKRP_max_rank strongSide pos <? relative_rank strongSide bksq)).

(** [Endgame<KRPPKRP>::operator()]; [None] when the assertion
    [r > RANK_1 && r < RANK_7] before the table is read fails -- the build
    without NDEBUG stops there -- or the table is read out of its bounds. *)
Definition KRPPKRP (strongSide : Color) (pos : Position)
    : option ScaleFactor :=
  let weakSide := Color_not strongSide in
  let wpsq1 := squares pos PAWN strongSide 0 in
  let wpsq2 := squares pos PAWN strongSide 1 in
  let bksq := square pos KING weakSide in
  (* Does the stronger side have a passed pawn? *)
  if pawn_passed pos strongSide wpsq1 || pawn_passed pos strongSide wpsq2
  then Some SCALE_FACTOR_NONE
  else
    let r := Z.max (relative_rank strongSide wpsq1)
                   (relative_rank strongSide wpsq2) in
    if (distance_File bksq wpsq1 <=? 1)
       && (distance_File bksq wpsq2 <=? 1)
       && (r <? relative_rank strongSide bksq)
    then if (RANK_1 <? r) && (r <? RANK_7)
         then lookup KRPPKRPScaleFactors r
         else None
    else Some SCALE_FACTOR_NONE.

(** [Endgame<KPsK>::operator()] *)
Definition KPsK (strongSide : Color) (pos : Position) : ScaleFactor :=
  let weakSide := Color_not strongSide in
  let ksq := square pos KING weakSide in
  let pawns := pieces_cp pos strongSide PAWN in
  if negb (bb_nonzero (pawns &b bb_not (in_front_bb weakSide (rank_of ksq))))
     && negb (bb_nonzero (pawns &b bb_not FileABB)
              && bb_nonzero (pawns &b bb_not FileHBB))
     && (distance_File ksq (lsb pawns) <=? 1)
  then SCALE_FACTOR_DRAW
  else SCALE_FACTOR_NONE.

(** [Endgame<KBPKB>::operator()] *)
Definition KBPKB (strongSide : Color) (pos : Position) : ScaleFactor :=
  let weakSide := Color_not strongSide in
  let pawnSq := square pos PAWN strongSide in
  let strongBishopSq := square pos BISHOP strongSide in
  let weakBishopSq := square pos BISHOP weakSide in
  let weakKingSq := square pos KING weakSide in
  (* Case 1: Defending king blocks the pawn, and cannot be driven away *)
  if (file_of weakKingSq =? file_of pawnSq)
     && (relative_rank strongSide pawnSq <? relative_rank strongSide weakKingSq)
     && (opposite_colors weakKingSq strongBishopSq
         || (relative_rank strongSide weakKingSq <=? RANK_6))
  then SCALE_FACTOR_DRAW
  (* Case 2: Opposite colored bishops *)
  else if opposite_colors strongBishopSq weakBishopSq
  then
    if relative_rank strongSide pawnSq <=? RANK_5 then SCALE_FACTOR_DRAW
    else
      let path := forward_bb strongSide pawnSq in
      if bb_nonzero (path &b pieces_cp pos weakSide KING)
      then SCALE_FACTOR_DRAW
      else if bb_nonzero (attacks_from_BISHOP pos weakBishopSq &b path)
              && (3 <=? distance weakBishopSq pawnSq)
      then SCALE_FACTOR_DRAW
      else SCALE_FACTOR_NONE
  else SCALE_FACTOR_NONE.

(** [Endgame<KBPPKB>::operator()] *)
Definition KBPPKB (strongSide : Color) (pos : Position) : ScaleFactor :=
  let weakSide := Color_not strongSide in
  let wbsq := square pos BISHOP strongSide in
  let bbsq := square pos BISHOP weakSide in
  if negb (opposite_colors wbsq bbsq) then SCALE_FACTOR_NONE
  else
    let ksq := square pos KING weakSide in
    let psq1 := squares pos PAWN strongSide 0 in
    let psq2 := squares pos PAWN strongSide 1 in
    let r1 := rank_of psq1 in
    let r2 := rank_of psq2 in
    let '(blockSq1, blockSq2) :=
      if relative_rank strongSide psq2 <? relative_rank strongSide psq1
      then (psq1 + pawn_push strongSide,
            make_square (file_of psq2) (rank_of psq1))
      else (psq2 + pawn_push strongSide,
            make_square (file_of psq1) (rank_of psq2)) in
    match distance_File psq1 psq2 with
    | 0 =>
        (* Both pawns are on the same file. *)
        if (file_of ksq =? file_of blockSq1)
           && (relative_rank strongSide blockSq1
               <=? relative_rank strongSide ksq)
           && opposite_colors ksq wbsq
        then SCALE_FACTOR_DRAW
        else SCALE_FACTOR_NONE
    | 1 =>
        (* Pawns on adjacent files. *)
        if (ksq =? blockSq1)
           && opposite_colors ksq wbsq
           && ((bbsq =? blockSq2)
               || bb_nonzero (attacks_from_BISHOP pos blockSq2
                              &b pieces_cp pos weakSide BISHOP)
               || (2 <=? distance_int r1 r2))
        then SCALE_FACTOR_DRAW
        else if (ksq =? blockSq2)
           && opposite_colors ksq wbsq
           && ((bbsq =? blockSq1)
               || bb_nonzero (attacks_from_BISHOP pos blockSq1
                              &b pieces_cp pos weakSide BISHOP))
        then SCALE_FACTOR_DRAW
        else SCALE_FACTOR_NONE
    | _ =>
        (* Neither the same file nor adjacent files. No scaling. *)
        SCALE_FACTOR_NONE
    end.

(** [Endgame<KBPKN>::operator()] *)
Definition KBPKN (strongSide : Color) (pos : Position) : ScaleFactor :=
  let weakSide := Color_not strongSide in
  let pawnSq := square pos PAWN strongSide in
  let strongBishopSq := square pos BISHOP strongSide in
  let weakKingSq := square pos KING weakSide in
  if (file_of weakKingSq =? file_of pawnSq)
     && (relative_rank strongSide pawnSq <? relative_rank strongSide weakKingSq)
     && (opposite_colors weakKingSq strongBishopSq
         || (relative_rank strongSide weakKingSq <=? RANK_6))
  then SCALE_FACTOR_DRAW
  else SCALE_FACTOR_NONE.

(** [Endgame<KNPK>::operator()] *)
Definition KNPK (strongSide : Color) (pos : Position) : ScaleFactor :=
  let weakSide := Color_not strongSide in
  let pawnSq := normalize pos strongSide (square pos PAWN strongSide) in
  let knightSq := normalize pos strongSide (square pos KNIGHT strongSide) in
  let strongKingSq := normalize pos strongSide (square pos KING strongSide) in
  let weakKingSq := normalize pos strongSide (square pos KING weakSide) in
  if pawnSq =? SQ_A7
  then
    if (weakKingSq =? SQ_A8) || (weakKingSq =? SQ_B7)
    then SCALE_FACTOR_DRAW
    else if ((weakKingSq =? SQ_C8) || (weakKingSq =? SQ_C7))
       && (strongKingSq =? SQ_A8)
       && Bool.eqb (Color_eqb strongSide (side_to_move pos))
                   (negb (opposite_colors weakKingSq knightSq))
    then SCALE_FACTOR_DRAW
    else SCALE_FACTOR_NONE
  else SCALE_FACTOR_NONE.

(** [Endgame<KNPKB>::operator()] *)
Definition KNPKB (strongSide : Color) (pos : Position) : ScaleFactor :=
  let weakSide := Color_not strongSide in
  let pawnSq := square pos PAWN strongSide in
  let bishopSq := square pos BISHOP weakSide in
  let weakKingSq := square pos KING weakSide in
  if bb_nonzero (forward_bb strongSide pawnSq
                 &b attacks_from_BISHOP pos bishopSq)
  then distance weakKingSq pawnSq
  else SCALE_FACTOR_NONE.

End ScaleEvaluators.

(** ** Instances for closed examples *)

(** One assignment of the constants, with the scores and scale factors the
    engine gives them, used for the closed examples. *)
Definition engine_constants : Constants := {|
  VALUE_ZERO := 0;
  VALUE_DRAW := 0;
  VALUE_KNOWN_WIN := 10000;
  PawnValueEg := 258;
  KnightValueMg := 817;
  BishopValueMg := 836;
  RookValueMg := 1270;
  QueenValueMg := 2521;
  SCALE_FACTOR_DRAW := 0;
  SCALE_FACTOR_NORMAL := 64;
  SCALE_FACTOR_MAX := 128;
  SCALE_FACTOR_NONE := 255
|}.

Module Sample.

(** Squares a king on [s] attacks. *)
Definition king_attacks (s : Square) : Bitboard :=
  bb_where (fun t => distance s t =? 1).

(** Squares a pawn of colour [c] on [s] attacks. *)
Definition pawn_attacks (s : Square) (c : Color) : Bitboard :=
  bb_where (fun t => (distance_File s t =? 1)
                     && (rank_of t =? rank_of s + pawn_push c / 8)).

(** Squares on a diagonal of [s]. *)
Definition bishop_pseudo_attacks (s : Square) : Bitboard :=
  bb_where (fun t => negb (s =? t)
                     && (distance_File s t =? distance_Rank s t)).

(** No pawn of the other colour ahead on the file or a neighbouring one. *)
Definition passed (pos : Position) (c : Color) (s : Square) : bool :=
  forallb (fun e => negb ((distance_File e s <=? 1)
                          && (relative_rank c s <? relative_rank c e)))
          (pieceList pos (Color_not c) PAWN).

(** The steps of the king of the side to move. *)
Definition king_steps (pos : Position) : Z :=
  Z.of_nat (List.length
    (filter (fun t => distance (square pos KING (side_to_move pos)) t =? 1)
            all_squares)).

(** The rule of the square, in the normalized orientation. *)
Definition in_square (wksq psq bksq : Square) (us : Color) : bool :=
  distance psq (make_square (file_of psq) RANK_8) + Color_index us
  <? distance bksq (make_square (file_of psq) RANK_8) + 1.

Definition fen_hash (fen : string) : Key :=
  fold_right (fun ch h => (Z.of_nat (nat_of_ascii ch) + 31 * h) mod 2 ^ 64)
             0 (list_ascii_of_string fen).

End Sample.

(** Stand-ins for the collaborators, used for the closed examples only:
    diagonals that ignore the occupancy, king steps for the legal moves, the
    rule of the square for the bitbase, a string hash for the material key. *)
Definition sample_collaborators : Collaborators := {|
  MoveList_LEGAL_size := Sample.king_steps;
  pawn_passed := Sample.passed;
  attacks_from_BISHOP := fun _ s => Sample.bishop_pseudo_attacks s;
  attacks_from_KING := fun _ s => Sample.king_attacks s;
  attacks_from_PAWN := fun _ s c => Sample.pawn_attacks s c;
  PseudoAttacks_BISHOP := Sample.bishop_pseudo_attacks;
  Bitbases_probe := Sample.in_square;
  material_key_of_fen := Sample.fen_hash
|}.

(** A snapshot from its piece lists. *)
Definition snapshot (white black : PieceType -> list Square) (stm : Color)
    (rule50 : Z) (npmWhite npmBlack : Value) : Position := {|
  pieceList := fun c => match c with WHITE => white | BLACK => black end;
  side_to_move := stm;
  rule50_count := rule50;
  non_pawn_material := fun c => match c with
                                | WHITE => npmWhite
                                | BLACK => npmBlack
                                end
|}.


(** ** Notions the properties are stated with *)

(** The colour class of a square: A1 and the squares an even number of steps
    from it along files and ranks are dark. *)
Definition dark_square (s : Square) : bool :=
  Z.even (file_of s + rank_of s).

(** Within a range of scale factors. *)
Definition in_scale_range {K : Constants} (sf : ScaleFactor) : Prop :=
  0 <= sf <= SCALE_FACTOR_NONE.

(** The score seen from the side to move. *)
Definition from_side_to_move (strongSide : Color) (pos : Position)
    (result : Value) : Value :=
  if Color_eqb strongSide (side_to_move pos) then result else - result.

(** King b6, bishop c1, knight c6 against king a8, the strong side to move:
    the bishop stands on a dark square. *)
Definition kbnk_dark_bishop : Position :=
  snapshot (fun pt => match pt with
                      | KING => [41] | BISHOP => [2] | KNIGHT => [42]
                      | _ => []
                      end)
           (fun pt => match pt with KING => [56] | _ => [] end)
           WHITE 0 (836 + 817) 0.

(** King c6, bishops c1 and e3 against king a8, the strong side to move:
    both bishops stand on dark squares. *)
Definition kbbk_dark_bishops : Position :=
  snapshot (fun pt => match pt with
                      | KING => [42] | BISHOP => [2; 20]
                      | _ => []
                      end)
           (fun pt => match pt with KING => [56] | _ => [] end)
           WHITE 0 (836 + 836) 0.

(** King c6 and rook h1 against king a8, the weak side to move. *)
Definition krk_weak_to_move : Position :=
  snapshot (fun pt => match pt with
                      | KING => [42] | ROOK => [7]
                      | _ => []
                      end)
           (fun pt => match pt with KING => [56] | _ => [] end)
           BLACK 0 1270 0.

(** ** Material signatures of endgame codes *)

Module EndgameType.

(** The evaluators of this file. *)
Inductive t : Type :=
| KNNK | KXK | KPK | KRKP | KQKP
| KBPsK | KQKRPs | KRPKR | KRPKB | KRPPKRP | KPsK
| KBPKB | KBPPKB | KBPKN | KNPK | KNPKB.

(** Modelled from the spec: the return category of a kind, which endgame.h
    (absent) derives from the enumeration: a scale factor rather than a
    definitive value. *)
Definition is_scaling (e : t) : bool :=
  match e with
  | KNNK | KXK | KPK | KRKP | KQKP => false
  | _ => true
  end.

End EndgameType.

Module Signature.

Local Open Scope string_scope.

(** How [key] can stop without a signature: an [assert] that does not hold
    (assertions as compiled in, that is without NDEBUG), or the
    [std::out_of_range] that [substr] throws for a start beyond the end. *)
Inductive Failure : Type := AssertionFailed | OutOfRange.

(** [s.find(ch, pos)]; [None] stands for [npos]. *)
Fixpoint find_from (ch : ascii) (pos : nat) (s : string) : option nat :=
  match s with
  | EmptyString => None
  | String c s' =>
      match pos with
      | O => if Ascii.eqb c ch then Some O
             else option_map S (find_from ch O s')
      | S p => option_map S (find_from ch p s')
      end
  end.

(** [s.substr(pos)], which throws when [pos] exceeds the length, as [npos]
    always does. *)
Definition substr_from (s : string) (pos : option nat) : Failure + string :=
  match pos with
  | Some i => if (i <=? String.length s)%nat
              then inr (substring i (String.length s - i) s)
              else inl OutOfRange
  | None => inl OutOfRange
  end.

(** [s.substr(0, count)]; a count of [npos] takes the whole string. *)
Definition substr_upto (s : string) (count : option nat) : string :=
  match count with
  | Some n => substring 0 n s
  | None => s
  end.

Definition tolower (c : ascii) : ascii :=
  let n := nat_of_ascii c in
  if ((65 <=? n) && (n <=? 90))%nat then ascii_of_nat (n + 32) else c.

Fixpoint transform (f : ascii -> ascii) (s : string) : string :=
  match s with
  | EmptyString => EmptyString
  | String c s' => String (f c) (transform f s')
  end.

(** [char(8 - side.length() + '0')] *)
Definition empty_squares (side : string) : string :=
  String (ascii_of_N (Z.to_N ((8 - Z.of_nat (String.length side) + 48)
                              mod 256)))
         EmptyString.

(** The FEN string [key] forges, or the way it stops before. *)
Definition forge_fen (code : string) (c : Color) : Failure + string :=
  if negb ((0 <? String.length code) && (String.length code <? 8))%nat
  then inl AssertionFailed
  else if negb (match get 0 code with
                | Some ch => Ascii.eqb ch "K"
                | None => false
                end)
  then inl AssertionFailed
  else
    match substr_from code (find_from "K" 1 code) with
    | inl e => inl e
    | inr weak =>
        let strong := substr_upto code (find_from "K" 1 code) in
        (* sides[0] is the weak side, sides[1] the strong side *)
        let sides0 := match c with
                      | WHITE => transform tolower weak
                      | BLACK => weak
                      end in
        let sides1 := match c with
                      | WHITE => strong
                      | BLACK => transform tolower strong
                      end in
        inr (sides0 ++ empty_squares sides0 ++ "/8/8/8/8/8/8/"
             ++ sides1 ++ empty_squares sides1 ++ " w - - 0 10")
    end.

(** [key]: the material key of the position set up from the forged FEN. *)
Definition key {X : Collaborators} (code : string) (c : Color)
    : Failure + Key :=
  match forge_fen code c with
  | inl e => inl e
  | inr fen => inr (material_key_of_fen fen)
  end.

(** The two maps of [Endgames], from signatures to evaluators bound to a
    strong side. *)
Record Endgames : Type := {
  value_map : list (Key * (EndgameType.t * Color));
  scale_map : list (Key * (EndgameType.t * Color))
}.

(** [m[k] = v] *)
Fixpoint assign {V : Type} (k : Key) (v : V) (m : list (Key * V))
    : list (Key * V) :=
  match m with
  | [] => [(k, v)]
  | (k', v') :: m' => if Z.eqb k' k then (k, v) :: m'
                      else (k', v') :: assign k v m'
  end.

Definition assign_in (e : EndgameType.t) (k : Key) (c : Color)
    (m : Endgames) : Endgames :=
  if EndgameType.is_scaling e
  then {| value_map := value_map m;
          scale_map := assign k (e, c) (scale_map m) |}
  else {| value_map := assign k (e, c) (value_map m);
          scale_map := scale_map m |}.

(** [Endgames::add<E>(code)] *)
Definition add {X : Collaborators} (e : EndgameType.t) (code : string)
    (m : Endgames) : Failure + Endgames :=
  match key code WHITE with
  | inl f => inl f
  | inr kw =>
      match key code BLACK with
      | inl f => inl f
      | inr kb => inr (assign_in e kb BLACK (assign_in e kw WHITE m))
      end
  end.

(** The registrations of [Endgames::Endgames()], in their order. *)
Definition registrations : list (EndgameType.t * string) := [
  (EndgameType.KPK, "KPK");
  (EndgameType.KNNK, "KNNK");
  (EndgameType.KRKP, "KRKP");
  (EndgameType.KQKP, "KQKP");
  (EndgameType.KNPK, "KNPK");
  (EndgameType.KNPKB, "KNPKB");
  (EndgameType.KRPKR, "KRPKR");
  (EndgameType.KRPKB, "KRPKB");
  (EndgameType.KBPKB, "KBPKB");
  (EndgameType.KBPKN, "KBPKN");
  (EndgameType.KBPPKB, "KBPPKB");
  (EndgameType.KRPPKRP, "KRPPKRP") ].

(** [Endgames::Endgames()] *)
Definition construct {X : Collaborators} : Failure + Endgames :=
  fold_left (fun acc reg =>
               match acc with
               | inl f => inl f
               | inr m => add (fst reg) (snd reg) m
               end)
            registrations
            (inr {| value_map := []; scale_map := [] |}).

(** *** Malformed codes, in the words of the specification *)

Fixpoint occurrences (ch : ascii) (s : string) : nat :=
  match s with
  | EmptyString => O
  | String c s' => (if Ascii.eqb c ch then 1 else 0) + occurrences ch s'
  end.

(** Index of the [n]-th occurrence (counted from 0) of [ch]. *)
Fixpoint nth_occurrence (ch : ascii) (n : nat) (s : string) : option nat :=
  match s with
  | EmptyString => None
  | String c s' =>
      if Ascii.eqb c ch
      then match n with
           | O => Some O
           | S n' => option_map S (nth_occurrence ch n' s')
           end
      else option_map S (nth_occurrence ch n s')
  end.

Definition missing_second_K (code : string) : bool :=
  (occurrences "K" code <? 2)%nat.

(** The two sides of a code split at its second 'K'; without a second 'K'
    there is no second side. *)
Definition split_sides (code : string) : string * string :=
  match nth_occurrence "K" 1 code with
  | Some i => (substring 0 i code, substring i (String.length code - i) code)
  | None => (code, EmptyString)
  end.

Definition has_empty_side (code : string) : bool :=
  (String.length (fst (split_sides code)) =? 0)%nat
  || (String.length (snd (split_sides code)) =? 0)%nat.

Definition malformed (code : string) : bool :=
  missing_second_K code || has_empty_side code
  || (8 <=? String.length code)%nat.

End Signature.

(** King e2 and pawn e5 against king e8, the strong side to move. *)
Definition kpk_e5 : Position :=
  snapshot (fun pt => match pt with
                      | KING => [12] | PAWN => [36]
                      | _ => []
                      end)
           (fun pt => match pt with KING => [60] | _ => [] end)
           WHITE 0 0 0.

(** King e6 and a pawn on a given square against king a8, the strong side,
    black, to move. *)
Definition kpk_black_pawn (psq : Square) : Position :=
  snapshot (fun pt => match pt with KING => [56] | _ => [] end)
           (fun pt => match pt with
                      | KING => [44] | PAWN => [psq]
                      | _ => []
                      end)
           BLACK 0 0 0.

(** ** Dispatch over the scaling kinds *)

Section Dispatch.

Context {K : Constants} {X : Collaborators}.

(** [Endgame<E>::operator()] for the kinds that return a scale factor;
    [None] where an assertion inside the body fails or a table is read out
    of bounds, and for the other kinds. *)
Definition scale_factor (e : EndgameType.t) (strongSide : Color)
    (pos : Position) : option ScaleFactor :=
  match e with
  | EndgameType.KBPsK => Some (KBPsK strongSide pos)
  | EndgameType.KQKRPs => Some (KQKRPs strongSide pos)
  | EndgameType.KRPKR => Some (KRPKR strongSide pos)
  | EndgameType.KRPKB => Some (KRPKB strongSide pos)
  | EndgameType.KRPPKRP => KRPPKRP strongSide pos
  | EndgameType.KPsK => Some (KPsK strongSide pos)
  | EndgameType.KBPKB => Some (KBPKB strongSide pos)
  | EndgameType.KBPPKB => Some (KBPPKB strongSide pos)
  | EndgameType.KBPKN => Some (KBPKN strongSide pos)
  | EndgameType.KNPK => Some (KNPK strongSide pos)
  | EndgameType.KNPKB => Some (KNPKB strongSide pos)
  | _ => None
  end.

(** The material each scaling evaluator asserts on entry.  [Endgame<KNPKB>]
    asserts nothing; it is given the material its code names, in the manner
    of its siblings. *)
Definition material_precondition (e : EndgameType.t) (strongSide : Color)
    (pos : Position) : Prop :=
  let weakSide := Color_not strongSide in
  match e with
  | EndgameType.KBPsK =>
      non_pawn_material pos strongSide = BishopValueMg
      /\ 1 <= count pos PAWN strongSide
  | EndgameType.KQKRPs =>
      verify_material pos strongSide QueenValueMg 0 = true
      /\ count pos ROOK weakSide = 1
      /\ 1 <= count pos PAWN weakSide
  | EndgameType.KRPKR =>
      verify_material pos strongSide RookValueMg 1 = true
      /\ verify_material pos weakSide RookValueMg 0 = true
  | EndgameType.KRPKB =>
      verify_material pos strongSide RookValueMg 1 = true
      /\ verify_material pos weakSide BishopValueMg 0 = true
  | EndgameType.KRPPKRP =>
      verify_material pos strongSide RookValueMg 2 = true
      /\ verify_material pos weakSide RookValueMg 1 = true
  | EndgameType.KPsK =>
      non_pawn_material pos strongSide = VALUE_ZERO
      /\ 2 <= count pos PAWN strongSide
      /\ verify_material pos weakSide VALUE_ZERO 0 = true
  | EndgameType.KBPKB =>
      verify_material pos strongSide BishopValueMg 1 = true
      /\ verify_material pos weakSide BishopValueMg 0 = true
  | EndgameType.KBPPKB =>
      verify_material pos strongSide BishopValueMg 2 = true
      /\ verify_material pos weakSide BishopValueMg 0 = true
  | EndgameType.KBPKN =>
      verify_material pos strongSide BishopValueMg 1 = true
      /\ verify_material pos weakSide KnightValueMg 0 = true
  | EndgameType.KNPK =>
      verify_material pos strongSide KnightValueMg 1 = true
      /\ verify_material pos weakSide VALUE_ZERO 0 = true
  | EndgameType.KNPKB =>
      verify_material pos strongSide KnightValueMg 1 = true
      /\ verify_material pos weakSide BishopValueMg 0 = true
  | EndgameType.KXK =>
      verify_material pos weakSide VALUE_ZERO 0 = true
  | EndgameType.KPK =>
      verify_material pos strongSide VALUE_ZERO 1 = true
      /\ verify_material pos weakSide VALUE_ZERO 0 = true
  | _ => True
  end.

End Dispatch.

(** King e1 and queen d1 against king e8, rook a8 and pawn a7, the strong
    side to move, with a given count of plies since the last pawn move or
    capture.  The pawn is outside the fortress mask. *)
Definition kqkrp_a7 (rule50 : Z) : Position :=
  snapshot (fun pt => match pt with
                      | KING => [4] | QUEEN => [3]
                      | _ => []
                      end)
           (fun pt => match pt with
                      | KING => [60] | ROOK => [56] | PAWN => [48]
                      | _ => []
                      end)
           WHITE rule50 2521 1270.

(** King d6, rook b1 and pawn b7 against king g7 and rook h2, the strong
    side to move. *)
Definition krpkr_b7 : Position :=
  snapshot (fun pt => match pt with
                      | KING => [43] | ROOK => [1] | PAWN => [49]
                      | _ => []
                      end)
           (fun pt => match pt with
                      | KING => [54] | ROOK => [15]
                      | _ => []
                      end)
           WHITE 0 1270 1270.

(** King g1, rook a1 and pawns f4, g4 against king g6, rook a8 and pawn g5,
    the strong side to move. *)
Definition krppkrp_blocked : Position :=
  snapshot (fun pt => match pt with
                      | KING => [6] | ROOK => [0] | PAWN => [29; 30]
                      | _ => []
                      end)
           (fun pt => match pt with
                      | KING => [46] | ROOK => [56] | PAWN => [38]
                      | _ => []
                      end)
           WHITE 0 1270 1270.

(** King g1, rook a1 and pawns f7, g7 against king f8, rook a8 and a pawn
    on g8 -- a square no pawn reaches in a game --, the strong side to
    move: neither strong pawn is passed and the greater relative rank of
    the two is [RANK_7]. *)
Definition krppkrp_seventh : Position :=
  snapshot (fun pt => match pt with
                      | KING => [6] | ROOK => [0] | PAWN => [53; 54]
                      | _ => []
                      end)
           (fun pt => match pt with
                      | KING => [61] | ROOK => [56] | PAWN => [62]
                      | _ => []
                      end)
           WHITE 0 1270 1270.

(** ** Rook and queen against a pawn *)

(** The endgame piece values the two evaluators below add to the known win;
    like the other enumerators they come from types.h and are parameters. *)
Class EndgameValues : Type := {
  RookValueEg : Value;
  QueenValueEg : Value
}.

(** Modelled from the spec: the bitboards of the C and F files of
    bitboard.h (absent). *)
Definition FileCBB : Bitboard := Eval cbv in file_bb FILE_C.
Definition FileFBB : Bitboard := Eval cbv in file_bb FILE_F.

Section PawnEndgames.

Context {K : Constants} {V : EndgameValues}.

(** A [bool] used as an [int], as in [3 + (pos.side_to_move() == weakSide)]. *)
Definition bool_to_int (b : bool) : Z := if b then 1 else 0.

(** The score [Endgame<KRKP>] gives its three winning cases. *)
Definition KRKP_win : Value :=
  VALUE_KNOWN_WIN + Z.quot RookValueEg 10 - PawnValueEg.

(** The body of [Endgame<KRKP>::operator()] before the sign is set: the
    score from the strong side's point of view. *)
Definition KRKP_result (strongSide : Color) (pos : Position) : Value :=
  let weakSide := Color_not strongSide in
  let wksq := relative_square strongSide (square pos KING strongSide) in
  let bksq := relative_square strongSide (square pos KING weakSide) in
  let rsq := relative_square strongSide (square pos ROOK strongSide) in
  let psq := relative_square strongSide (square pos PAWN weakSide) in
  let queeningSq := make_square (file_of psq) RANK_1 in
  (* pawn and king of the weaker side not beyond the 3rd rank *)
  if (RANK_6 <=? rank_of bksq)
     && (RANK_6 <=? rank_of psq)
     && Color_eqb (side_to_move pos) strongSide
  then KRKP_win
  (* the stronger side's king in front of the pawn *)
  else if (wksq <? psq)
     && (distance_File wksq psq <=? 1)
     && ((RANK_3 <=? rank_of psq) || (2 <=? distance bksq psq))
  then KRKP_win
  (* the weaker side's king too far from the pawn and the rook *)
  else if (3 + bool_to_int (Color_eqb (side_to_move pos) weakSide)
           <=? distance bksq psq)
     && (2 <=? distance bksq rsq)
     && (negb (rank_of psq =? RANK_2) || (distance wksq queeningSq <=? 1))
  then KRKP_win
  (* the pawn far advanced and supported by the defending king *)
  else if (rank_of bksq <=? RANK_3)
     && (distance bksq psq =? 1)
     && (RANK_4 <=? rank_of wksq)
     && (2 + bool_to_int (Color_eqb (side_to_move pos) strongSide)
         <? distance wksq psq)
  then 80 - 8 * distance wksq psq
  else 200 - 8 * (distance wksq (psq + DELTA_S)
                  - distance bksq (psq + DELTA_S)
                  - distance psq queeningSq).

(** [Endgame<KRKP>::operator()] *)
Definition KRKP (strongSide : Color) (pos : Position) : Value :=
  let result := KRKP_result strongSide pos in
  if Color_eqb strongSide (side_to_move pos) then result else - result.

(** The test of [Endgame<KQKP>] for the pawn that may hold the draw: on its
    7th rank, on the A, C, F or H file, with its king next to it. *)
Definition KQKP_drawish (strongSide : Color) (pos : Position) : bool :=
  let weakSide := Color_not strongSide in
  let loserKSq := square pos KING weakSide in
  let pawnSq := square pos PAWN weakSide in
  negb (negb (relative_rank weakSide pawnSq =? RANK_7)
        || negb (distance loserKSq pawnSq =? 1)
        || negb (bb_nonzero
                   (Z.lor (Z.lor (Z.lor FileABB FileCBB) FileFBB) FileHBB
                    &b square_bb pawnSq))).

(** [Endgame<KQKP>::operator()]; [None] when the table is read out of its
    bounds or the division is by zero. *)
Definition KQKP (strongSide : Color) (pos : Position) : option Value :=
  let weakSide := Color_not strongSide in
  let winnerKSq := square pos KING strongSide in
  let loserKSq := square pos KING weakSide in
  let pawnSq := square pos PAWN weakSide in
  close <- lookup PushClose (distance winnerKSq loserKSq) ;;
  if rule50_count pos + 1 =? 0 then None
  else
    let result := Z.quot close (rule50_count pos + 1) in
    let result :=
      if negb (relative_rank weakSide pawnSq =? RANK_7)
         || negb (distance loserKSq pawnSq =? 1)
         || negb (bb_nonzero
                    (Z.lor (Z.lor (Z.lor FileABB FileCBB) FileFBB) FileHBB
                     &b square_bb pawnSq))
      then result + (VALUE_KNOWN_WIN + Z.quot QueenValueEg 10 - PawnValueEg)
      else result in
    Some (if Color_eqb strongSide (side_to_move pos)
          then result else - result).

End PawnEndgames.

(** One assignment of the two piece values, used for the closed examples. *)
Definition engine_endgame_values : EndgameValues := {|
  RookValueEg := 1278;
  QueenValueEg := 2558
|}.

(** ** Board symmetries of a snapshot *)

(** The snapshot with every piece moved by [f]. *)
Definition map_position (f : Square -> Square) (pos : Position) : Position := {|
  pieceList := fun c pt => map f (pieceList pos c pt);
  side_to_move := side_to_move pos;
  rule50_count := rule50_count pos;
  non_pawn_material := non_pawn_material pos
|}.

(** The snapshot seen in a mirror: files A..H become H..A. *)
Definition mirror_position : Position -> Position := map_position mirror_file.

(** The snapshot with the colours exchanged: each side takes the other's
    pieces, on the rank-flipped squares, and the other side is to move. *)
Definition swap_colors (pos : Position) : Position := {|
  pieceList := fun c pt => map Square_not (pieceList pos (Color_not c) pt);
  side_to_move := Color_not (side_to_move pos);
  rule50_count := rule50_count pos;
  non_pawn_material := fun c => non_pawn_material pos (Color_not c)
|}.

(** The snapshot with the other side to move. *)
Definition pass_move (pos : Position) : Position := {|
  pieceList := pieceList pos;
  side_to_move := Color_not (side_to_move pos);
  rule50_count := rule50_count pos;
  non_pawn_material := non_pawn_material pos
|}.

(** The test of [Endgame<KXK>] for bishops on both colours, on their list. *)
Definition on_both_colours (l : list Square) : bool :=
  bb_nonzero (bb_of_list l &b DarkSquares)
  && bb_nonzero (bb_of_list l &b bb_not DarkSquares).

(** ** Reading the registry *)

Module Registry.

Import Signature.

(** Modelled from the spec: the lookup of a signature in one of the two
    maps ([Endgames::probe] of endgame.h, absent); [None] when the
    signature is not bound. *)
Fixpoint probe {V : Type} (k : Key) (m : list (Key * V)) : option V :=
  match m with
  | [] => None
  | (k', v) :: m' => if Z.eqb k' k then Some v else probe k m'
  end.

(** The map a kind is registered in. *)
Definition map_of (e : EndgameType.t) (m : Endgames)
    : list (Key * (EndgameType.t * Color)) :=
  if EndgameType.is_scaling e then scale_map m else value_map m.

(** The map a kind is not registered in. *)
Definition other_map_of (e : EndgameType.t) (m : Endgames)
    : list (Key * (EndgameType.t * Color)) :=
  if EndgameType.is_scaling e then value_map m else scale_map m.

(** The map that holds the scaling kinds, or the other one. *)
Definition sel (b : bool) (m : Endgames)
    : list (Key * (EndgameType.t * Color)) :=
  if b then scale_map m else value_map m.

(** [Endgames::Endgames()] run over a list of registrations, from a given
    registry. *)
Definition construct_over {X : Collaborators}
    (regs : list (EndgameType.t * string)) (m0 : Endgames)
    : Failure + Endgames :=
  fold_left (fun acc reg =>
               match acc with
               | inl f => inl f
               | inr m => add (fst reg) (snd reg) m
               end)
            regs (inr m0).

(** The signatures a list of registrations asks for, in order. *)
Definition signatures {X : Collaborators}
    (regs : list (EndgameType.t * string)) : list (Failure + Key) :=
  flat_map (fun reg => [key (snd reg) WHITE; key (snd reg) BLACK]) regs.

(** The digit character for a count of squares. *)
Definition digit_char (n : nat) : ascii := ascii_of_nat (48 + n).

End Registry.

(** ** The transposition table of tt.h *)

Module TT.

(** [TranspositionTable::ClusterSize] *)
Definition ClusterSize : Z := 2.

(** The fields of [TranspositionTable] that its inline members read and
    write: the number of clusters, a [size_t] of 64 bits, and the
    generation, a [uint32_t]. *)
Record TranspositionTable : Type := {
  clusterCount : Z;
  generation32 : Z
}.

Definition uint32_t (x : Z) : Z := x mod 2 ^ 32.
Definition uint64_t (x : Z) : Z := x mod 2 ^ 64.

(** [TranspositionTable::first_entry]: the index of the cluster whose first
    entry is returned, [(uint32_t(key) * uint64_t(clusterCount)) >> 32],
    the product being taken in 64 bits. *)
Definition first_entry (tt : TranspositionTable) (key : Key) : Z :=
  Z.shiftr (uint64_t (uint32_t key * uint64_t (clusterCount tt))) 32.

(** [TranspositionTable::new_search]: [generation32 += 8] on a [uint32_t]. *)
Definition new_search (tt : TranspositionTable) : TranspositionTable := {|
  clusterCount := clusterCount tt;
  generation32 := uint32_t (generation32 tt + 8)
|}.

(** The table after [n] calls of [new_search]. *)
Fixpoint searches (n : nat) (tt : TranspositionTable) : TranspositionTable :=
  match n with
  | O => tt
  | S n' => new_search (searches n' tt)
  end.

End TT.

(** ** Sample snapshots for the closed examples *)

(** King d5 and rook h1 against king b3 and pawn b2, the weak side to
    move. *)
Definition krkp_b2 : Position :=
  snapshot (fun pt => match pt with
                      | KING => [35] | ROOK => [7]
                      | _ => []
                      end)
           (fun pt => match pt with
                      | KING => [17] | PAWN => [9]
                      | _ => []
                      end)
           BLACK 0 1270 0.

(** King e4 and queen h8 against king b1 and pawn c2, the strong side to
    move, with a given count of plies. *)
Definition kqkp_c2 (rule50 : Z) : Position :=
  snapshot (fun pt => match pt with
                      | KING => [28] | QUEEN => [63]
                      | _ => []
                      end)
           (fun pt => match pt with
                      | KING => [1] | PAWN => [10]
                      | _ => []
                      end)
           WHITE rule50 2521 0.

(** The black side strong: king c3, knight d4 and pawn a2 against the white
    king a1, white to move. *)
Definition knpk_black_a2 : Position :=
  snapshot (fun pt => match pt with KING => [0] | _ => [] end)
           (fun pt => match pt with
                      | KING => [18] | KNIGHT => [27] | PAWN => [8]
                      | _ => []
                      end)
           WHITE 0 0 817.

(** Kings e1 and g4, strong pawns h5 and h6 ahead of the weak king g8. *)
Definition kpsk_h_pawns : Position :=
  snapshot (fun pt => match pt with
                      | KING => [30] | PAWN => [39; 47]
                      | _ => []
                      end)
           (fun pt => match pt with KING => [62] | _ => [] end)
           BLACK 0 0 0.

(** King e4, rook a1 and pawn h5 against king g7 and bishop d1. *)
Definition krpkb_h5 : Position :=
  snapshot (fun pt => match pt with
                      | KING => [28] | ROOK => [0] | PAWN => [39]
                      | _ => []
                      end)
           (fun pt => match pt with
                      | KING => [54] | BISHOP => [3]
                      | _ => []
                      end)
           WHITE 0 1270 836.

(** King d4 and rook a1 against king e6 and pawn e4, the strong side to
    move: the king stands beside the pawn, on its left. *)
Definition krkp_king_left : Position :=
  snapshot (fun pt => match pt with
                      | KING => [27] | ROOK => [0]
                      | _ => []
                      end)
           (fun pt => match pt with
                      | KING => [44] | PAWN => [28]
                      | _ => []
                      end)
           WHITE 0 1270 0.

(** King e1, bishop e3 and pawns a4, a5 against king b8, the weak side to
    move: the bishop does not control a8. *)
Definition kbpsk_wrong_bishop : Position :=
  snapshot (fun pt => match pt with
                      | KING => [4] | BISHOP => [20] | PAWN => [32; 24]
                      | _ => []
                      end)
           (fun pt => match pt with KING => [57] | _ => [] end)
           BLACK 0 836 0.
(** * Properties *)

Lemma Color_eqb_eq (a b : Color) : Color_eqb a b = true <-> a = b.
Proof. destruct a, b; simpl; split; intro H; congruence. Qed.

Ltac snapshot_live :=
  split; [ intros [|] [| | | | |] s Hs; cbn in Hs; unfold is_ok;
           intuition lia
         | split; reflexivity ].

(** ** Squares, files, ranks and distances: basic facts *)

Section SquareFacts.

(** A property checked on the 64 squares holds of every square. *)
Lemma forall_squares (p : Square -> bool) :
  forallb p all_squares = true -> forall s, is_ok s -> p s = true.
Proof.
  intros Hall s [Hlo Hhi].
  rewrite forallb_forall in Hall. apply Hall.
  unfold all_squares. rewrite <- (Z2Nat.id s) by exact Hlo.
  apply in_map, in_seq. lia.
Qed.

Lemma file_of_mod (s : Square) : file_of s = s mod 8.
Proof. unfold file_of. change 7 with (Z.ones 3). now rewrite Z.land_ones. Qed.

Lemma rank_of_div (s : Square) : rank_of s = s / 8.
Proof. unfold rank_of. now rewrite Z.shiftr_div_pow2. Qed.

Lemma file_of_range (s : Square) : 0 <= file_of s <= 7.
Proof. rewrite file_of_mod. pose proof (Z.mod_pos_bound s 8). lia. Qed.

Lemma rank_of_range (s : Square) : is_ok s -> 0 <= rank_of s <= 7.
Proof.
  intros [Hlo Hhi]. rewrite rank_of_div. split.
  - apply Z.div_pos; lia.
  - assert (s / 8 < 8) by (apply Z.div_lt_upper_bound; lia). lia.
Qed.

Lemma distance_int_range (x y : Z) :
  0 <= x <= 7 -> 0 <= y <= 7 -> 0 <= distance_int x y <= 7.
Proof. unfold distance_int. destruct (x <? y) eqn:E; lia. Qed.

Lemma distance_File_range (x y : Square) : 0 <= distance_File x y <= 7.
Proof. apply distance_int_range; apply file_of_range. Qed.

Lemma distance_range (x y : Square) :
  is_ok x -> is_ok y -> 0 <= distance x y <= 7.
Proof.
  intros Hx Hy. unfold distance, distance_Rank.
  pose proof (distance_File_range x y).
  pose proof (distance_int_range _ _ (rank_of_range x Hx) (rank_of_range y Hy)).
  lia.
Qed.

Lemma mirror_file_ok (s : Square) : is_ok s -> is_ok (mirror_file s).
Proof.
  intro Hs.
  pose proof (forall_squares
    (fun s => (0 <=? mirror_file s) && (mirror_file s <? 64))
    eq_refl s Hs) as H.
  apply andb_true_iff in H. unfold is_ok. lia.
Qed.

Lemma Square_not_ok (s : Square) : is_ok s -> is_ok (Square_not s).
Proof.
  intro Hs.
  pose proof (forall_squares
    (fun s => (0 <=? Square_not s) && (Square_not s <? 64))
    eq_refl s Hs) as H.
  apply andb_true_iff in H. unfold is_ok. lia.
Qed.

Lemma normalize_ok (pos : Position) (c : Color) (s : Square) :
  is_ok s -> is_ok (normalize pos c s).
Proof.
  intro Hs. unfold normalize.
  destruct (FILE_E <=? _); destruct (Color_eqb c BLACK);
    auto using mirror_file_ok, Square_not_ok.
Qed.

Lemma queening_square_ok (s : Square) :
  is_ok (make_square (file_of s) RANK_8).
Proof.
  pose proof (file_of_range s) as Hf.
  assert (Hc : file_of s = 0 \/ file_of s = 1 \/ file_of s = 2
               \/ file_of s = 3 \/ file_of s = 4 \/ file_of s = 5
               \/ file_of s = 6 \/ file_of s = 7) by lia.
  unfold is_ok.
  repeat (destruct Hc as [Hc | Hc]; [rewrite Hc; cbv; intuition congruence |]).
  rewrite Hc; cbv; intuition congruence.
Qed.

Lemma relative_rank_range (c : Color) (s : Square) :
  is_ok s -> 0 <= relative_rank c s <= 7.
Proof.
  intro Hs.
  pose proof (forall_squares
    (fun s => (0 <=? relative_rank c s) && (relative_rank c s <=? 7))) as H.
  destruct c; specialize (H eq_refl s Hs);
    apply andb_true_iff in H; lia.
Qed.

Lemma mirror_file_involutive (s : Square) : mirror_file (mirror_file s) = s.
Proof.
  unfold mirror_file.
  now rewrite Z.lxor_assoc, Z.lxor_nilpotent, Z.lxor_0_r.
Qed.

Lemma Square_not_involutive (s : Square) : Square_not (Square_not s) = s.
Proof.
  unfold Square_not.
  now rewrite Z.lxor_assoc, Z.lxor_nilpotent, Z.lxor_0_r.
Qed.

(** Both transforms keep the file half apart: the mirroring swaps the
    halves and the colour flip keeps the file. *)
Lemma Square_not_file (s : Square) :
  is_ok s -> file_of (Square_not s) = file_of s.
Proof.
  intro Hs.
  pose proof (forall_squares
    (fun s => file_of (Square_not s) =? file_of s) eq_refl s Hs) as H.
  now apply Z.eqb_eq in H.
Qed.

End SquareFacts.

(** ** Pieces of a snapshot *)

Section SnapshotFacts.

Variable pos : Position.
Hypothesis Hboard : on_board pos.

Lemma squares_ok (pt : PieceType) (c : Color) (i : nat) :
  Z.of_nat i < count pos pt c -> is_ok (squares pos pt c i).
Proof.
  unfold count, squares. intro Hi.
  apply (Hboard c pt). apply nth_In. lia.
Qed.

Lemma square_ok (pt : PieceType) (c : Color) :
  0 < count pos pt c -> is_ok (square pos pt c).
Proof. intro H. apply squares_ok. lia. Qed.

End SnapshotFacts.

Lemma king_ok (pos : Position) (c : Color) :
  live pos -> is_ok (square pos KING c).
Proof.
  intros (Hb & Hw & Hk). apply square_ok; [exact Hb |].
  destruct c; lia.
Qed.

(** ** The square normalizer is an involution *)

Section Normalizer.

Lemma normalize_involutive (pos : Position) (strongSide : Color)
    (sq : Square) :
  normalize pos strongSide (normalize pos strongSide sq) = sq.
Proof.
  unfold normalize.
  destruct (FILE_E <=? file_of (square pos PAWN strongSide));
    destruct (Color_eqb strongSide BLACK);
    unfold mirror_file, Square_not;
    rewrite ?Z.lxor_assoc;
    rewrite ?(Z.lxor_comm SQ_A8 (Z.lxor 7 SQ_A8));
    rewrite ?Z.lxor_assoc, ?Z.lxor_nilpotent, ?Z.lxor_0_r;
    rewrite ?Z.lxor_nilpotent, ?Z.lxor_0_r; reflexivity.
Qed.

End Normalizer.

(** C6, as amended: the file mirroring [sq ^ 7] and the colour flip [~sq]
    are each self-inverse on square indices (applied twice they give the
    square back; they are involutions, not idempotent maps), and [normalize]
    applied twice in the same context of position and strong side, hence
    with the same pawn file, yields the original square. *)
Theorem normalizer_transforms_self_inverse :
  (forall sq, mirror_file (mirror_file sq) = sq)
  /\ (forall sq, Square_not (Square_not sq) = sq)
  /\ (forall pos strongSide sq,
        normalize pos strongSide (normalize pos strongSide sq) = sq).
Proof.
  split; [| split].
  - exact mirror_file_involutive.
  - exact Square_not_involutive.
  - exact normalize_involutive.
Qed.

(** C6, counterexample: neither transform is idempotent.  Mirroring A1
    gives H1 and mirroring again gives A1 back, which is not H1; flipping A1
    gives A8 and flipping again gives A1 back, which is not A8. *)
Lemma normalizer_transforms_not_idempotent :
  mirror_file SQ_A1 = SQ_H1
  /\ mirror_file (mirror_file SQ_A1) <> mirror_file SQ_A1
  /\ Square_not SQ_A1 = SQ_A8
  /\ Square_not (Square_not SQ_A1) <> Square_not SQ_A1.
Proof. repeat split; cbv; congruence. Qed.

(** ** The closeness table *)

(** C7, as amended: over the distances two kings can be at, 2..7, the
    [PushClose] table does not increase with the distance: for every pair
    2 <= d1 < d2 <= 7 both entries exist and [PushClose[d1] >= PushClose[d2]]. *)
Theorem PushClose_nonincreasing_from_2 (d1 d2 : Z) :
  2 <= d1 -> d1 < d2 -> d2 <= 7 ->
  exists v1 v2, lookup PushClose d1 = Some v1
                /\ lookup PushClose d2 = Some v2
                /\ v1 >= v2.
Proof.
  intros H1 H12 H2.
  assert (C1 : d1 = 2 \/ d1 = 3 \/ d1 = 4 \/ d1 = 5 \/ d1 = 6) by lia.
  assert (C2 : d2 = 3 \/ d2 = 4 \/ d2 = 5 \/ d2 = 6 \/ d2 = 7) by lia.
  destruct C1 as [-> | [-> | [-> | [-> | ->]]]];
    destruct C2 as [-> | [-> | [-> | [-> | ->]]]];
    try lia;
    (eexists; eexists; split; [reflexivity | split; [reflexivity | lia]]).
Qed.

Lemma PushClose_nonincreasing_from_2_witness :
  exists v1 v2, lookup PushClose 2 = Some v1
                /\ lookup PushClose 7 = Some v2
                /\ v1 >= v2.
Proof. apply (PushClose_nonincreasing_from_2 2 7); lia. Defined.

(** C7, counterexample: the entries for the distances 0 and 1 are 0, below
    the entry 400 for the distance 2, so the table is not non-increasing
    over the whole range 0..7. *)
Lemma PushClose_rises_at_2 :
  lookup PushClose 0 = Some 0
  /\ lookup PushClose 1 = Some 0
  /\ lookup PushClose 2 = Some 400
  /\ ~ (forall d1 d2 v1 v2, 0 <= d1 -> d1 < d2 -> d2 <= 7 ->
          lookup PushClose d1 = Some v1 -> lookup PushClose d2 = Some v2 ->
          v1 >= v2).
Proof.
  repeat split.
  intro H.
  specialize (H 0 2 0 400 ltac:(lia) ltac:(lia) ltac:(lia) eq_refl eq_refl).
  lia.
Qed.

(** ** Bitboards of piece lists *)

Section BitboardFacts.

Lemma square_bb_land (s : Square) (b : Bitboard) :
  0 <= s -> (square_bb s &b b = 0 <-> Z.testbit b s = false).
Proof.
  intro Hs. unfold square_bb. rewrite Z.shiftl_1_l. split.
  - intro H0.
    assert (Hbit : Z.testbit (2 ^ s &b b) s = false)
      by (rewrite H0; apply Z.bits_0).
    rewrite Z.land_spec, Z.pow2_bits_true in Hbit by exact Hs.
    exact Hbit.
  - intro Hb. apply Z.bits_inj'. intros n Hn.
    rewrite Z.land_spec, Z.bits_0, Z.pow2_bits_eqb by exact Hs.
    destruct (Z.eqb_spec s n) as [-> | Hne]; [now rewrite Hb | reflexivity].
Qed.

Lemma bb_of_list_land (l : list Square) (b : Bitboard) :
  (forall s, In s l -> is_ok s) ->
  (bb_of_list l &b b = 0 <-> forall s, In s l -> Z.testbit b s = false).
Proof.
  induction l as [| a l IH]; intro Hok; simpl.
  - split; [intros _ s [] | reflexivity].
  - rewrite Z.land_lor_distr_l, Z.lor_eq_0_iff.
    rewrite square_bb_land by (apply (Hok a); now left).
    rewrite IH by (intros s Hs; apply Hok; now right).
    split.
    + intros [Ha Hl] s [<- | Hs]; auto.
    + intro H. split; [apply H; now left | intros s Hs; apply H; now right].
Qed.

Lemma DarkSquares_spec (s : Square) :
  is_ok s -> Z.testbit DarkSquares s = dark_square s.
Proof.
  intro Hs.
  pose proof (forall_squares
    (fun s => Bool.eqb (Z.testbit DarkSquares s) (dark_square s))
    eq_refl s Hs) as H.
  now apply Bool.eqb_prop in H.
Qed.

Lemma not_DarkSquares_spec (s : Square) :
  is_ok s -> Z.testbit (bb_not DarkSquares) s = negb (dark_square s).
Proof.
  intro Hs.
  pose proof (forall_squares
    (fun s => Bool.eqb (Z.testbit (bb_not DarkSquares) s)
                       (negb (dark_square s)))
    eq_refl s Hs) as H.
  now apply Bool.eqb_prop in H.
Qed.

(** [opposite_colors] against A1 tells the light squares. *)
Lemma opposite_colors_A1 (s : Square) :
  is_ok s -> opposite_colors s SQ_A1 = negb (dark_square s).
Proof.
  intro Hs.
  pose proof (forall_squares
    (fun s => Bool.eqb (opposite_colors s SQ_A1) (negb (dark_square s)))
    eq_refl s Hs) as H.
  now apply Bool.eqb_prop in H.
Qed.

End BitboardFacts.

(** ** King and material against the bare king *)

Section KXKFacts.

Context {K : Constants} {X : Collaborators}.

Lemma PushToEdges_at_least_80 (s : Square) :
  is_ok s -> exists v, lookup PushToEdges s = Some v /\ 80 <= v.
Proof.
  intro Hs.
  pose proof (forall_squares
    (fun s => match lookup PushToEdges s with
              | Some v => 80 <=? v
              | None => false
              end) eq_refl s Hs) as H.
  cbv beta in H. destruct (lookup PushToEdges s) as [v |]; [| discriminate].
  exists v. split; [reflexivity | lia].
Qed.

Lemma PushToCorners_at_least_minus_50 (s : Square) :
  is_ok s -> exists v, lookup PushToCorners s = Some v /\ -50 <= v.
Proof.
  intro Hs.
  pose proof (forall_squares
    (fun s => match lookup PushToCorners s with
              | Some v => -50 <=? v
              | None => false
              end) eq_refl s Hs) as H.
  cbv beta in H. destruct (lookup PushToCorners s) as [v |]; [| discriminate].
  exists v. split; [reflexivity | lia].
Qed.

Lemma PushClose_nonnegative (d : Z) :
  0 <= d <= 7 -> exists v, lookup PushClose d = Some v /\ 0 <= v.
Proof.
  intro Hd.
  assert (Hok : is_ok d) by (unfold is_ok; lia).
  pose proof (forall_squares
    (fun d => (7 <? d) || match lookup PushClose d with
                          | Some v => 0 <=? v
                          | None => false
                          end) eq_refl d Hok) as H.
  cbv beta in H. apply orb_true_iff in H. destruct H as [H | H]; [lia |].
  destruct (lookup PushClose d) as [v |]; [| discriminate].
  exists v. split; [reflexivity | lia].
Qed.

(** The shape of the evaluation once no draw is detected. *)
Lemma KXK_unfold (strongSide : Color) (pos : Position) (edge close : Z) :
  KXK_stalemate strongSide pos = false ->
  KXK_same_bishops strongSide pos = false ->
  lookup PushToEdges (square pos KING (Color_not strongSide)) = Some edge ->
  lookup PushClose (distance (square pos KING strongSide)
                             (square pos KING (Color_not strongSide)))
    = Some close ->
  KXK strongSide pos =
    let base := VALUE_KNOWN_WIN
                + Z.quot (non_pawn_material pos strongSide) 10
                + edge + close in
    if KXK_bishop_and_knight strongSide pos
    then
      corner <- lookup PushToCorners
                  (if opposite_colors (square pos BISHOP strongSide) SQ_A1
                   then Square_not (square pos KING (Color_not strongSide))
                   else square pos KING (Color_not strongSide)) ;;
      Some (from_side_to_move strongSide pos (base + corner))
    else Some (from_side_to_move strongSide pos base).
Proof.
  intros Hs Hb He Hc. unfold KXK. rewrite Hs, Hb. cbv zeta.
  rewrite He, Hc. simpl obind.
  destruct (KXK_bishop_and_knight strongSide pos); [| reflexivity].
  destruct (opposite_colors (square pos BISHOP strongSide) SQ_A1);
    match goal with
    | |- context [lookup PushToCorners ?s] =>
        destruct (lookup PushToCorners s); reflexivity
    end.
Qed.

End KXKFacts.

Section KXKProperties.

Context {K : Constants} {X : Collaborators}.

(** C4: with two or more bishops on the strong side, all of them on squares
    of one colour class, and no pawn, knight, rook or queen on the strong
    side, [Endgame<KXK>] returns [VALUE_DRAW].  Nothing is asked of the king
    squares: the draw is returned before a geometry table is read, so it is
    returned even for squares no table has an entry for. *)
Theorem KXK_same_colored_bishops_draw (strongSide : Color) (pos : Position) :
  2 <= count pos BISHOP strongSide ->
  (forall b, In b (pieceList pos strongSide BISHOP) -> is_ok b) ->
  (forall b1 b2, In b1 (pieceList pos strongSide BISHOP) ->
                 In b2 (pieceList pos strongSide BISHOP) ->
                 dark_square b1 = dark_square b2) ->
  count pos PAWN strongSide = 0 ->
  count pos KNIGHT strongSide = 0 ->
  count pos ROOK strongSide = 0 ->
  count pos QUEEN strongSide = 0 ->
  KXK strongSide pos = Some VALUE_DRAW.
Proof.
  intros Hn Hok Hsame Hp Hk Hr Hq.
  unfold KXK. destruct (KXK_stalemate strongSide pos); [reflexivity |].
  assert (Hb : KXK_same_bishops strongSide pos = true).
  { unfold KXK_same_bishops. rewrite Hp, Hk, Hr, Hq.
    replace (1 <? count pos BISHOP strongSide) with true
      by (symmetry; apply Z.ltb_lt; lia).
    simpl. rewrite !andb_true_r. apply negb_true_iff.
    unfold pieces_cp, count in *.
    destruct (pieceList pos strongSide BISHOP) as [| b0 l] eqn:El;
      [simpl in Hn; lia |].
    destruct (dark_square b0) eqn:Ed.
    - (* all dark: nothing on the light squares *)
      apply andb_false_iff. right. unfold bb_nonzero.
      apply negb_false_iff, Z.eqb_eq.
      apply bb_of_list_land; [exact Hok |].
      intros s Hs. rewrite not_DarkSquares_spec by (apply Hok; exact Hs).
      rewrite (Hsame s b0 Hs (or_introl eq_refl)), Ed. reflexivity.
    - (* all light: nothing on the dark squares *)
      apply andb_false_iff. left. unfold bb_nonzero.
      apply negb_false_iff, Z.eqb_eq.
      apply bb_of_list_land; [exact Hok |].
      intros s Hs. rewrite DarkSquares_spec by (apply Hok; exact Hs).
      rewrite (Hsame s b0 Hs (or_introl eq_refl)), Ed. reflexivity. }
  rewrite Hb. reflexivity.
Qed.

(** C3, as amended: once no draw is detected, [Endgame<KXK>] adds the
    [PushToCorners] term exactly when the strong side has exactly one bishop
    and exactly one knight, and the table is read at the weak king's square
    flipped precisely when the bishop sits on a light square; with the
    bishop on a dark square the table is read at the square itself. *)
Theorem KXK_corner_push (strongSide : Color) (pos : Position) :
  live pos ->
  KXK_stalemate strongSide pos = false ->
  KXK_same_bishops strongSide pos = false ->
  let loserKSq := square pos KING (Color_not strongSide) in
  let winnerKSq := square pos KING strongSide in
  let bishopSq := square pos BISHOP strongSide in
  exists edge close,
    lookup PushToEdges loserKSq = Some edge
    /\ lookup PushClose (distance winnerKSq loserKSq) = Some close
    /\ let base := VALUE_KNOWN_WIN
                   + Z.quot (non_pawn_material pos strongSide) 10
                   + edge + close in
       (count pos BISHOP strongSide = 1 /\ count pos KNIGHT strongSide = 1 ->
        exists corner,
          lookup PushToCorners (if dark_square bishopSq
                                then loserKSq
                                else Square_not loserKSq) = Some corner
          /\ KXK strongSide pos
             = Some (from_side_to_move strongSide pos (base + corner)))
       /\ (~ (count pos BISHOP strongSide = 1
              /\ count pos KNIGHT strongSide = 1) ->
           KXK strongSide pos = Some (from_side_to_move strongSide pos base)).
Proof.
  intros Hlive Hs Hb loserKSq winnerKSq bishopSq.
  pose proof (king_ok pos strongSide Hlive) as Hw.
  pose proof (king_ok pos (Color_not strongSide) Hlive) as Hl.
  destruct (PushToEdges_at_least_80 _ Hl) as (edge & He & _).
  destruct (PushClose_nonnegative _ (distance_range _ _ Hw Hl))
    as (close & Hc & _).
  exists edge, close. split; [exact He | split; [exact Hc |]].
  rewrite (KXK_unfold strongSide pos edge close Hs Hb He Hc). cbv zeta.
  unfold KXK_bishop_and_knight. split.
  - intros [HB HN]. rewrite HB, HN. simpl.
    assert (Hbok : is_ok bishopSq)
      by (apply square_ok; [apply Hlive | lia]).
    unfold bishopSq in *. rewrite (opposite_colors_A1 _ Hbok).
    fold loserKSq.
    destruct (dark_square (square pos BISHOP strongSide)); simpl.
    + destruct (PushToCorners_at_least_minus_50 _ Hl) as (corner & Hco & _).
      exists corner. fold loserKSq in Hco. rewrite Hco. now split.
    + destruct (PushToCorners_at_least_minus_50 _ (Square_not_ok _ Hl))
        as (corner & Hco & _).
      exists corner. fold loserKSq in Hco. rewrite Hco. now split.
  - intro Hnot.
    destruct (count pos BISHOP strongSide =? 1) eqn:EB;
      destruct (count pos KNIGHT strongSide =? 1) eqn:EN;
      try reflexivity.
    apply Z.eqb_eq in EB, EN. tauto.
Qed.

(** C10: when neither draw is detected, [Endgame<KXK>] returns a value whose
    magnitude exceeds [VALUE_KNOWN_WIN], wherever the two kings stand and
    whatever the non-negative non-pawn material of the strong side is, and
    the value is positive exactly when the strong side is to move. *)
Theorem KXK_beyond_known_win (strongSide : Color) (pos : Position) :
  0 <= VALUE_KNOWN_WIN ->
  live pos ->
  0 <= non_pawn_material pos strongSide ->
  KXK_stalemate strongSide pos = false ->
  KXK_same_bishops strongSide pos = false ->
  exists v, KXK strongSide pos = Some v
            /\ VALUE_KNOWN_WIN < Z.abs v
            /\ (0 < v <-> side_to_move pos = strongSide).
Proof.
  intros HK Hlive Hnpm Hs Hb.
  pose proof (king_ok pos strongSide Hlive) as Hw.
  pose proof (king_ok pos (Color_not strongSide) Hlive) as Hl.
  destruct (PushToEdges_at_least_80 _ Hl) as (edge & He & Hedge).
  destruct (PushClose_nonnegative _ (distance_range _ _ Hw Hl))
    as (close & Hc & Hclose).
  rewrite (KXK_unfold strongSide pos edge close Hs Hb He Hc). cbv zeta.
  assert (Hq : 0 <= Z.quot (non_pawn_material pos strongSide) 10)
    by (apply Z.quot_pos; lia).
  assert (Hsign : forall r, VALUE_KNOWN_WIN + 30 <= r ->
            VALUE_KNOWN_WIN < Z.abs (from_side_to_move strongSide pos r)
            /\ (0 < from_side_to_move strongSide pos r
                <-> side_to_move pos = strongSide)).
  { intros r Hr. unfold from_side_to_move.
    destruct (Color_eqb strongSide (side_to_move pos)) eqn:E.
    - apply Color_eqb_eq in E. split; [lia | split; [congruence | lia]].
    - split; [lia |]. split; [lia |].
      intro Heq. symmetry in Heq. apply Color_eqb_eq in Heq. congruence. }
  destruct (KXK_bishop_and_knight strongSide pos).
  - match goal with
    | |- context [lookup PushToCorners ?s] =>
        assert (Hcs : is_ok s)
          by (destruct (opposite_colors _ _); auto using Square_not_ok);
        destruct (PushToCorners_at_least_minus_50 s Hcs)
          as (corner & Hco & Hcor)
    end.
    rewrite Hco. simpl. eexists. split; [reflexivity |].
    apply Hsign. lia.
  - eexists. split; [reflexivity |]. apply Hsign. lia.
Qed.

End KXKProperties.

Lemma KXK_same_colored_bishops_draw_witness :
  KXK (K := engine_constants) (X := sample_collaborators)
      WHITE kbbk_dark_bishops = Some 0.
Proof.
  apply (KXK_same_colored_bishops_draw
           (K := engine_constants) (X := sample_collaborators)
           WHITE kbbk_dark_bishops); try reflexivity.
  - unfold kbbk_dark_bishops. simpl. unfold is_ok. intuition lia.
  - unfold kbbk_dark_bishops. simpl. intros b1 b2 [<- | [<- | []]] [<- | [<- | []]]; reflexivity.
Defined.

Lemma KXK_corner_push_witness :
  exists corner,
    lookup PushToCorners (square kbnk_dark_bishop KING BLACK) = Some corner
    /\ KXK (K := engine_constants) (X := sample_collaborators)
           WHITE kbnk_dark_bishop
       = Some (10000 + 165 + 400 + 400 + corner).
Proof.
  destruct (KXK_corner_push
              (K := engine_constants) (X := sample_collaborators)
              WHITE kbnk_dark_bishop)
    as (edge & close & He & Hc & Hyes & _).
  - unfold kbnk_dark_bishop. snapshot_live.
  - reflexivity.
  - reflexivity.
  - destruct Hyes as (corner & Hco & Hv); [split; reflexivity |].
    exists corner. split; [exact Hco |].
    vm_compute in He, Hc.
    injection He as <-. injection Hc as <-. exact Hv.
Defined.

(** C3, counterexample: with the bishop on the dark square c1 the table is
    read at the weak king's own square a8 (entry 100), not at the flipped
    square a1 (entry 800). *)
Lemma KXK_dark_bishop_not_flipped :
  dark_square (square kbnk_dark_bishop BISHOP WHITE) = true
  /\ lookup PushToCorners (square kbnk_dark_bishop KING BLACK) = Some 100
  /\ lookup PushToCorners (Square_not (square kbnk_dark_bishop KING BLACK))
     = Some 800
  /\ KXK (K := engine_constants) (X := sample_collaborators)
         WHITE kbnk_dark_bishop
     = Some (10000 + 165 + 400 + 400 + 100).
Proof. vm_compute. repeat split. Qed.

Lemma KXK_beyond_known_win_witness :
  exists v,
    KXK (K := engine_constants) (X := sample_collaborators)
        WHITE krk_weak_to_move = Some v
    /\ 10000 < Z.abs v
    /\ (0 < v <-> side_to_move krk_weak_to_move = WHITE).
Proof.
  apply (KXK_beyond_known_win
           (K := engine_constants) (X := sample_collaborators)
           WHITE krk_weak_to_move).
  - simpl. lia.
  - unfold krk_weak_to_move. snapshot_live.
  - simpl. lia.
  - reflexivity.
  - reflexivity.
Defined.

(** ** King and pawn against king *)

Section KPKProperties.

Context {K : Constants} {X : Collaborators}.

Lemma KPK_win_value_increasing (r1 r2 : Rank) :
  4 <= PawnValueEg -> r1 < r2 -> KPK_win_value r1 < KPK_win_value r2.
Proof.
  intros HP Hr. unfold KPK_win_value.
  assert (1 <= Z.quot PawnValueEg 4) by (apply Z.quot_le_lower_bound; lia).
  nia.
Qed.

Lemma KPK_win_value_positive (r : Rank) :
  4 <= PawnValueEg -> 7 * Z.quot PawnValueEg 4 < VALUE_KNOWN_WIN ->
  0 <= r <= 7 -> 0 < KPK_win_value r.
Proof.
  intros HP HK Hr. unfold KPK_win_value.
  assert (1 <= Z.quot PawnValueEg 4) by (apply Z.quot_le_lower_bound; lia).
  nia.
Qed.

(** [normalize], with its exclusive-or masks, computes the normalized square
    of the specification. *)
Lemma normalize_as_specified (pos : Position) (strongSide : Color)
    (s : Square) :
  is_ok s -> normalize pos strongSide s = normalized_square pos strongSide s.
Proof using Type.
  intro Hs. unfold normalize, normalized_square.
  destruct (FILE_E <=? file_of (square pos PAWN strongSide));
    destruct strongSide; cbn [Color_eqb].
  - apply Z.eqb_eq.
    exact (forall_squares
      (fun s => mirror_file s
                =? make_square (FILE_H - file_of s) (relative_rank WHITE s))
      eq_refl s Hs).
  - apply Z.eqb_eq.
    exact (forall_squares
      (fun s => Square_not (mirror_file s)
                =? make_square (FILE_H - file_of s) (relative_rank BLACK s))
      eq_refl s Hs).
  - apply Z.eqb_eq.
    exact (forall_squares
      (fun s => s =? make_square (file_of s) (relative_rank WHITE s))
      eq_refl s Hs).
  - apply Z.eqb_eq.
    exact (forall_squares
      (fun s => Square_not s
                =? make_square (file_of s) (relative_rank BLACK s))
      eq_refl s Hs).
Qed.

(** The normalized pawn: on its rank relative to the strong side, and on the
    left half of the board. *)
Lemma normalized_pawn (pos : Position) (strongSide : Color) :
  is_ok (square pos PAWN strongSide) ->
  rank_of (normalized_square pos strongSide (square pos PAWN strongSide))
  = relative_rank strongSide (square pos PAWN strongSide)
  /\ FILE_A
     <= file_of (normalized_square pos strongSide (square pos PAWN strongSide))
     <= FILE_D.
Proof using Type.
  intro Hs. unfold normalized_square.
  set (p := square pos PAWN strongSide) in *.
  destruct (FILE_E <=? file_of p) eqn:E; destruct strongSide.
  - pose proof (forall_squares
      (fun s => negb (FILE_E <=? file_of s)
                || ((rank_of (make_square (FILE_H - file_of s)
                                          (relative_rank WHITE s))
                     =? relative_rank WHITE s)
                    && (file_of (make_square (FILE_H - file_of s)
                                             (relative_rank WHITE s))
                        <=? FILE_D)))
      eq_refl p Hs) as H.
    cbv beta in H. rewrite E in H. cbn [negb orb] in H.
    apply andb_true_iff in H. destruct H as [H1 H2].
    apply Z.eqb_eq in H1. apply Z.leb_le in H2.
    pose proof (file_of_range
                  (make_square (FILE_H - file_of p) (relative_rank WHITE p))).
    unfold FILE_A. lia.
  - pose proof (forall_squares
      (fun s => negb (FILE_E <=? file_of s)
                || ((rank_of (make_square (FILE_H - file_of s)
                                          (relative_rank BLACK s))
                     =? relative_rank BLACK s)
                    && (file_of (make_square (FILE_H - file_of s)
                                             (relative_rank BLACK s))
                        <=? FILE_D)))
      eq_refl p Hs) as H.
    cbv beta in H. rewrite E in H. cbn [negb orb] in H.
    apply andb_true_iff in H. destruct H as [H1 H2].
    apply Z.eqb_eq in H1. apply Z.leb_le in H2.
    pose proof (file_of_range
                  (make_square (FILE_H - file_of p) (relative_rank BLACK p))).
    unfold FILE_A. lia.
  - pose proof (forall_squares
      (fun s => (FILE_E <=? file_of s)
                || ((rank_of (make_square (file_of s) (relative_rank WHITE s))
                     =? relative_rank WHITE s)
                    && (file_of (make_square (file_of s)
                                             (relative_rank WHITE s))
                        <=? FILE_D)))
      eq_refl p Hs) as H.
    cbv beta in H. rewrite E in H. cbn [orb] in H.
    apply andb_true_iff in H. destruct H as [H1 H2].
    apply Z.eqb_eq in H1. apply Z.leb_le in H2.
    pose proof (file_of_range
                  (make_square (file_of p) (relative_rank WHITE p))).
    unfold FILE_A. lia.
  - pose proof (forall_squares
      (fun s => (FILE_E <=? file_of s)
                || ((rank_of (make_square (file_of s) (relative_rank BLACK s))
                     =? relative_rank BLACK s)
                    && (file_of (make_square (file_of s)
                                             (relative_rank BLACK s))
                        <=? FILE_D)))
      eq_refl p Hs) as H.
    cbv beta in H. rewrite E in H. cbn [orb] in H.
    apply andb_true_iff in H. destruct H as [H1 H2].
    apply Z.eqb_eq in H1. apply Z.leb_le in H2.
    pose proof (file_of_range
                  (make_square (file_of p) (relative_rank BLACK p))).
    unfold FILE_A. lia.
Qed.

(** What [Endgame<KPK>] returns, with the squares and the rank of the
    specification in the place of those [normalize] computes. *)
Lemma KPK_as_specified (strongSide : Color) (pos : Position) :
  live pos ->
  count pos PAWN strongSide = 1 ->
  KPK strongSide pos
  = if negb (KPK_bitbase_wins strongSide pos) then VALUE_DRAW
    else if Color_eqb strongSide (side_to_move pos)
         then KPK_win_value
                (relative_rank strongSide (square pos PAWN strongSide))
         else - KPK_win_value
                  (relative_rank strongSide (square pos PAWN strongSide)).
Proof using Type.
  intros Hlive Hpawn.
  assert (Hp : is_ok (square pos PAWN strongSide))
    by (apply square_ok; [apply Hlive | lia]).
  unfold KPK, KPK_bitbase_wins. cbv zeta.
  rewrite !normalize_as_specified
    by first [exact Hp | apply king_ok, Hlive].
  rewrite (proj1 (normalized_pawn pos strongSide Hp)).
  reflexivity.
Qed.

(** C5: [Endgame<KPK>] returns [VALUE_DRAW] exactly when the bitbase, asked
    about the normalized squares of the strong king, the pawn and the weak
    king and the normalized side to move, reports no win; when it reports a
    win the value is [VALUE_KNOWN_WIN - PawnValueEg / 4 * (7 - rank)] for
    the rank of the normalized pawn, negated when the weak side is to move.
    The normalized pawn stands on the left half of the board, on the rank
    of the pawn relative to the strong side, so that of two won positions
    the one whose pawn has advanced farther has the strictly greater
    magnitude. *)
Theorem KPK_follows_bitbase (strongSide : Color) (pos : Position) :
  VALUE_DRAW = 0 ->
  4 <= PawnValueEg ->
  7 * Z.quot PawnValueEg 4 < VALUE_KNOWN_WIN ->
  live pos ->
  count pos PAWN strongSide = 1 ->
  let psq := normalized_square pos strongSide (square pos PAWN strongSide) in
  let advance (p : Position) :=
    relative_rank strongSide (square p PAWN strongSide) in
  let win := VALUE_KNOWN_WIN - Z.quot PawnValueEg 4 * (7 - rank_of psq) in
  (KPK strongSide pos = VALUE_DRAW
   <-> KPK_bitbase_wins strongSide pos = false)
  /\ (KPK_bitbase_wins strongSide pos = true ->
      KPK strongSide pos
      = if Color_eqb strongSide (side_to_move pos) then win else - win)
  /\ (rank_of psq = advance pos /\ FILE_A <= file_of psq <= FILE_D)
  /\ (forall pos' : Position,
        live pos' ->
        count pos' PAWN strongSide = 1 ->
        KPK_bitbase_wins strongSide pos = true ->
        KPK_bitbase_wins strongSide pos' = true ->
        advance pos < advance pos' ->
        Z.abs (KPK strongSide pos) < Z.abs (KPK strongSide pos')).
Proof.
  intros HD HP HK Hlive Hpawn psq advance win.
  subst advance. cbv beta.
  assert (Hok : forall p, live p -> count p PAWN strongSide = 1 ->
            is_ok (square p PAWN strongSide))
    by (intros p Hl Hc; apply square_ok; [apply Hl | lia]).
  destruct (normalized_pawn pos strongSide (Hok pos Hlive Hpawn))
    as [Hrank Hfile].
  fold psq in Hrank, Hfile.
  assert (Hmag : forall p, live p -> count p PAWN strongSide = 1 ->
            KPK_bitbase_wins strongSide p = true ->
            KPK strongSide p
            = (if Color_eqb strongSide (side_to_move p)
               then KPK_win_value (relative_rank strongSide (square p PAWN strongSide))
               else - KPK_win_value (relative_rank strongSide (square p PAWN strongSide)))
            /\ Z.abs (KPK strongSide p) = KPK_win_value (relative_rank strongSide (square p PAWN strongSide))).
  { intros p Hl Hc Hw.
    rewrite (KPK_as_specified strongSide p Hl Hc), Hw. cbn [negb].
    pose proof (KPK_win_value_positive (relative_rank strongSide (square p PAWN strongSide)) HP HK
                  (relative_rank_range strongSide _ (Hok p Hl Hc))) as Hpos.
    split; [reflexivity |].
    destruct (Color_eqb strongSide (side_to_move p)); lia. }
  split; [| split; [| split]].
  - rewrite (KPK_as_specified strongSide pos Hlive Hpawn).
    pose proof (KPK_win_value_positive (relative_rank strongSide (square pos PAWN strongSide)) HP HK
                  (relative_rank_range strongSide _ (Hok pos Hlive Hpawn)))
      as Hpos.
    destruct (KPK_bitbase_wins strongSide pos); cbn [negb].
    + split; [| discriminate].
      destruct (Color_eqb strongSide (side_to_move pos)); lia.
    + tauto.
  - intro Hw. rewrite (proj1 (Hmag pos Hlive Hpawn Hw)).
    unfold win. rewrite Hrank. reflexivity.
  - split; [exact Hrank | exact Hfile].
  - intros pos' Hlive' Hpawn' Hw Hw' Hadv.
    rewrite (proj2 (Hmag pos Hlive Hpawn Hw)).
    rewrite (proj2 (Hmag pos' Hlive' Hpawn' Hw')).
    apply KPK_win_value_increasing; assumption.
Qed.

End KPKProperties.

Lemma KPK_follows_bitbase_witness :
  (KPK (K := engine_constants) (X := sample_collaborators) WHITE kpk_e5 = 0
   <-> Sample.in_square 11 35 59 WHITE = false)
  /\ Z.abs (KPK (K := engine_constants) (X := sample_collaborators)
                BLACK (kpk_black_pawn 28))
     < Z.abs (KPK (K := engine_constants) (X := sample_collaborators)
                  BLACK (kpk_black_pawn 20)).
Proof.
  split.
  - apply (KPK_follows_bitbase
             (K := engine_constants) (X := sample_collaborators)
             WHITE kpk_e5).
    + reflexivity.
    + simpl. lia.
    + simpl. lia.
    + unfold kpk_e5. snapshot_live.
    + reflexivity.
  - apply (KPK_follows_bitbase
             (K := engine_constants) (X := sample_collaborators)
             BLACK (kpk_black_pawn 28)).
    + reflexivity.
    + simpl. lia.
    + simpl. lia.
    + unfold kpk_black_pawn. snapshot_live.
    + reflexivity.
    + unfold kpk_black_pawn. snapshot_live.
    + reflexivity.
    + reflexivity.
    + reflexivity.
    + vm_compute. reflexivity.
Defined.

(** A black pawn on e4 is worth 64 less than one on e3, a rank nearer to
    its queening square. *)
Example KPK_black_pawn_advances :
  KPK (K := engine_constants) (X := sample_collaborators)
      BLACK (kpk_black_pawn 28) = 10000 - 64 * 3
  /\ KPK (K := engine_constants) (X := sample_collaborators)
         BLACK (kpk_black_pawn 20) = 10000 - 64 * 2.
Proof. split; reflexivity. Qed.

(** ** Material signatures of endgame codes *)

Module SignatureFacts.

Import Signature.

Lemma find_from_none (ch : ascii) (s : string) :
  forall p, find_from ch p s = None
            <-> (forall i, (p <= i)%nat -> get i s <> Some ch).
Proof.
  induction s as [| c s IH]; intro p; simpl.
  - split; [intros _ i _; destruct i; discriminate | reflexivity].
  - destruct p as [| p].
    + destruct (Ascii.eqb_spec c ch) as [-> | Hne].
      * split; [discriminate |].
        intro H. exfalso. apply (H O); [lia | reflexivity].
      * destruct (find_from ch 0 s) eqn:E; simpl.
        -- split; [discriminate |]. intro H. exfalso.
           assert (Hnone : (None : option nat) = None) by reflexivity.
           assert (HE : find_from ch 0 s = None).
           { apply IH. intros i _. apply (H (S i)). lia. }
           congruence.
        -- split; [| reflexivity]. intros _ i _.
           destruct i as [| i]; simpl; [congruence |].
           apply (proj1 (IH O) E). lia.
    + destruct (find_from ch p s) eqn:E; simpl.
      * split; [discriminate |]. intro H. exfalso.
        assert (HE : find_from ch p s = None).
        { apply IH. intros i Hi. apply (H (S i)). lia. }
        congruence.
      * split; [| reflexivity]. intros _ i Hi.
        destruct i as [| i]; [lia |]. simpl.
        apply (proj1 (IH p) E). lia.
Qed.

Lemma find_from_some (ch : ascii) (s : string) :
  forall p i, find_from ch p s = Some i -> (i < String.length s)%nat.
Proof.
  induction s as [| c s IH]; intros p i; simpl; [discriminate |].
  destruct p as [| p].
  - destruct (Ascii.eqb c ch); [intros [= <-]; lia |].
    destruct (find_from ch 0 s) eqn:E; simpl; [| discriminate].
    intros [= <-]. apply IH in E. lia.
  - destruct (find_from ch p s) eqn:E; simpl; [| discriminate].
    intros [= <-]. apply IH in E. lia.
Qed.

Lemma occurrences_none (ch : ascii) (s : string) :
  occurrences ch s = O -> find_from ch 0 s = None.
Proof.
  induction s as [| c s IH]; simpl; [reflexivity |].
  destruct (Ascii.eqb c ch); [discriminate |].
  simpl. intro H. now rewrite IH.
Qed.

Lemma nth_occurrence_some (ch : ascii) (s : string) :
  forall n i, nth_occurrence ch n s = Some i ->
              (n <= i /\ i < String.length s)%nat.
Proof.
  induction s as [| c s IH]; intros n i; simpl; [discriminate |].
  destruct (Ascii.eqb c ch).
  - destruct n as [| n]; [intros [= <-]; lia |].
    destruct (nth_occurrence ch n s) eqn:E; simpl; [| discriminate].
    intros [= <-]. apply IH in E. lia.
  - destruct (nth_occurrence ch n s) eqn:E; simpl; [| discriminate].
    intros [= <-]. apply IH in E.
    (* the index moves past a character that is not [ch] *)
    destruct n; lia.
Qed.

Lemma nth_occurrence_none (ch : ascii) (s : string) :
  forall n, nth_occurrence ch n s = None -> (occurrences ch s <= n)%nat.
Proof.
  induction s as [| c s IH]; intro n; simpl; [lia |].
  destruct (Ascii.eqb c ch).
  - destruct n as [| n]; [discriminate |].
    destruct (nth_occurrence ch n s) eqn:E; simpl; [discriminate |].
    intros _. apply IH in E. lia.
  - destruct (nth_occurrence ch n s) eqn:E; simpl; [discriminate |].
    intros _. apply IH in E. lia.
Qed.

Lemma length_substring (s : string) :
  forall n m, (n + m <= String.length s)%nat ->
              String.length (substring n m s) = m.
Proof.
  induction s as [| c s IH]; intros n m H; simpl in *.
  - destruct n, m; simpl; lia.
  - destruct n as [| n].
    + destruct m as [| m]; simpl; [reflexivity |].
      rewrite IH; lia.
    + apply IH. lia.
Qed.

(** A code said to have an empty side has no second 'K'. *)
Lemma has_empty_side_missing_K (code : string) :
  has_empty_side code = true -> missing_second_K code = true.
Proof.
  unfold has_empty_side, missing_second_K, split_sides.
  destruct (nth_occurrence "K" 1 code) as [i |] eqn:E.
  - apply nth_occurrence_some in E. simpl fst. simpl snd.
    rewrite !length_substring by lia.
    intro H. apply orb_true_iff in H.
    destruct H as [H | H]; apply Nat.eqb_eq in H; lia.
  - intros _. apply nth_occurrence_none in E. apply Nat.ltb_lt. lia.
Qed.

Lemma forge_fen_failure (code : string) (c : Color) :
  (forge_fen code c = inl AssertionFailed
   <-> (String.length code = 0 \/ 8 <= String.length code
        \/ get 0 code <> Some "K"%char)%nat)
  /\ (forge_fen code c = inl OutOfRange
      <-> (0 < String.length code < 8 /\ get 0 code = Some "K"%char
           /\ forall i, 1 <= i -> get i code <> Some "K"%char)%nat).
Proof.
  unfold forge_fen.
  destruct ((0 <? String.length code) && (String.length code <? 8))%nat
    eqn:Elen; simpl.
  - apply andb_true_iff in Elen. destruct Elen as [E0 E8].
    apply Nat.ltb_lt in E0, E8.
    destruct (get 0 code) as [ch |] eqn:Eget.
    + destruct (Ascii.eqb_spec ch "K"%char) as [-> | Hne]; simpl.
      * destruct (find_from "K" 1 code) as [i |] eqn:Efind; simpl.
        -- pose proof (find_from_some _ _ _ _ Efind) as Hi.
           replace (i <=? String.length code)%nat with true
             by (symmetry; apply Nat.leb_le; lia).
           split; (split; [discriminate |]).
           ++ intros [H | [H | H]]; [lia | lia | congruence].
           ++ intros (_ & _ & H).
              apply find_from_none in H. congruence.
        -- split.
           ++ split; [discriminate |].
              intros [H | [H | H]]; [lia | lia | congruence].
           ++ split; [| reflexivity]. intros _.
              split; [lia | split; [reflexivity |]].
              now apply find_from_none.
      * split.
        -- split; [| reflexivity]. intros _. right. right. congruence.
        -- split; [discriminate |]. intros (_ & H & _). congruence.
    + split.
      * split; [| reflexivity]. intros _. right. right. congruence.
      * split; [discriminate |]. intros (_ & H & _). congruence.
  - split.
    + split; [| reflexivity]. intros _.
      apply andb_false_iff in Elen. destruct Elen as [E | E];
        apply Nat.ltb_ge in E; lia.
    + split; [discriminate |]. intros (H & _).
      apply andb_false_iff in Elen. destruct Elen as [E | E];
        apply Nat.ltb_ge in E; lia.
Qed.

Lemma forge_fen_total (code : string) (c : Color) :
  forge_fen code c = inl AssertionFailed
  \/ forge_fen code c = inl OutOfRange
  \/ exists fen, forge_fen code c = inr fen.
Proof.
  destruct (forge_fen code c) as [[|] | fen]; eauto.
Qed.

Lemma key_forge_fen {X : Collaborators} (code : string) (c : Color) :
  forall e, key code c = inl e <-> forge_fen code c = inl e.
Proof.
  intro e. unfold key. destruct (forge_fen code c); split; congruence.
Qed.

(** A code without a second 'K' is turned down. *)
Lemma missing_second_K_fails (code : string) (c : Color) :
  missing_second_K code = true -> exists e, forge_fen code c = inl e.
Proof.
  unfold missing_second_K. intro H. apply Nat.ltb_lt in H.
  destruct (forge_fen_total code c) as [E | [E | (fen & E)]]; eauto.
  exfalso.
  destruct (forge_fen_failure code c) as (HA & HO).
  destruct code as [| ch s].
  - assert (forge_fen ""%string c = inl AssertionFailed)
      by (apply HA; left; reflexivity).
    congruence.
  - destruct (Ascii.eqb_spec ch "K"%char) as [-> | Hne].
    + simpl in H.
      assert (Hocc : occurrences "K" s = O) by lia.
      apply occurrences_none in Hocc.
      destruct (Nat.lt_ge_cases (String.length (String "K" s)) 8) as [L | L].
      * assert (forge_fen (String "K" s) c = inl OutOfRange).
        { apply HO. split; [simpl in *; lia |]. split; [reflexivity |].
          apply find_from_none. simpl. now rewrite Hocc. }
        congruence.
      * assert (forge_fen (String "K" s) c = inl AssertionFailed)
          by (apply HA; right; left; exact L).
        congruence.
    + assert (forge_fen (String ch s) c = inl AssertionFailed).
      { apply HA. right. right. simpl. congruence. }
      congruence.
Qed.

Lemma construct_from {X : Collaborators}
    (regs : list (EndgameType.t * string)) :
  (forall reg c, In reg regs -> exists k, key (snd reg) c = inr k) ->
  forall m0, exists m,
    fold_left (fun acc reg =>
                 match acc with
                 | inl f => inl f
                 | inr m => add (fst reg) (snd reg) m
                 end) regs (inr m0) = inr m.
Proof.
  induction regs as [| reg regs IH]; intros Hkeys m0; simpl.
  - eauto.
  - destruct (Hkeys reg WHITE (or_introl eq_refl)) as (kw & Hw).
    destruct (Hkeys reg BLACK (or_introl eq_refl)) as (kb & Hb).
    unfold add at 2. rewrite Hw, Hb.
    apply IH. intros r c Hr. apply Hkeys. now right.
Qed.

End SignatureFacts.

Example forge_fen_KBPKN :
  Signature.forge_fen "KBPKN" WHITE
  = inr "kn6/8/8/8/8/8/8/KBP5 w - - 0 10"%string
  /\ Signature.forge_fen "KBPKN" BLACK
     = inr "KN6/8/8/8/8/8/8/kbp5 w - - 0 10"%string.
Proof. split; reflexivity. Qed.

(** C8, as amended: every malformed code -- one without a second 'K', one
    with an empty side, or one of length 8 or more -- makes [key] stop
    without a signature, but these are not the only codes that do.  [key]
    stops on an assertion exactly for the codes that are empty, have length
    8 or more, or do not begin with 'K', and on the out-of-range exception
    of [substr] exactly for the codes that pass the assertions and have no
    'K' after their first character; for each code of the registration
    table and both colours it produces a signature, and the construction of
    the registry goes through. *)
Theorem key_stops_without_signature {X : Collaborators} :
  (forall code c, Signature.malformed code = true ->
                  exists e, Signature.key code c = inl e)
  /\ (forall code c,
        (Signature.key code c = inl Signature.AssertionFailed
         <-> (String.length code = 0 \/ 8 <= String.length code
              \/ get 0 code <> Some "K"%char)%nat)
        /\ (Signature.key code c = inl Signature.OutOfRange
            <-> (0 < String.length code < 8
                 /\ get 0 code = Some "K"%char
                 /\ forall i, 1 <= i -> get i code <> Some "K"%char)%nat))
  /\ (forall e code c, In (e, code) Signature.registrations ->
                       exists k, Signature.key code c = inr k)
  /\ (exists m, Signature.construct = inr m).
Proof.
  assert (Hregs : forall reg c, In reg Signature.registrations ->
                    exists k, Signature.key (snd reg) c = inr k).
  { intros reg c Hin. unfold Signature.registrations in Hin.
    repeat (destruct Hin as [<- | Hin];
            [destruct c; eexists; reflexivity |]).
    destruct Hin. }
  split; [| split; [| split]].
  - intros code c Hm.
    assert (Hf : exists e, Signature.forge_fen code c = inl e).
    { unfold Signature.malformed in Hm.
      apply orb_true_iff in Hm. destruct Hm as [Hm | Hlen].
      - apply orb_true_iff in Hm. destruct Hm as [Hk | He].
        + now apply SignatureFacts.missing_second_K_fails.
        + apply SignatureFacts.missing_second_K_fails.
          now apply SignatureFacts.has_empty_side_missing_K.
      - exists Signature.AssertionFailed.
        apply SignatureFacts.forge_fen_failure.
        right. left. now apply Nat.leb_le in Hlen. }
    destruct Hf as (e & He). exists e.
    now apply SignatureFacts.key_forge_fen.
  - intros code c. rewrite !SignatureFacts.key_forge_fen.
    apply SignatureFacts.forge_fen_failure.
  - intros e code c Hin. apply (Hregs (e, code) c Hin).
  - apply SignatureFacts.construct_from. exact Hregs.
Qed.

(** C8, counterexample: the code "QKK" has a second 'K', no empty side and
    length 3, so it is none of the malformed codes listed, and [key] stops
    on it all the same, at the assertion that a code begins with 'K'. *)
Lemma key_stops_on_code_not_led_by_K :
  Signature.missing_second_K "QKK" = false
  /\ Signature.has_empty_side "QKK" = false
  /\ String.length "QKK" = 3%nat
  /\ Signature.malformed "QKK" = false
  /\ Signature.key (X := sample_collaborators) "QKK" WHITE
     = inl Signature.AssertionFailed
  /\ Signature.key (X := sample_collaborators) "QKK" BLACK
     = inl Signature.AssertionFailed.
Proof. repeat split. Qed.

(** ** The range of the scale factors *)

Section ScaleRange.

Context {K : Constants} {X : Collaborators}.

Hypothesis Hdraw : SCALE_FACTOR_DRAW = 0.
Hypothesis Hmax : 70 <= SCALE_FACTOR_MAX <= SCALE_FACTOR_NONE.
Hypothesis Hnone : 48 <= SCALE_FACTOR_NONE.

Lemma range_if (b : bool) (x y : ScaleFactor) :
  (b = true -> in_scale_range x) -> (b = false -> in_scale_range y) ->
  in_scale_range (if b then x else y).
Proof. destruct b; auto. Qed.

Lemma range_draw : in_scale_range SCALE_FACTOR_DRAW.
Proof. unfold in_scale_range. lia. Qed.

Lemma range_none : in_scale_range SCALE_FACTOR_NONE.
Proof. unfold in_scale_range. lia. Qed.

Lemma range_small (n : Z) : 0 <= n <= 48 -> in_scale_range n.
Proof. unfold in_scale_range. lia. Qed.

Ltac range_leaves :=
  repeat (apply range_if; intros _);
  first [ exact range_draw | exact range_none | apply range_small; lia ].

Lemma KBPsK_range (strongSide : Color) (pos : Position) :
  in_scale_range (KBPsK strongSide pos).
Proof using Hdraw Hmax Hnone. unfold KBPsK. cbv zeta. range_leaves. Qed.

Lemma KQKRPs_range (strongSide : Color) (pos : Position) :
  rule50_count pos <= 272 -> in_scale_range (KQKRPs strongSide pos).
Proof using Hdraw Hmax Hnone.
  intro Hr. unfold KQKRPs.
  apply range_if; intros _; [exact range_draw |].
  apply range_if; intro H14; [| exact range_none].
  apply Z.ltb_lt in H14. unfold KQKRPs_rule50_scale.
  replace (Z.quot (101 - rule50_count pos) 172) with 0.
  - apply range_small. lia.
  - symmetry.
    destruct (Z_le_gt_dec (rule50_count pos) 101) as [Hle | Hgt].
    + apply Z.quot_small. lia.
    + rewrite <- (Z.opp_involutive (101 - rule50_count pos)).
      rewrite Z.quot_opp_l by lia.
      rewrite Z.quot_small; lia.
Qed.

Lemma KRPKR_range (strongSide : Color) (pos : Position) :
  live pos -> count pos PAWN strongSide = 1 ->
  in_scale_range (KRPKR strongSide pos).
Proof using Hdraw Hmax Hnone.
  intros Hlive Hp. unfold KRPKR. cbv zeta.
  assert (Hwk : is_ok (normalize pos strongSide (square pos KING strongSide)))
    by (apply normalize_ok, king_ok, Hlive).
  assert (Hbk : is_ok (normalize pos strongSide
                         (square pos KING (Color_not strongSide))))
    by (apply normalize_ok, king_ok, Hlive).
  assert (Hwp : is_ok (normalize pos strongSide (square pos PAWN strongSide)))
    by (apply normalize_ok, square_ok; [apply Hlive | lia]).
  set (wksq := normalize pos strongSide (square pos KING strongSide)) in *.
  set (bksq := normalize pos strongSide
                 (square pos KING (Color_not strongSide))) in *.
  set (wpsq := normalize pos strongSide (square pos PAWN strongSide)) in *.
  pose proof (queening_square_ok wpsq) as Hq.
  pose proof (distance_range wksq _ Hwk Hq) as D1.
  pose proof (distance_range wpsq _ Hwp Hq) as D2.
  pose proof (distance_range wksq bksq Hwk Hbk) as D3.
  repeat (apply range_if; intros _);
    first [ exact range_draw | exact range_none
          | apply range_small; lia
          | unfold in_scale_range; lia ].
Qed.

Lemma KRPKB_range (strongSide : Color) (pos : Position) :
  in_scale_range (KRPKB strongSide pos).
Proof using Hdraw Hmax Hnone. unfold KRPKB. cbv zeta. range_leaves. Qed.

(** With every pawn on a relative rank from 2 to 7 and no strong pawn on
    its relative rank 7 left unpassed, the assertion of [Endgame<KRPPKRP>]
    holds whenever the table is read. *)
Lemma KRPPKRP_rank_asserted (strongSide : Color) (pos : Position) :
  count pos PAWN strongSide = 2 ->
  (forall c s, In s (pieceList pos c PAWN) ->
               RANK_2 <= relative_rank c s <= RANK_7) ->
  (forall s, In s (pieceList pos strongSide PAWN) ->
             relative_rank strongSide s = RANK_7 ->
             pawn_passed pos strongSide s = true) ->
  pawn_passed pos strongSide (squares pos PAWN strongSide 0)
  || pawn_passed pos strongSide (squares pos PAWN strongSide 1) = false ->
  RANK_1 < KRPPKRP_max_rank strongSide pos < RANK_7.
Proof using Type.
  intros Hcount Hranks Hseventh Hnp.
  apply orb_false_iff in Hnp. destruct Hnp as [Hp1 Hp2].
  assert (Hin : forall i, (i < 2)%nat ->
            In (squares pos PAWN strongSide i) (pieceList pos strongSide PAWN)).
  { intros i Hi. unfold squares. apply nth_In.
    unfold count in Hcount. lia. }
  pose proof (Hranks strongSide _ (Hin 0%nat ltac:(lia))) as R1.
  pose proof (Hranks strongSide _ (Hin 1%nat ltac:(lia))) as R2.
  unfold RANK_1, RANK_2, RANK_7 in *.
  split; [unfold KRPPKRP_max_rank; lia |].
  destruct (Z.eq_dec (relative_rank strongSide (squares pos PAWN strongSide 0)) 6)
    as [E1 | N1].
  - rewrite (Hseventh _ (Hin 0%nat ltac:(lia)) E1) in Hp1. discriminate.
  - destruct (Z.eq_dec
                (relative_rank strongSide (squares pos PAWN strongSide 1)) 6)
      as [E2 | N2].
    + rewrite (Hseventh _ (Hin 1%nat ltac:(lia)) E2) in Hp2. discriminate.
    + unfold KRPPKRP_max_rank. lia.
Qed.

Lemma KRPPKRP_range (strongSide : Color) (pos : Position) :
  count pos PAWN strongSide = 2 ->
  (forall c s, In s (pieceList pos c PAWN) ->
               RANK_2 <= relative_rank c s <= RANK_7) ->
  (forall s, In s (pieceList pos strongSide PAWN) ->
             relative_rank strongSide s = RANK_7 ->
             pawn_passed pos strongSide s = true) ->
  exists sf, KRPPKRP strongSide pos = Some sf /\ in_scale_range sf.
Proof using Hdraw Hmax Hnone.
  intros Hp Hranks Hseventh. unfold KRPPKRP. cbv zeta.
  destruct (pawn_passed pos strongSide (squares pos PAWN strongSide 0)
            || pawn_passed pos strongSide (squares pos PAWN strongSide 1))
    eqn:Hnp.
  - exists SCALE_FACTOR_NONE. split; [reflexivity | exact range_none].
  - pose proof (KRPPKRP_rank_asserted strongSide pos Hp Hranks Hseventh Hnp)
      as Hr.
    unfold KRPPKRP_max_rank in Hr.
    set (r := Z.max _ _) in *.
    match goal with
    | |- context [if ?b then if _ then _ else _ else _] => destruct b
    end.
    + replace ((RANK_1 <? r) && (r <? RANK_7)) with true
        by (symmetry; apply andb_true_iff; split; apply Z.ltb_lt; lia).
      unfold RANK_1, RANK_7 in Hr.
      assert (Hc : r = 1 \/ r = 2 \/ r = 3 \/ r = 4 \/ r = 5) by lia.
      destruct Hc as [-> | [-> | [-> | [-> | ->]]]];
        eexists; (split; [reflexivity | apply range_small; lia]).
    + exists SCALE_FACTOR_NONE. split; [reflexivity | exact range_none].
Qed.

Lemma KPsK_range (strongSide : Color) (pos : Position) :
  in_scale_range (KPsK strongSide pos).
Proof using Hdraw Hmax Hnone. unfold KPsK. cbv zeta. range_leaves. Qed.

Lemma KBPKB_range (strongSide : Color) (pos : Position) :
  in_scale_range (KBPKB strongSide pos).
Proof using Hdraw Hmax Hnone. unfold KBPKB. cbv zeta. range_leaves. Qed.

Lemma KBPPKB_range (strongSide : Color) (pos : Position) :
  in_scale_range (KBPPKB strongSide pos).
Proof using Hdraw Hmax Hnone.
  unfold KBPPKB. cbv zeta.
  apply range_if; intros _; [exact range_none |].
  destruct (relative_rank strongSide (squares pos PAWN strongSide 1)
            <? relative_rank strongSide (squares pos PAWN strongSide 0));
    destruct (distance_File (squares pos PAWN strongSide 0)
                            (squares pos PAWN strongSide 1))
      as [| [p | p |] | p];
    range_leaves.
Qed.

Lemma KBPKN_range (strongSide : Color) (pos : Position) :
  in_scale_range (KBPKN strongSide pos).
Proof using Hdraw Hmax Hnone. unfold KBPKN. cbv zeta. range_leaves. Qed.

Lemma KNPK_range (strongSide : Color) (pos : Position) :
  in_scale_range (KNPK strongSide pos).
Proof using Hdraw Hmax Hnone. unfold KNPK. cbv zeta. range_leaves. Qed.

Lemma KNPKB_range (strongSide : Color) (pos : Position) :
  live pos -> count pos PAWN strongSide = 1 ->
  in_scale_range (KNPKB strongSide pos).
Proof using Hdraw Hmax Hnone.
  intros Hlive Hp. unfold KNPKB. cbv zeta.
  assert (Hk : is_ok (square pos KING (Color_not strongSide)))
    by (apply king_ok, Hlive).
  assert (Hs : is_ok (square pos PAWN strongSide))
    by (apply square_ok; [apply Hlive | lia]).
  pose proof (distance_range _ _ Hk Hs) as D.
  apply range_if; intros _; [apply range_small; lia | exact range_none].
Qed.

End ScaleRange.

Lemma verify_material_count {K : Constants} (pos : Position) (c : Color)
    (npm : Value) (n : Z) :
  verify_material pos c npm n = true -> count pos PAWN c = n.
Proof.
  unfold verify_material. intro H. apply andb_true_iff in H.
  now apply Z.eqb_eq.
Qed.

(** C1, as amended: every scale evaluator -- KBPsK, KQKRPs, KRPKR, KRPKB,
    KRPPKRP, KPsK, KBPKB, KBPPKB, KBPKN, KNPK, KNPKB -- returns, on every
    live position with its material, a scale factor between 0 and the
    no-adjustment maximum [SCALE_FACTOR_NONE], provided, for KQKRPs, that
    the count of plies since the last pawn move or capture does not exceed
    272, and, for KRPPKRP, that every pawn stands on a relative rank from 2
    to 7 and a strong pawn on its relative rank 7 is passed, so that the
    assertion before the table is read holds.  The constants are those of
    the engine up to the three relations assumed of them. *)
Theorem scale_factor_in_range {K : Constants} {X : Collaborators}
    (e : EndgameType.t) (strongSide : Color) (pos : Position) :
  SCALE_FACTOR_DRAW = 0 ->
  70 <= SCALE_FACTOR_MAX <= SCALE_FACTOR_NONE ->
  48 <= SCALE_FACTOR_NONE ->
  EndgameType.is_scaling e = true ->
  live pos ->
  material_precondition e strongSide pos ->
  (e = EndgameType.KQKRPs -> rule50_count pos <= 272) ->
  (e = EndgameType.KRPPKRP ->
   (forall c s, In s (pieceList pos c PAWN) ->
                RANK_2 <= relative_rank c s <= RANK_7)
   /\ (forall s, In s (pieceList pos strongSide PAWN) ->
                 relative_rank strongSide s = RANK_7 ->
                 pawn_passed pos strongSide s = true)) ->
  exists sf, scale_factor e strongSide pos = Some sf
             /\ 0 <= sf <= SCALE_FACTOR_NONE.
Proof.
  intros Hdraw Hmax Hnone He Hlive Hmat H50 Hpawns.
  assert (Hsome : forall sf, in_scale_range sf ->
            exists sf', Some sf = Some sf' /\ 0 <= sf' <= SCALE_FACTOR_NONE)
    by (intros sf Hsf; exists sf; split; [reflexivity | exact Hsf]).
  destruct e; try discriminate He; simpl scale_factor;
    simpl material_precondition in Hmat.
  - apply Hsome, KBPsK_range; assumption.
  - apply Hsome, KQKRPs_range; auto.
  - destruct Hmat as [Hs _]. apply verify_material_count in Hs.
    apply Hsome, KRPKR_range; assumption.
  - apply Hsome, KRPKB_range; assumption.
  - destruct Hmat as [Hs _]. apply verify_material_count in Hs.
    destruct (Hpawns eq_refl) as [Hranks Hseventh].
    destruct (KRPPKRP_range Hdraw Hmax Hnone strongSide pos Hs Hranks Hseventh)
      as (sf & Hsf & Hr).
    exists sf. split; assumption.
  - apply Hsome, KPsK_range; assumption.
  - apply Hsome, KBPKB_range; assumption.
  - apply Hsome, KBPPKB_range; assumption.
  - apply Hsome, KBPKN_range; assumption.
  - apply Hsome, KNPK_range; assumption.
  - destruct Hmat as [Hs _]. apply verify_material_count in Hs.
    apply Hsome, KNPKB_range; assumption.
Qed.

Lemma scale_factor_in_range_witness :
  (exists sf,
     scale_factor (K := engine_constants) (X := sample_collaborators)
                  EndgameType.KRPKR WHITE krpkr_b7 = Some sf
     /\ 0 <= sf <= 255)
  /\ (exists sf,
        scale_factor (K := engine_constants) (X := sample_collaborators)
                     EndgameType.KRPPKRP WHITE krppkrp_blocked = Some sf
        /\ 0 <= sf <= 255).
Proof.
  split.
  - apply (scale_factor_in_range
             (K := engine_constants) (X := sample_collaborators)
             EndgameType.KRPKR WHITE krpkr_b7).
    + reflexivity.
    + simpl. lia.
    + simpl. lia.
    + reflexivity.
    + unfold krpkr_b7. snapshot_live.
    + split; reflexivity.
    + discriminate.
    + discriminate.
  - apply (scale_factor_in_range
             (K := engine_constants) (X := sample_collaborators)
             EndgameType.KRPPKRP WHITE krppkrp_blocked).
    + reflexivity.
    + simpl. lia.
    + simpl. lia.
    + reflexivity.
    + unfold krppkrp_blocked. snapshot_live.
    + split; reflexivity.
    + discriminate.
    + intros _. split.
      * unfold krppkrp_blocked.
        intros [|] s Hs; cbn in Hs;
          repeat (destruct Hs as [<- | Hs];
                  [vm_compute; intuition congruence |]);
          destruct Hs.
      * unfold krppkrp_blocked. intros s Hs; cbn in Hs.
        repeat (destruct Hs as [<- | Hs]; [vm_compute; intros; congruence |]).
        destruct Hs.
Defined.

Example KRPKR_b7_scale :
  scale_factor (K := engine_constants) (X := sample_collaborators)
               EndgameType.KRPKR WHITE krpkr_b7 = Some 124.
Proof. reflexivity. Qed.

(** C1, counterexample: with queen against rook and pawn, no fortress and
    273 plies since the last pawn move or capture, the evaluator returns
    the negative scale factor -64. *)
Lemma KQKRPs_negative_at_rule50_273 :
  live (kqkrp_a7 273)
  /\ material_precondition (K := engine_constants)
       EndgameType.KQKRPs WHITE (kqkrp_a7 273)
  /\ scale_factor (K := engine_constants) (X := sample_collaborators)
       EndgameType.KQKRPs WHITE (kqkrp_a7 273) = Some (-64)
  /\ ~ (0 <= -64).
Proof.
  split; [unfold kqkrp_a7; snapshot_live |].
  split; [cbn; repeat split; lia |].
  split; [reflexivity | lia].
Qed.

(** ** Queen against rook and pawns *)

Section KQKRPsProperties.

Context {K : Constants} {X : Collaborators}.

(** C2, as amended: without the fortress, [Endgame<KQKRPs>] returns
    [SCALE_FACTOR_NONE] up to a count of 14 plies; beyond, it returns
    exactly [SCALE_FACTOR_NORMAL] times the quotient of [101 - rule50] by
    172 truncated towards zero, as the source writes it.  As a function of
    the count this is a step function, not a linear one: it is 0 for every
    count from 15 to 272, and, for a [SCALE_FACTOR_NORMAL] that is not
    negative, it never grows with the count. *)
Theorem KQKRPs_rule50_scale_is_flat (strongSide : Color) (pos : Position) :
  KQKRPs_fortress strongSide pos = false ->
  (rule50_count pos <= 14 -> KQKRPs strongSide pos = SCALE_FACTOR_NONE)
  /\ (14 < rule50_count pos ->
      KQKRPs strongSide pos
      = SCALE_FACTOR_NORMAL * Z.quot (101 - rule50_count pos) 172)
  /\ (14 < rule50_count pos <= 272 -> KQKRPs strongSide pos = 0)
  /\ (forall pos' : Position,
        KQKRPs_fortress strongSide pos' = false ->
        0 <= SCALE_FACTOR_NORMAL ->
        14 < rule50_count pos <= rule50_count pos' ->
        KQKRPs strongSide pos' <= KQKRPs strongSide pos).
Proof.
  intro Hf.
  assert (Hbeyond : forall p, KQKRPs_fortress strongSide p = false ->
            14 < rule50_count p ->
            KQKRPs strongSide p
            = SCALE_FACTOR_NORMAL * Z.quot (101 - rule50_count p) 172).
  { intros p Hp H. unfold KQKRPs. rewrite Hp.
    replace (14 <? rule50_count p) with true
      by (symmetry; apply Z.ltb_lt; lia). reflexivity. }
  split; [| split; [| split]].
  - intro H. unfold KQKRPs. rewrite Hf.
    replace (14 <? rule50_count pos) with false
      by (symmetry; apply Z.ltb_ge; lia). reflexivity.
  - apply Hbeyond, Hf.
  - intros [H Hle]. rewrite (Hbeyond pos Hf H).
    replace (Z.quot (101 - rule50_count pos) 172) with 0; [lia |].
    symmetry.
    destruct (Z_le_gt_dec (rule50_count pos) 101) as [Hl | Hg].
    + apply Z.quot_small. lia.
    + rewrite <- (Z.opp_involutive (101 - rule50_count pos)).
      rewrite Z.quot_opp_l by lia.
      rewrite Z.quot_small; lia.
  - intros pos' Hf' Hn [H Hle].
    rewrite (Hbeyond pos Hf H), (Hbeyond pos' Hf') by lia.
    apply Z.mul_le_mono_nonneg_l; [exact Hn |].
    apply Z.quot_le_mono; lia.
Qed.

End KQKRPsProperties.

Lemma KQKRPs_rule50_scale_is_flat_witness :
  KQKRPs (K := engine_constants) (X := sample_collaborators)
         WHITE (kqkrp_a7 15) = 0
  /\ KQKRPs (K := engine_constants) (X := sample_collaborators)
            WHITE (kqkrp_a7 100) = 0
  /\ KQKRPs (K := engine_constants) (X := sample_collaborators)
            WHITE (kqkrp_a7 273)
     <= KQKRPs (K := engine_constants) (X := sample_collaborators)
               WHITE (kqkrp_a7 100).
Proof.
  split; [| split].
  - apply (KQKRPs_rule50_scale_is_flat
             (K := engine_constants) (X := sample_collaborators)
             WHITE (kqkrp_a7 15)); [reflexivity | simpl; lia].
  - apply (KQKRPs_rule50_scale_is_flat
             (K := engine_constants) (X := sample_collaborators)
             WHITE (kqkrp_a7 100)); [reflexivity | simpl; lia].
  - apply (KQKRPs_rule50_scale_is_flat
             (K := engine_constants) (X := sample_collaborators)
             WHITE (kqkrp_a7 100));
      [reflexivity | reflexivity | simpl; lia | simpl; lia].
Defined.

(** C2, counterexample: from 15 to 100 plies the factor returned is not a
    decreasing linear function of the count: it is 0 at 15 and still 0 at
    100, so no slope below zero fits. *)
Lemma KQKRPs_rule50_scale_not_linear :
  KQKRPs_fortress (X := sample_collaborators) WHITE (kqkrp_a7 15) = false
  /\ KQKRPs_fortress (X := sample_collaborators) WHITE (kqkrp_a7 100) = false
  /\ KQKRPs (K := engine_constants) (X := sample_collaborators)
            WHITE (kqkrp_a7 15) = 0
  /\ KQKRPs (K := engine_constants) (X := sample_collaborators)
            WHITE (kqkrp_a7 100) = 0
  /\ ~ (exists a b : Z,
          a < 0
          /\ forall n : Z, 14 < n <= 100 ->
               KQKRPs (K := engine_constants) (X := sample_collaborators)
                      WHITE (kqkrp_a7 n) = a * n + b).
Proof.
  repeat (split; [reflexivity |]).
  intros (a & b & Ha & H).
  pose proof (H 15 ltac:(lia)) as H15.
  pose proof (H 100 ltac:(lia)) as H100.
  change (0 = a * 15 + b) in H15.
  change (0 = a * 100 + b) in H100.
  lia.
Qed.

(** ** Rook and two pawns against rook and pawn *)

Section KRPPKRPProperties.

Context {K : Constants} {X : Collaborators}.

(** C9: when every pawn stands on a relative rank from 2 to 7 and a strong
    pawn on its relative rank 7 is passed, then, whenever [Endgame<KRPPKRP>]
    comes to read its table -- no strong pawn passed, the defending king
    within a file of both pawns and on a higher relative rank than both --
    the greater relative rank [r] of the two pawns satisfies
    [RANK_1 < r < RANK_7]; the read is within bounds and the factor
    returned is one of 9, 10, 14, 21 and 44. *)
Theorem KRPPKRP_table_read_in_bounds (strongSide : Color) (pos : Position) :
  count pos PAWN strongSide = 2 ->
  (forall c s, In s (pieceList pos c PAWN) ->
               RANK_2 <= relative_rank c s <= RANK_7) ->
  (forall s, In s (pieceList pos strongSide PAWN) ->
             relative_rank strongSide s = RANK_7 ->
             pawn_passed pos strongSide s = true) ->
  KRPPKRP_reads_table strongSide pos = true ->
  let r := KRPPKRP_max_rank strongSide pos in
  RANK_1 < r < RANK_7
  /\ exists sf, lookup KRPPKRPScaleFactors r = Some sf
                /\ KRPPKRP strongSide pos = Some sf
                /\ In sf [9; 10; 14; 21; 44].
Proof.
  intros Hcount Hranks Hseventh Hreads r.
  unfold KRPPKRP_reads_table in Hreads. cbv zeta in Hreads.
  apply andb_true_iff in Hreads. destruct Hreads as [Hnp Hnear].
  apply negb_true_iff in Hnp.
  pose proof (KRPPKRP_rank_asserted strongSide pos Hcount Hranks Hseventh Hnp)
    as Hr.
  fold r in Hr.
  split; [exact Hr |].
  assert (HK : KRPPKRP strongSide pos = lookup KRPPKRPScaleFactors r).
  { unfold KRPPKRP. cbv zeta. rewrite Hnp.
    unfold r, KRPPKRP_max_rank in *. rewrite Hnear.
    replace ((RANK_1 <? _) && (_ <? RANK_7)) with true; [reflexivity |].
    symmetry. apply andb_true_iff. split; apply Z.ltb_lt; lia. }
  rewrite HK.
  unfold RANK_1, RANK_7 in Hr.
  assert (Hc : r = 1 \/ r = 2 \/ r = 3 \/ r = 4 \/ r = 5) by lia.
  destruct Hc as [-> | [-> | [-> | [-> | ->]]]];
    eexists; (split; [reflexivity | split; [reflexivity | simpl; tauto]]).
Qed.

End KRPPKRPProperties.

Lemma KRPPKRP_table_read_in_bounds_witness :
  RANK_1 < 3 < RANK_7
  /\ exists sf, lookup KRPPKRPScaleFactors 3 = Some sf
                /\ KRPPKRP (K := engine_constants) (X := sample_collaborators)
                           WHITE krppkrp_blocked = Some sf
                /\ In sf [9; 10; 14; 21; 44].
Proof.
  apply (KRPPKRP_table_read_in_bounds
           (K := engine_constants) (X := sample_collaborators)
           WHITE krppkrp_blocked).
  - reflexivity.
  - unfold krppkrp_blocked.
    intros [|] s Hs; cbn in Hs;
      repeat (destruct Hs as [<- | Hs]; [vm_compute; intuition congruence |]);
      destruct Hs.
  - unfold krppkrp_blocked. intros s Hs; cbn in Hs.
    repeat (destruct Hs as [<- | Hs]; [vm_compute; intros; congruence |]).
    destruct Hs.
  - reflexivity.
Defined.

Example KRPPKRP_blocked_scale :
  KRPPKRP (K := engine_constants) (X := sample_collaborators)
          WHITE krppkrp_blocked = Some 14.
Proof. reflexivity. Qed.

(** With both strong pawns on the seventh rank held up by a pawn on the
    eighth, the table would be read at [RANK_7]: the assertion fails, and
    no scale factor is returned. *)
Example KRPPKRP_seventh_rank_asserts :
  live krppkrp_seventh
  /\ material_precondition (K := engine_constants)
       EndgameType.KRPPKRP WHITE krppkrp_seventh
  /\ KRPPKRP_reads_table (X := sample_collaborators)
       WHITE krppkrp_seventh = true
  /\ KRPPKRP_max_rank WHITE krppkrp_seventh = RANK_7
  /\ scale_factor (K := engine_constants) (X := sample_collaborators)
       EndgameType.KRPPKRP WHITE krppkrp_seventh = None.
Proof.
  split; [unfold krppkrp_seventh; snapshot_live |].
  split; [split; reflexivity |].
  repeat split.
Qed.

(** ** Remarks on the modelled board geometry *)

(** The set of dark squares is the constant the engine writes down. *)
Example DarkSquares_value : DarkSquares = 0xAA55AA55AA55AA55.
Proof. reflexivity. Qed.

(** [PushToCorners] is unchanged by the reflection through the centre of the
    board, whereas the rank flip carries the light corners a8 and h1, where
    the table is lowest, to the dark corners a1 and h8, where it is highest:
    only a flip that keeps the file can steer the king to a corner of the
    other colour. *)
Lemma PushToCorners_point_symmetric (s : Square) :
  is_ok s -> lookup PushToCorners (63 - s) = lookup PushToCorners s.
Proof.
  intro Hs.
  pose proof (forall_squares
    (fun s => match lookup PushToCorners (63 - s), lookup PushToCorners s with
              | Some a, Some b => a =? b
              | _, _ => false
              end) eq_refl s Hs) as H.
  cbv beta in H.
  destruct (lookup PushToCorners (63 - s)) as [a |],
           (lookup PushToCorners s) as [b |]; try discriminate.
  apply Z.eqb_eq in H. now subst.
Qed.

Example PushToCorners_rank_flip :
  lookup PushToCorners SQ_A8 = Some 100
  /\ lookup PushToCorners (Square_not SQ_A8) = Some 800
  /\ lookup PushToCorners SQ_H1 = Some 100
  /\ lookup PushToCorners (Square_not SQ_H1) = Some 800.
Proof. repeat split. Qed.

(** * Further properties of the code *)

(** ** What the normalizer keeps *)

Section NormalizerGeometry.

Lemma mirror_file_file (s : Square) :
  is_ok s -> file_of (mirror_file s) = 7 - file_of s.
Proof.
  intro Hs.
  pose proof (forall_squares
    (fun s => file_of (mirror_file s) =? 7 - file_of s) eq_refl s Hs) as H.
  now apply Z.eqb_eq in H.
Qed.

Lemma mirror_file_rank (s : Square) :
  is_ok s -> rank_of (mirror_file s) = rank_of s.
Proof.
  intro Hs.
  pose proof (forall_squares
    (fun s => rank_of (mirror_file s) =? rank_of s) eq_refl s Hs) as H.
  now apply Z.eqb_eq in H.
Qed.

Lemma Square_not_rank (s : Square) :
  is_ok s -> rank_of (Square_not s) = 7 - rank_of s.
Proof.
  intro Hs.
  pose proof (forall_squares
    (fun s => rank_of (Square_not s) =? 7 - rank_of s) eq_refl s Hs) as H.
  now apply Z.eqb_eq in H.
Qed.

Lemma distance_int_reflect (x y : Z) :
  distance_int (7 - x) (7 - y) = distance_int x y.
Proof.
  unfold distance_int.
  destruct (7 - x <? 7 - y) eqn:E1; destruct (x <? y) eqn:E2; lia.
Qed.

Lemma mirror_file_distances (a b : Square) :
  is_ok a -> is_ok b ->
  distance_File (mirror_file a) (mirror_file b) = distance_File a b
  /\ distance_Rank (mirror_file a) (mirror_file b) = distance_Rank a b.
Proof.
  intros Ha Hb. unfold distance_File, distance_Rank.
  rewrite !mirror_file_file, !mirror_file_rank by assumption.
  now rewrite distance_int_reflect.
Qed.

Lemma Square_not_distances (a b : Square) :
  is_ok a -> is_ok b ->
  distance_File (Square_not a) (Square_not b) = distance_File a b
  /\ distance_Rank (Square_not a) (Square_not b) = distance_Rank a b.
Proof.
  intros Ha Hb. unfold distance_File, distance_Rank.
  rewrite !Square_not_file, !Square_not_rank by assumption.
  now rewrite distance_int_reflect.
Qed.

Lemma opposite_colors_lxor (a b m : Z) :
  opposite_colors (Z.lxor a m) (Z.lxor b m) = opposite_colors a b.
Proof.
  unfold opposite_colors.
  replace (Z.lxor (Z.lxor a m) (Z.lxor b m)) with (Z.lxor a b);
    [reflexivity |].
  rewrite (Z.lxor_comm b m), Z.lxor_assoc, <- (Z.lxor_assoc m m b).
  now rewrite Z.lxor_nilpotent, Z.lxor_0_l.
Qed.

(** The normalized pawn stands on the left half of the board: after
    [normalize] the only pawn of the strong side is on one of the files A
    to D, whichever file and colour it had. *)
Theorem normalize_pawn_on_left_half (pos : Position) (strongSide : Color) :
  on_board pos ->
  count pos PAWN strongSide = 1 ->
  FILE_A <= file_of (normalize pos strongSide (square pos PAWN strongSide))
         <= FILE_D.
Proof.
  intros Hboard Hp.
  assert (Hs : is_ok (square pos PAWN strongSide))
    by (apply square_ok; [exact Hboard | lia]).
  pose proof (file_of_range (square pos PAWN strongSide)) as Hf.
  unfold normalize, FILE_A, FILE_D, FILE_E in *.
  destruct (4 <=? file_of (square pos PAWN strongSide)) eqn:E.
  - apply Z.leb_le in E.
    destruct (Color_eqb strongSide BLACK).
    + rewrite Square_not_file by (apply mirror_file_ok; exact Hs).
      rewrite mirror_file_file by exact Hs. lia.
    + rewrite mirror_file_file by exact Hs. lia.
  - apply Z.leb_gt in E.
    destruct (Color_eqb strongSide BLACK).
    + rewrite Square_not_file by exact Hs. lia.
    + lia.
Qed.

Lemma normalize_distances (pos : Position) (strongSide : Color)
    (a b : Square) :
  is_ok a -> is_ok b ->
  distance (normalize pos strongSide a) (normalize pos strongSide b)
  = distance a b
  /\ distance_File (normalize pos strongSide a) (normalize pos strongSide b)
     = distance_File a b
  /\ distance_Rank (normalize pos strongSide a) (normalize pos strongSide b)
     = distance_Rank a b
  /\ opposite_colors (normalize pos strongSide a) (normalize pos strongSide b)
     = opposite_colors a b.
Proof.
  intros Ha Hb.
  assert (HFR :
    distance_File (normalize pos strongSide a) (normalize pos strongSide b)
    = distance_File a b
    /\ distance_Rank (normalize pos strongSide a) (normalize pos strongSide b)
       = distance_Rank a b).
  { unfold normalize.
    destruct (FILE_E <=? file_of (square pos PAWN strongSide));
      destruct (Color_eqb strongSide BLACK).
    - destruct (Square_not_distances (mirror_file a) (mirror_file b))
        as [H1 H2]; try (apply mirror_file_ok; assumption).
      destruct (mirror_file_distances a b Ha Hb) as [H3 H4].
      split; congruence.
    - now apply mirror_file_distances.
    - now apply Square_not_distances.
    - split; reflexivity. }
  destruct HFR as [HF HR].
  split; [unfold distance; now rewrite HF, HR |].
  split; [exact HF |]. split; [exact HR |].
  unfold normalize.
  destruct (FILE_E <=? file_of (square pos PAWN strongSide));
    destruct (Color_eqb strongSide BLACK);
    unfold mirror_file, Square_not;
    rewrite ?opposite_colors_lxor; reflexivity.
Qed.

Lemma normalize_rank (pos : Position) (strongSide : Color)
    (s : Square) :
  is_ok s ->
  rank_of (normalize pos strongSide s) = relative_rank strongSide s.
Proof.
  intro Hs.
  assert (Hrel : forall c, rank_of (if Color_eqb c BLACK
                                    then Square_not s else s)
                           = relative_rank c s).
  { intros [|]; simpl.
    - unfold relative_rank, relative_rank_r. simpl.
      now rewrite Z.lxor_0_r.
    - rewrite Square_not_rank by exact Hs.
      pose proof (forall_squares
        (fun s => relative_rank BLACK s =? 7 - rank_of s) eq_refl s Hs) as H.
      apply Z.eqb_eq in H. now rewrite H. }
  unfold normalize.
  destruct (FILE_E <=? file_of (square pos PAWN strongSide)).
  - destruct strongSide; simpl.
    + rewrite mirror_file_rank by exact Hs.
      apply (Hrel WHITE).
    + rewrite Square_not_rank by (apply mirror_file_ok; exact Hs).
      rewrite mirror_file_rank by exact Hs.
      specialize (Hrel BLACK). simpl in Hrel.
      rewrite <- Hrel. now rewrite Square_not_rank.
  - apply Hrel.
Qed.

(** [normalize] keeps the geometry between squares: the Chebyshev, file and
    rank distances of two squares of the board are those of their images,
    and so is the answer to whether they have opposite colours. *)
Theorem normalize_keeps_distances (pos : Position) (strongSide : Color)
    (a b : Square) :
  is_ok a -> is_ok b ->
  distance (normalize pos strongSide a) (normalize pos strongSide b)
  = distance a b
  /\ distance_File (normalize pos strongSide a) (normalize pos strongSide b)
     = distance_File a b
  /\ distance_Rank (normalize pos strongSide a) (normalize pos strongSide b)
     = distance_Rank a b
  /\ opposite_colors (normalize pos strongSide a) (normalize pos strongSide b)
     = opposite_colors a b.
Proof. apply normalize_distances. Qed.

(** [normalize] shows the board from the strong side: the rank of the image
    of a square is the rank of the square relative to the strong side. *)
Theorem normalize_rank_is_relative_rank (pos : Position) (strongSide : Color)
    (s : Square) :
  is_ok s ->
  rank_of (normalize pos strongSide s) = relative_rank strongSide s.
Proof. apply normalize_rank. Qed.

End NormalizerGeometry.

Lemma normalize_pawn_on_left_half_witness :
  FILE_A <= file_of (normalize knpk_black_a2 BLACK
                       (square knpk_black_a2 PAWN BLACK)) <= FILE_D.
Proof.
  apply (normalize_pawn_on_left_half knpk_black_a2 BLACK).
  - unfold knpk_black_a2. intros [|] [| | | | |] s Hs; cbn in Hs;
      unfold is_ok; intuition lia.
  - reflexivity.
Defined.

Lemma normalize_keeps_distances_witness :
  distance (normalize kpk_e5 WHITE 12) (normalize kpk_e5 WHITE 60)
  = distance 12 60
  /\ distance_File (normalize kpk_e5 WHITE 12) (normalize kpk_e5 WHITE 60)
     = distance_File 12 60
  /\ distance_Rank (normalize kpk_e5 WHITE 12) (normalize kpk_e5 WHITE 60)
     = distance_Rank 12 60
  /\ opposite_colors (normalize kpk_e5 WHITE 12) (normalize kpk_e5 WHITE 60)
     = opposite_colors 12 60.
Proof.
  apply (normalize_keeps_distances kpk_e5 WHITE 12 60); unfold is_ok; lia.
Defined.

Lemma normalize_rank_is_relative_rank_witness :
  rank_of (normalize knpk_black_a2 BLACK 8) = relative_rank BLACK 8.
Proof.
  apply (normalize_rank_is_relative_rank knpk_black_a2 BLACK 8).
  unfold is_ok. lia.
Defined.

(** ** Board symmetries and the evaluators that normalize *)

Section Symmetries.

Lemma Color_not_involutive (c : Color) : Color_not (Color_not c) = c.
Proof. now destruct c. Qed.

Lemma Color_eqb_not (a b : Color) :
  Color_eqb (Color_not a) (Color_not b) = Color_eqb a b.
Proof. now destruct a, b. Qed.

Lemma square_map_position (f : Square -> Square) (pos : Position)
    (pt : PieceType) (c : Color) :
  0 < count pos pt c ->
  square (map_position f pos) pt c = f (square pos pt c).
Proof.
  unfold count, square, squares. simpl.
  destruct (pieceList pos c pt); simpl; [lia | reflexivity].
Qed.

Lemma square_swap_colors (pos : Position) (pt : PieceType) (c : Color) :
  0 < count pos pt c ->
  square (swap_colors pos) pt (Color_not c) = Square_not (square pos pt c).
Proof.
  unfold count, square, squares. simpl. rewrite Color_not_involutive.
  destruct (pieceList pos c pt); simpl; [lia | reflexivity].
Qed.

Lemma normalize_mirror_position (pos : Position) (c : Color) (s : Square) :
  on_board pos -> count pos PAWN c = 1 ->
  normalize (mirror_position pos) c (mirror_file s) = normalize pos c s.
Proof.
  intros Hboard Hp.
  assert (Hs : is_ok (square pos PAWN c))
    by (apply square_ok; [exact Hboard | lia]).
  pose proof (file_of_range (square pos PAWN c)) as Hf.
  unfold normalize, mirror_position.
  rewrite square_map_position by lia.
  rewrite mirror_file_file by exact Hs. unfold FILE_E.
  destruct (4 <=? file_of (square pos PAWN c)) eqn:E.
  - apply Z.leb_le in E.
    replace (4 <=? 7 - file_of (square pos PAWN c)) with false
      by (symmetry; apply Z.leb_gt; lia).
    reflexivity.
  - apply Z.leb_gt in E.
    replace (4 <=? 7 - file_of (square pos PAWN c)) with true
      by (symmetry; apply Z.leb_le; lia).
    now rewrite mirror_file_involutive.
Qed.

Lemma mirror_Square_not (s : Square) :
  mirror_file (Square_not s) = Square_not (mirror_file s).
Proof.
  unfold mirror_file, Square_not.
  now rewrite !Z.lxor_assoc, (Z.lxor_comm SQ_A8 7).
Qed.

Lemma normalize_swap_colors (pos : Position) (c : Color) (s : Square) :
  on_board pos -> count pos PAWN c = 1 ->
  normalize (swap_colors pos) (Color_not c) (Square_not s)
  = normalize pos c s.
Proof.
  intros Hboard Hp.
  assert (Hs : is_ok (square pos PAWN c))
    by (apply square_ok; [exact Hboard | lia]).
  unfold normalize.
  rewrite square_swap_colors by lia.
  rewrite Square_not_file by exact Hs.
  destruct (FILE_E <=? file_of (square pos PAWN c)); destruct c; simpl;
    rewrite ?mirror_Square_not, ?Square_not_involutive; reflexivity.
Qed.

Context {K : Constants} {X : Collaborators}.

(** [Endgame<KPK>] does not tell a position from its mirror image, nor from
    the position with the colours exchanged: the bitbase is asked about the
    same normalized squares and the same side to move. *)
Theorem KPK_board_symmetric (strongSide : Color) (pos : Position) :
  live pos ->
  count pos PAWN strongSide = 1 ->
  KPK strongSide (mirror_position pos) = KPK strongSide pos
  /\ KPK (Color_not strongSide) (swap_colors pos) = KPK strongSide pos.
Proof.
  intros Hlive Hp.
  assert (Hboard : on_board pos) by apply Hlive.
  assert (Hk : forall c, 0 < count pos KING c)
    by (intros [|]; destruct Hlive as (_ & Hw & Hb); lia).
  split.
  - unfold KPK. cbv zeta.
    replace (side_to_move (mirror_position pos)) with (side_to_move pos)
      by reflexivity.
    assert (Hn : forall pt c, 0 < count pos pt c ->
              normalize (mirror_position pos) strongSide
                        (square (mirror_position pos) pt c)
              = normalize pos strongSide (square pos pt c)).
    { intros pt c Hc. unfold mirror_position at 2.
      rewrite square_map_position by exact Hc.
      now apply normalize_mirror_position. }
    rewrite !Hn by (try apply Hk; lia).
    reflexivity.
  - unfold KPK. cbv zeta. rewrite Color_not_involutive.
    assert (Hn : forall pt c, 0 < count pos pt c ->
              normalize (swap_colors pos) (Color_not strongSide)
                        (square (swap_colors pos) pt (Color_not c))
              = normalize pos strongSide (square pos pt c)).
    { intros pt c Hc. rewrite square_swap_colors by exact Hc.
      now apply normalize_swap_colors. }
    rewrite (Hn KING strongSide), (Hn PAWN strongSide)
      by (try apply Hk; lia).
    pose proof (Hn KING (Color_not strongSide) (Hk _)) as HnK.
    rewrite Color_not_involutive in HnK. rewrite HnK.
    simpl side_to_move. rewrite Color_eqb_not.
    reflexivity.
Qed.

(** [Endgame<KRPKR>] does not tell a position from its mirror image, nor
    from the position with the colours exchanged. *)
Theorem KRPKR_board_symmetric (strongSide : Color) (pos : Position) :
  live pos ->
  count pos PAWN strongSide = 1 ->
  count pos ROOK strongSide = 1 ->
  count pos ROOK (Color_not strongSide) = 1 ->
  KRPKR strongSide (mirror_position pos) = KRPKR strongSide pos
  /\ KRPKR (Color_not strongSide) (swap_colors pos) = KRPKR strongSide pos.
Proof.
  intros Hlive Hp Hr Hr'.
  assert (Hboard : on_board pos) by apply Hlive.
  assert (Hk : forall c, 0 < count pos KING c)
    by (intros [|]; destruct Hlive as (_ & Hw & Hb); lia).
  split.
  - unfold KRPKR. cbv zeta.
    replace (side_to_move (mirror_position pos)) with (side_to_move pos)
      by reflexivity.
    assert (Hn : forall pt c, 0 < count pos pt c ->
              normalize (mirror_position pos) strongSide
                        (square (mirror_position pos) pt c)
              = normalize pos strongSide (square pos pt c)).
    { intros pt c Hc. unfold mirror_position at 2.
      rewrite square_map_position by exact Hc.
      now apply normalize_mirror_position. }
    rewrite !Hn by (try apply Hk; lia).
    reflexivity.
  - unfold KRPKR. cbv zeta. rewrite Color_not_involutive.
    assert (Hn : forall pt c, 0 < count pos pt c ->
              normalize (swap_colors pos) (Color_not strongSide)
                        (square (swap_colors pos) pt (Color_not c))
              = normalize pos strongSide (square pos pt c)).
    { intros pt c Hc. rewrite square_swap_colors by exact Hc.
      now apply normalize_swap_colors. }
    rewrite (Hn KING strongSide), (Hn ROOK strongSide), (Hn PAWN strongSide)
      by (try apply Hk; lia).
    pose proof (Hn KING (Color_not strongSide) (Hk _)) as HnK.
    pose proof (Hn ROOK (Color_not strongSide) ltac:(lia)) as HnR.
    rewrite Color_not_involutive in HnK, HnR. rewrite HnK, HnR.
    simpl side_to_move. rewrite Color_eqb_not.
    reflexivity.
Qed.

(** [Endgame<KNPK>] does not tell a position from its mirror image, nor
    from the position with the colours exchanged. *)
Theorem KNPK_board_symmetric (strongSide : Color) (pos : Position) :
  live pos ->
  count pos PAWN strongSide = 1 ->
  count pos KNIGHT strongSide = 1 ->
  KNPK strongSide (mirror_position pos) = KNPK strongSide pos
  /\ KNPK (Color_not strongSide) (swap_colors pos) = KNPK strongSide pos.
Proof.
  intros Hlive Hp Hn'.
  assert (Hboard : on_board pos) by apply Hlive.
  assert (Hk : forall c, 0 < count pos KING c)
    by (intros [|]; destruct Hlive as (_ & Hw & Hb); lia).
  split.
  - unfold KNPK. cbv zeta.
    replace (side_to_move (mirror_position pos)) with (side_to_move pos)
      by reflexivity.
    assert (Hn : forall pt c, 0 < count pos pt c ->
              normalize (mirror_position pos) strongSide
                        (square (mirror_position pos) pt c)
              = normalize pos strongSide (square pos pt c)).
    { intros pt c Hc. unfold mirror_position at 2.
      rewrite square_map_position by exact Hc.
      now apply normalize_mirror_position. }
    rewrite !Hn by (try apply Hk; lia).
    reflexivity.
  - unfold KNPK. cbv zeta. rewrite Color_not_involutive.
    assert (Hn : forall pt c, 0 < count pos pt c ->
              normalize (swap_colors pos) (Color_not strongSide)
                        (square (swap_colors pos) pt (Color_not c))
              = normalize pos strongSide (square pos pt c)).
    { intros pt c Hc. rewrite square_swap_colors by exact Hc.
      now apply normalize_swap_colors. }
    rewrite (Hn KING strongSide), (Hn KNIGHT strongSide),
      (Hn PAWN strongSide) by (try apply Hk; lia).
    pose proof (Hn KING (Color_not strongSide) (Hk _)) as HnK.
    rewrite Color_not_involutive in HnK. rewrite HnK.
    simpl side_to_move. rewrite Color_eqb_not.
    reflexivity.
Qed.

End Symmetries.

Lemma KPK_board_symmetric_witness :
  KPK (K := engine_constants) (X := sample_collaborators)
      WHITE (mirror_position kpk_e5)
  = KPK (K := engine_constants) (X := sample_collaborators) WHITE kpk_e5
  /\ KPK (K := engine_constants) (X := sample_collaborators)
         BLACK (swap_colors kpk_e5)
     = KPK (K := engine_constants) (X := sample_collaborators) WHITE kpk_e5.
Proof.
  apply (KPK_board_symmetric (K := engine_constants)
           (X := sample_collaborators) WHITE kpk_e5).
  - unfold kpk_e5. snapshot_live.
  - reflexivity.
Defined.

Lemma KRPKR_board_symmetric_witness :
  KRPKR (K := engine_constants) WHITE (mirror_position krpkr_b7)
  = KRPKR (K := engine_constants) WHITE krpkr_b7
  /\ KRPKR (K := engine_constants) BLACK (swap_colors krpkr_b7)
     = KRPKR (K := engine_constants) WHITE krpkr_b7.
Proof.
  apply (KRPKR_board_symmetric (K := engine_constants) WHITE krpkr_b7).
  - unfold krpkr_b7. snapshot_live.
  - reflexivity.
  - reflexivity.
  - reflexivity.
Defined.

Lemma KNPK_board_symmetric_witness :
  KNPK (K := engine_constants) BLACK (mirror_position knpk_black_a2)
  = KNPK (K := engine_constants) BLACK knpk_black_a2
  /\ KNPK (K := engine_constants) WHITE (swap_colors knpk_black_a2)
     = KNPK (K := engine_constants) BLACK knpk_black_a2.
Proof.
  apply (KNPK_board_symmetric (K := engine_constants) BLACK knpk_black_a2).
  - unfold knpk_black_a2. snapshot_live.
  - reflexivity.
  - reflexivity.
Defined.

Example KNPK_black_a2_draw :
  KNPK (K := engine_constants) BLACK knpk_black_a2 = 0.
Proof. reflexivity. Qed.

(** ** The side to move and the sign of the score *)

Section KXKSideToMove.

Context {K : Constants} {X : Collaborators}.

(** Handing the move to the other side negates the score of
    [Endgame<KXK>], as long as the lone king is not stalemated when it is
    its turn: the evaluation itself does not depend on the side to move. *)
Theorem KXK_negated_when_move_passes (strongSide : Color) (pos : Position) :
  VALUE_DRAW = 0 ->
  KXK_stalemate strongSide pos = false ->
  KXK_stalemate strongSide (pass_move pos) = false ->
  KXK strongSide (pass_move pos) = option_map Z.opp (KXK strongSide pos).
Proof.
  intros HD Hs Hs'. unfold KXK. rewrite Hs, Hs'.
  replace (KXK_same_bishops strongSide (pass_move pos))
    with (KXK_same_bishops strongSide pos) by reflexivity.
  destruct (KXK_same_bishops strongSide pos).
  - simpl. now rewrite HD.
  - cbv zeta.
    replace (square (pass_move pos)) with (square pos) by reflexivity.
    replace (non_pawn_material (pass_move pos))
      with (non_pawn_material pos) by reflexivity.
    replace (KXK_bishop_and_knight strongSide (pass_move pos))
      with (KXK_bishop_and_knight strongSide pos) by reflexivity.
    destruct (lookup PushToEdges _) as [edge |]; [| reflexivity].
    destruct (lookup PushClose _) as [close |]; [| reflexivity].
    simpl obind.
    match goal with
    | |- obind ?m _ = option_map _ (obind ?m _) =>
        destruct m as [r |]; [| reflexivity]
    end.
    simpl. f_equal.
    destruct strongSide, (side_to_move pos); simpl; lia.
Qed.

End KXKSideToMove.

Lemma KXK_negated_when_move_passes_witness :
  KXK (K := engine_constants) (X := sample_collaborators)
      WHITE (pass_move krk_weak_to_move)
  = option_map Z.opp
      (KXK (K := engine_constants) (X := sample_collaborators)
           WHITE krk_weak_to_move).
Proof.
  apply (KXK_negated_when_move_passes
           (K := engine_constants) (X := sample_collaborators)
           WHITE krk_weak_to_move); reflexivity.
Defined.

(** ** Rook against pawn, queen against pawn *)

Section PawnEndgameProperties.

Context {K : Constants} {V : EndgameValues}.

Lemma relative_square_ok (c : Color) (s : Square) :
  is_ok s -> is_ok (relative_square c s).
Proof.
  intro Hs.
  pose proof (forall_squares
    (fun s => (0 <=? relative_square c s) && (relative_square c s <? 64)))
    as H.
  destruct c; specialize (H eq_refl s Hs);
    apply andb_true_iff in H; unfold is_ok; lia.
Qed.

Lemma relative_square_rank (c : Color) (s : Square) :
  is_ok s -> rank_of (relative_square c s) = relative_rank c s.
Proof.
  intro Hs.
  pose proof (forall_squares
    (fun s => rank_of (relative_square c s) =? relative_rank c s)) as H.
  destruct c; specialize (H eq_refl s Hs); now apply Z.eqb_eq in H.
Qed.

Lemma step_south_ok (s : Square) :
  is_ok s -> 1 <= rank_of s -> is_ok (s + DELTA_S).
Proof.
  intros [Hlo Hhi] Hr. rewrite rank_of_div in Hr.
  assert (8 <= s).
  { destruct (Z_lt_ge_dec s 8) as [Hlt | Hge]; [| lia].
    rewrite Z.div_small in Hr; lia. }
  unfold is_ok, DELTA_S. lia.
Qed.

(** [Endgame<KRKP>] scores every position for the side with the rook: seen
    from the strong side the score is the known win, or lies between 24 and
    56 (pawn far advanced and supported), or between 144 and 312 (the
    distance formula); the value returned is that score when the strong
    side is to move and its negation otherwise, so that, the known win being
    positive, it is positive exactly when the strong side is to move. *)
Theorem KRKP_scores_for_the_rook (strongSide : Color) (pos : Position) :
  live pos ->
  count pos PAWN (Color_not strongSide) = 1 ->
  RANK_2 <= relative_rank strongSide (square pos PAWN (Color_not strongSide)) ->
  0 < KRKP_win ->
  (KRKP_result strongSide pos = KRKP_win
   \/ 24 <= KRKP_result strongSide pos <= 56
   \/ 144 <= KRKP_result strongSide pos <= 312)
  /\ Z.abs (KRKP strongSide pos) = KRKP_result strongSide pos
  /\ (0 < KRKP strongSide pos <-> side_to_move pos = strongSide).
Proof.
  intros Hlive Hp Hrank Hwin.
  assert (Hwk : is_ok (relative_square strongSide (square pos KING strongSide)))
    by (apply relative_square_ok, king_ok, Hlive).
  assert (Hbk : is_ok (relative_square strongSide
                         (square pos KING (Color_not strongSide))))
    by (apply relative_square_ok, king_ok, Hlive).
  assert (Hps0 : is_ok (square pos PAWN (Color_not strongSide)))
    by (apply square_ok; [apply Hlive | lia]).
  assert (Hps : is_ok (relative_square strongSide
                         (square pos PAWN (Color_not strongSide))))
    by (apply relative_square_ok, Hps0).
  assert (Hsouth : is_ok (relative_square strongSide
                            (square pos PAWN (Color_not strongSide))
                          + DELTA_S)).
  { apply step_south_ok; [exact Hps |].
    rewrite relative_square_rank by exact Hps0.
    unfold RANK_2 in Hrank. lia. }
  assert (Hclass : KRKP_result strongSide pos = KRKP_win
                   \/ 24 <= KRKP_result strongSide pos <= 56
                   \/ 144 <= KRKP_result strongSide pos <= 312).
  { unfold KRKP_result. cbv zeta.
    set (wksq := relative_square strongSide (square pos KING strongSide)) in *.
    set (bksq := relative_square strongSide
                   (square pos KING (Color_not strongSide))) in *.
    set (psq := relative_square strongSide
                  (square pos PAWN (Color_not strongSide))) in *.
    assert (Hq : is_ok (make_square (file_of psq) RANK_1)).
    { pose proof (file_of_range psq) as Hf. unfold make_square, RANK_1.
      rewrite Z.shiftl_0_l, Z.lor_0_l. unfold is_ok. lia. }
    pose proof (distance_range wksq psq Hwk Hps) as D0.
    pose proof (distance_range wksq _ Hwk Hsouth) as D1.
    pose proof (distance_range bksq _ Hbk Hsouth) as D2.
    pose proof (distance_range psq _ Hps Hq) as D3.
    repeat match goal with
           | |- context [if ?b then KRKP_win else _] =>
               destruct b; [now left |]
           end.
    match goal with
    | |- context [if ?b then _ else _] => destruct b eqn:E
    end.
    - right. left.
      apply andb_true_iff in E. destruct E as [_ E].
      apply Z.ltb_lt in E. unfold bool_to_int in E.
      destruct (Color_eqb (side_to_move pos) strongSide); lia.
    - right. right. lia. }
  split; [exact Hclass |].
  assert (Hpos : 0 < KRKP_result strongSide pos) by lia.
  unfold KRKP. cbv zeta.
  destruct (Color_eqb strongSide (side_to_move pos)) eqn:E.
  - apply Color_eqb_eq in E. split; [lia |]. split; [congruence | lia].
  - split; [lia |]. split; [lia |].
    intro Heq. symmetry in Heq. apply Color_eqb_eq in Heq. congruence.
Qed.

Lemma rook_pawn_files (s : Square) :
  is_ok s ->
  bb_nonzero (Z.lor (Z.lor (Z.lor FileABB FileCBB) FileFBB) FileHBB
              &b square_bb s)
  = (file_of s =? FILE_A) || (file_of s =? FILE_C)
    || (file_of s =? FILE_F) || (file_of s =? FILE_H).
Proof.
  intro Hs.
  pose proof (forall_squares
    (fun s => Bool.eqb
       (bb_nonzero (Z.lor (Z.lor (Z.lor FileABB FileCBB) FileFBB) FileHBB
                    &b square_bb s))
       ((file_of s =? FILE_A) || (file_of s =? FILE_C)
        || (file_of s =? FILE_F) || (file_of s =? FILE_H)))
    eq_refl s Hs) as H.
  now apply Bool.eqb_prop in H.
Qed.

(** [Endgame<KQKP>], for a count of plies that is not negative, reads
    [PushClose] at the distance [d] of the two kings, within its bounds,
    and returns the closeness term [PushClose[d] / (rule50 + 1)] alone -- a
    value between 0 and 400 -- exactly when the pawn stands on its seventh
    rank, on the A, C, F or H file, with its king next to it; otherwise it
    adds the known win.  The closeness term shrinks to 0 once the count
    reaches 400.  The sign follows the side to move. *)
Theorem KQKP_draws_only_with_bishop_or_rook_pawn (strongSide : Color)
    (pos : Position) :
  live pos ->
  count pos PAWN (Color_not strongSide) = 1 ->
  0 <= rule50_count pos ->
  let weakSide := Color_not strongSide in
  let pawnSq := square pos PAWN weakSide in
  let stands := (relative_rank weakSide pawnSq =? RANK_7)
                && (distance (square pos KING weakSide) pawnSq =? 1)
                && ((file_of pawnSq =? FILE_A) || (file_of pawnSq =? FILE_C)
                    || (file_of pawnSq =? FILE_F)
                    || (file_of pawnSq =? FILE_H)) in
  exists close,
    lookup PushClose (distance (square pos KING strongSide)
                               (square pos KING weakSide)) = Some close
    /\ 0 <= Z.quot close (rule50_count pos + 1) <= 400
    /\ (400 <= rule50_count pos -> Z.quot close (rule50_count pos + 1) = 0)
    /\ KQKP strongSide pos
       = Some (from_side_to_move strongSide pos
                 (if stands then Z.quot close (rule50_count pos + 1)
                  else Z.quot close (rule50_count pos + 1)
                       + (VALUE_KNOWN_WIN + Z.quot QueenValueEg 10
                          - PawnValueEg))).
Proof.
  intros Hlive Hp H50 weakSide pawnSq stands.
  pose proof (king_ok pos strongSide Hlive) as Hw.
  pose proof (king_ok pos weakSide Hlive) as Hl.
  assert (Hps : is_ok pawnSq)
    by (unfold pawnSq, weakSide; apply square_ok; [apply Hlive | lia]).
  pose proof (distance_range _ _ Hw Hl) as Hd.
  assert (Hclose : exists close,
            lookup PushClose (distance (square pos KING strongSide)
                                       (square pos KING weakSide))
            = Some close /\ 0 <= close <= 400).
  { assert (Hok : is_ok (distance (square pos KING strongSide)
                                  (square pos KING weakSide)))
      by (unfold is_ok; lia).
    pose proof (forall_squares
      (fun d => (7 <? d) || match lookup PushClose d with
                            | Some v => (0 <=? v) && (v <=? 400)
                            | None => false
                            end) eq_refl _ Hok) as H.
    cbv beta in H. apply orb_true_iff in H. destruct H as [H | H]; [lia |].
    destruct (lookup PushClose _) as [v |]; [| discriminate].
    apply andb_true_iff in H. exists v. split; [reflexivity | lia]. }
  destruct Hclose as (close & Hlk & Hc).
  exists close. split; [exact Hlk |].
  assert (Hq : 0 <= Z.quot close (rule50_count pos + 1) <= close).
  { split; [apply Z.quot_pos; lia |].
    destruct (Z.eq_dec close 0) as [-> | Hne]; [now rewrite Z.quot_0_l by lia |].
    rewrite Z.quot_div_nonneg by lia.
    apply Z.div_le_upper_bound; nia. }
  split; [lia |]. split.
  - intro H400. apply Z.quot_small. lia.
  - unfold KQKP. cbv zeta. fold weakSide. rewrite Hlk. cbn [obind].
    replace (rule50_count pos + 1 =? 0) with false
      by (symmetry; apply Z.eqb_neq; lia).
    fold pawnSq. rewrite (rook_pawn_files pawnSq Hps).
    unfold from_side_to_move, stands.
    destruct (relative_rank weakSide pawnSq =? RANK_7);
      destruct (distance (square pos KING weakSide) pawnSq =? 1);
      destruct ((file_of pawnSq =? FILE_A) || (file_of pawnSq =? FILE_C)
                || (file_of pawnSq =? FILE_F) || (file_of pawnSq =? FILE_H));
      reflexivity.
Qed.

End PawnEndgameProperties.

Lemma KRKP_scores_for_the_rook_witness :
  (KRKP_result (K := engine_constants) (V := engine_endgame_values)
     WHITE krkp_b2 = 10000 + 127 - 258
   \/ 24 <= KRKP_result (K := engine_constants) (V := engine_endgame_values)
              WHITE krkp_b2 <= 56
   \/ 144 <= KRKP_result (K := engine_constants) (V := engine_endgame_values)
               WHITE krkp_b2 <= 312)
  /\ Z.abs (KRKP (K := engine_constants) (V := engine_endgame_values)
              WHITE krkp_b2)
     = KRKP_result (K := engine_constants) (V := engine_endgame_values)
         WHITE krkp_b2
  /\ (0 < KRKP (K := engine_constants) (V := engine_endgame_values)
            WHITE krkp_b2
      <-> side_to_move krkp_b2 = WHITE).
Proof.
  apply (KRKP_scores_for_the_rook
           (K := engine_constants) (V := engine_endgame_values)
           WHITE krkp_b2).
  - unfold krkp_b2. snapshot_live.
  - reflexivity.
  - vm_compute. intro H. discriminate H.
  - reflexivity.
Defined.

Example KRKP_b2_drawish :
  KRKP (K := engine_constants) (V := engine_endgame_values) WHITE krkp_b2
  = - 56.
Proof. reflexivity. Qed.

Lemma KQKP_draws_only_with_bishop_or_rook_pawn_witness :
  exists close,
    lookup PushClose (distance (square (kqkp_c2 3) KING WHITE)
                               (square (kqkp_c2 3) KING BLACK)) = Some close
    /\ 0 <= Z.quot close (3 + 1) <= 400
    /\ (400 <= 3 -> Z.quot close (3 + 1) = 0)
    /\ KQKP (K := engine_constants) (V := engine_endgame_values)
            WHITE (kqkp_c2 3)
       = Some (from_side_to_move WHITE (kqkp_c2 3) (Z.quot close (3 + 1))).
Proof.
  apply (KQKP_draws_only_with_bishop_or_rook_pawn
           (K := engine_constants) (V := engine_endgame_values)
           WHITE (kqkp_c2 3)).
  - unfold kqkp_c2. snapshot_live.
  - reflexivity.
  - simpl. lia.
Defined.

Example KQKP_c2_closeness_only :
  KQKP (K := engine_constants) (V := engine_endgame_values) WHITE (kqkp_c2 3)
  = Some 80
  /\ KQKP (K := engine_constants) (V := engine_endgame_values)
          WHITE (kqkp_c2 400) = Some 0.
Proof. split; reflexivity. Qed.

(** ** Bitboards as sets of squares *)

Section BitboardSets.

Lemma bb_of_list_testbit (l : list Square) (s : Square) :
  0 <= s -> (forall a, In a l -> 0 <= a) ->
  Z.testbit (bb_of_list l) s = existsb (Z.eqb s) l.
Proof.
  intros Hs. induction l as [| a l IH]; intro Hl; simpl.
  - apply Z.bits_0.
  - rewrite Z.lor_spec. unfold square_bb. rewrite Z.shiftl_1_l.
    rewrite Z.pow2_bits_eqb by (apply Hl; now left).
    rewrite IH by (intros b Hb; apply Hl; now right).
    now rewrite (Z.eqb_sym a s).
Qed.

Lemma all_squares_spec (s : Square) : In s all_squares <-> is_ok s.
Proof.
  unfold all_squares, is_ok. rewrite in_map_iff. split.
  - intros (n & <- & Hn). apply in_seq in Hn. lia.
  - intros [Hlo Hhi]. exists (Z.to_nat s). split; [lia |].
    apply in_seq. lia.
Qed.

(** A bitboard built from a test holds exactly the squares that pass it. *)
Lemma bb_where_spec (p : Square -> bool) (s : Square) :
  is_ok s -> Z.testbit (bb_where p) s = p s.
Proof.
  intro Hs. unfold bb_where.
  rewrite bb_of_list_testbit.
  - destruct (p s) eqn:E.
    + apply existsb_exists. exists s. split; [| apply Z.eqb_refl].
      apply filter_In. split; [now apply all_squares_spec | exact E].
    + destruct (existsb (Z.eqb s) (filter p all_squares)) eqn:Ex;
        [| reflexivity].
      apply existsb_exists in Ex. destruct Ex as (a & Ha & Heq).
      apply Z.eqb_eq in Heq. subst a.
      apply filter_In in Ha. destruct Ha as [_ Ha]. congruence.
  - apply Hs.
  - intros a Ha. apply filter_In in Ha. destruct Ha as [Ha _].
    apply all_squares_spec in Ha. apply Ha.
Qed.

Lemma bb_not_testbit (b : Bitboard) (s : Square) :
  is_ok s -> Z.testbit (bb_not b) s = negb (Z.testbit b s).
Proof.
  intros [Hlo Hhi]. unfold bb_not, AllSquares.
  rewrite Z.land_spec, Z.lnot_spec by exact Hlo.
  rewrite Z.ones_spec_low by lia. apply andb_true_r.
Qed.

(** Every listed square passes [p] when no listed square is outside a
    bitboard that holds the squares passing [p]. *)
Lemma subset_of_bb (b : Bitboard) (p : Square -> bool) (l : list Square) :
  (forall s, is_ok s -> Z.testbit b s = p s) ->
  (forall s, In s l -> is_ok s) ->
  bb_nonzero (bb_of_list l &b bb_not b) = false ->
  forall s, In s l -> p s = true.
Proof.
  intros Hb Hok H s Hs. unfold bb_nonzero in H.
  apply negb_false_iff, Z.eqb_eq in H.
  pose proof (proj1 (bb_of_list_land l _ Hok) H s Hs) as Hbit.
  rewrite bb_not_testbit, Hb in Hbit by (apply Hok; exact Hs).
  now apply negb_false_iff in Hbit.
Qed.

Lemma in_front_bb_spec (c : Color) (r : Rank) (s : Square) :
  is_ok s ->
  Z.testbit (in_front_bb c r) s
  = match c with
    | WHITE => r <? rank_of s
    | BLACK => rank_of s <? r
    end.
Proof. intro Hs. unfold in_front_bb. now rewrite bb_where_spec. Qed.

Lemma FileABB_spec (s : Square) :
  is_ok s -> Z.testbit FileABB s = (file_of s =? FILE_A).
Proof.
  intro Hs.
  pose proof (forall_squares
    (fun s => Bool.eqb (Z.testbit FileABB s) (file_of s =? FILE_A))
    eq_refl s Hs) as H.
  now apply Bool.eqb_prop in H.
Qed.

Lemma FileHBB_spec (s : Square) :
  is_ok s -> Z.testbit FileHBB s = (file_of s =? FILE_H).
Proof.
  intro Hs.
  pose proof (forall_squares
    (fun s => Bool.eqb (Z.testbit FileHBB s) (file_of s =? FILE_H))
    eq_refl s Hs) as H.
  now apply Bool.eqb_prop in H.
Qed.

Lemma relative_rank_BLACK (s : Square) :
  is_ok s -> relative_rank BLACK s = 7 - rank_of s.
Proof.
  intro Hs.
  pose proof (forall_squares
    (fun s => relative_rank BLACK s =? 7 - rank_of s) eq_refl s Hs) as H.
  now apply Z.eqb_eq in H.
Qed.

Lemma relative_rank_WHITE (s : Square) : relative_rank WHITE s = rank_of s.
Proof. unfold relative_rank, relative_rank_r. simpl. apply Z.lxor_0_r. Qed.

(** A square in front of the weak king, seen from the weak side, is short
    of the king's rank, seen from the strong side. *)
Lemma in_front_of_weak_king (c : Color) (k p : Square) :
  is_ok k -> is_ok p ->
  Z.testbit (in_front_bb (Color_not c) (rank_of k)) p = true ->
  relative_rank c p < relative_rank c k.
Proof.
  intros Hk Hp. rewrite in_front_bb_spec by exact Hp.
  destruct c; simpl; intro H; apply Z.ltb_lt in H.
  - now rewrite !relative_rank_WHITE.
  - rewrite !relative_rank_BLACK by assumption. lia.
Qed.

(** The least square of a bitboard is one of its squares. *)
Lemma lsb_in (l : list Square) :
  (forall s, In s l -> is_ok s) -> l <> [] -> In (lsb (bb_of_list l)) l.
Proof.
  intros Hok Hne. unfold lsb.
  assert (Hex : exists a, In a (filter (Z.testbit (bb_of_list l)) all_squares)).
  { destruct l as [| a l]; [congruence |].
    exists a. apply filter_In. split.
    - apply all_squares_spec, Hok. now left.
    - rewrite bb_of_list_testbit.
      + simpl. now rewrite Z.eqb_refl.
      + apply (Hok a). now left.
      + intros b Hb. now apply Hok. }
  destruct (filter (Z.testbit (bb_of_list l)) all_squares) as [| h t] eqn:E.
  - destruct Hex as (a & []).
  - simpl.
    assert (Hh : In h (filter (Z.testbit (bb_of_list l)) all_squares))
      by (rewrite E; now left).
    apply filter_In in Hh. destruct Hh as [Hall Hbit].
    apply all_squares_spec in Hall.
    rewrite bb_of_list_testbit in Hbit.
    + apply existsb_exists in Hbit. destruct Hbit as (a & Ha & Heq).
      apply Z.eqb_eq in Heq. now subst.
    + apply Hall.
    + intros b Hb. now apply Hok.
Qed.

End BitboardSets.

(** ** Where the scale evaluators can leave the default *)

Section ScaleGeometry.

Context {K : Constants} {X : Collaborators}.

(** [Endgame<KNPK>] scales only a rook pawn on the seventh rank: unless the
    normalized pawn is on a7 -- the pawn on the A or H file and on the
    strong side's seventh rank -- it returns [SCALE_FACTOR_NONE]; and unless
    the defending king is also on the strong side's seventh or eighth rank
    within two files of the pawn, it returns [SCALE_FACTOR_NONE]. *)
Theorem KNPK_scales_only_rook_pawn_on_seventh (strongSide : Color)
    (pos : Position) :
  live pos ->
  count pos PAWN strongSide = 1 ->
  let pawnSq := square pos PAWN strongSide in
  let weakKingSq := square pos KING (Color_not strongSide) in
  KNPK strongSide pos = SCALE_FACTOR_NONE
  \/ ((file_of pawnSq = FILE_A \/ file_of pawnSq = FILE_H)
      /\ relative_rank strongSide pawnSq = RANK_7
      /\ RANK_7 <= relative_rank strongSide weakKingSq
      /\ distance_File weakKingSq pawnSq <= 2).
Proof.
  intros Hlive Hp pawnSq weakKingSq.
  assert (Hps : is_ok pawnSq) by (apply square_ok; [apply Hlive | lia]).
  assert (Hks : is_ok weakKingSq) by (apply king_ok, Hlive).
  unfold KNPK. cbv zeta. fold pawnSq weakKingSq.
  destruct (normalize pos strongSide pawnSq =? SQ_A7) eqn:EP; [| now left].
  apply Z.eqb_eq in EP.
  assert (Hfile : file_of pawnSq = FILE_A \/ file_of pawnSq = FILE_H).
  { pose proof (file_of_range pawnSq) as Hf.
    assert (HfN : file_of (normalize pos strongSide pawnSq) = 0)
      by (rewrite EP; reflexivity).
    unfold normalize in HfN. fold pawnSq in HfN. unfold FILE_A, FILE_H.
    destruct (FILE_E <=? file_of pawnSq); destruct (Color_eqb strongSide BLACK);
      rewrite ?Square_not_file in HfN
        by (try apply mirror_file_ok; exact Hps);
      rewrite ?mirror_file_file in HfN by exact Hps; lia. }
  assert (Hrank : relative_rank strongSide pawnSq = RANK_7).
  { rewrite <- (normalize_rank pos strongSide pawnSq Hps), EP. reflexivity. }
  assert (Hking : forall t, normalize pos strongSide weakKingSq = t ->
            In t [SQ_A8; SQ_B7; SQ_C8; SQ_C7] ->
            RANK_7 <= relative_rank strongSide weakKingSq
            /\ distance_File weakKingSq pawnSq <= 2).
  { intros t Ht Hin.
    rewrite <- (normalize_rank pos strongSide weakKingSq Hks).
    destruct (normalize_distances pos strongSide weakKingSq pawnSq Hks Hps)
      as (_ & HF & _).
    rewrite <- HF, EP, Ht.
    simpl in Hin.
    destruct Hin as [<- | [<- | [<- | [<- | []]]]]; cbv; split; congruence. }
  destruct (normalize pos strongSide weakKingSq =? SQ_A8) eqn:E1.
  { right. apply Z.eqb_eq in E1.
    destruct (Hking _ E1) as [H1 H2]; [simpl; tauto |]. tauto. }
  destruct (normalize pos strongSide weakKingSq =? SQ_B7) eqn:E2.
  { right. apply Z.eqb_eq in E2.
    destruct (Hking _ E2) as [H1 H2]; [simpl; tauto |]. tauto. }
  simpl.
  destruct (normalize pos strongSide weakKingSq =? SQ_C8) eqn:E3.
  { apply Z.eqb_eq in E3.
    destruct (Hking _ E3) as [H1 H2]; [simpl; tauto |].
    match goal with
    | |- (if ?b then _ else _) = _ \/ _ => destruct b
    end; [right; tauto | now left]. }
  destruct (normalize pos strongSide weakKingSq =? SQ_C7) eqn:E4.
  { apply Z.eqb_eq in E4.
    destruct (Hking _ E4) as [H1 H2]; [simpl; tauto |].
    match goal with
    | |- (if ?b then _ else _) = _ \/ _ => destruct b
    end; [right; tauto | now left]. }
  now left.
Qed.

(** [Endgame<KPsK>] calls a draw only for pawns on one rook file held up by
    the king: unless every pawn of the strong side is on the A file, or
    every one on the H file, every pawn is short of the defending king's
    rank, and the king is within a file of them, it returns
    [SCALE_FACTOR_NONE]. *)
Theorem KPsK_draws_only_rook_file_pawns (strongSide : Color) (pos : Position) :
  live pos ->
  1 <= count pos PAWN strongSide ->
  let pawns := pieceList pos strongSide PAWN in
  let ksq := square pos KING (Color_not strongSide) in
  KPsK strongSide pos = SCALE_FACTOR_NONE
  \/ (((forall p, In p pawns -> file_of p = FILE_A) /\ file_of ksq <= FILE_B
       \/ (forall p, In p pawns -> file_of p = FILE_H) /\ FILE_G <= file_of ksq)
      /\ (forall p, In p pawns ->
            relative_rank strongSide p < relative_rank strongSide ksq)).
Proof.
  intros Hlive Hp pawns ksq.
  assert (Hok : forall s, In s pawns -> is_ok s)
    by (intros s Hs; apply (proj1 Hlive strongSide PAWN s Hs)).
  assert (Hks : is_ok ksq) by (apply king_ok, Hlive).
  assert (Hne : pawns <> []).
  { unfold pawns. unfold count in Hp.
    destruct (pieceList pos strongSide PAWN); simpl in Hp; [lia | congruence]. }
  pose proof (lsb_in pawns Hok Hne) as Hlsb.
  pose proof (file_of_range ksq) as Hkf.
  unfold KPsK. cbv zeta. fold ksq. unfold pieces_cp. fold pawns.
  destruct (bb_nonzero (bb_of_list pawns
              &b bb_not (in_front_bb (Color_not strongSide) (rank_of ksq))))
    eqn:Efront; [now left |].
  assert (Hahead : forall p, In p pawns ->
            relative_rank strongSide p < relative_rank strongSide ksq).
  { intros p Hin. apply in_front_of_weak_king; [exact Hks | now apply Hok |].
    apply (subset_of_bb _ (Z.testbit (in_front_bb (Color_not strongSide)
                                                  (rank_of ksq)))
             pawns (fun s _ => eq_refl) Hok Efront p Hin). }
  destruct (bb_nonzero (bb_of_list pawns &b bb_not FileABB)) eqn:EA;
    destruct (bb_nonzero (bb_of_list pawns &b bb_not FileHBB)) eqn:EH;
    cbn [negb andb]; try (now left);
    (destruct (distance_File ksq (lsb (bb_of_list pawns)) <=? 1) eqn:Ed;
     [| now left]);
    right; apply Z.leb_le in Ed; (split; [| exact Hahead]).
  - (* nothing off the H file *)
    right.
    assert (HH : forall p, In p pawns -> file_of p = FILE_H).
    { intros p Hin. apply Z.eqb_eq.
      apply (subset_of_bb FileHBB _ pawns FileHBB_spec Hok EH p Hin). }
    split; [exact HH |].
    specialize (HH _ Hlsb). unfold distance_File, distance_int in Ed.
    rewrite HH in Ed. unfold FILE_H, FILE_G in *.
    destruct (file_of ksq <? 7) eqn:E; lia.
  - (* nothing off the A file *)
    left.
    assert (HA : forall p, In p pawns -> file_of p = FILE_A).
    { intros p Hin. apply Z.eqb_eq.
      apply (subset_of_bb FileABB _ pawns FileABB_spec Hok EA p Hin). }
    split; [exact HA |].
    specialize (HA _ Hlsb). unfold distance_File, distance_int in Ed.
    rewrite HA in Ed. unfold FILE_A, FILE_B in *.
    destruct (file_of ksq <? 0) eqn:E; lia.
  - (* nothing off either rook file *)
    left.
    assert (HA : forall p, In p pawns -> file_of p = FILE_A).
    { intros p Hin. apply Z.eqb_eq.
      apply (subset_of_bb FileABB _ pawns FileABB_spec Hok EA p Hin). }
    split; [exact HA |].
    specialize (HA _ Hlsb). unfold distance_File, distance_int in Ed.
    rewrite HA in Ed. unfold FILE_A, FILE_B in *.
    destruct (file_of ksq <? 0) eqn:E; lia.
Qed.

End ScaleGeometry.

Section ScaleGeometryRookPawn.

Context {K : Constants} {X : Collaborators}.

Lemma rook_files_testbit (s : Square) :
  is_ok s ->
  Z.testbit (Z.lor FileABB FileHBB) s
  = (file_of s =? FILE_A) || (file_of s =? FILE_H).
Proof.
  intro Hs. rewrite Z.lor_spec.
  now rewrite FileABB_spec, FileHBB_spec by exact Hs.
Qed.

(** [Endgame<KRPKB>] scales only a rook pawn on the fifth or sixth rank:
    with the one pawn of the board off the A and H files it returns
    [SCALE_FACTOR_NONE]; with it on the strong side's fifth rank the factor
    is 24, 48 or none, on the sixth rank 8 or none, elsewhere none. *)
Theorem KRPKB_scales_only_rook_pawn (strongSide : Color) (pos : Position) :
  live pos ->
  count pos PAWN strongSide = 1 ->
  count pos PAWN (Color_not strongSide) = 0 ->
  let psq := square pos PAWN strongSide in
  KRPKB strongSide pos = SCALE_FACTOR_NONE
  \/ ((file_of psq = FILE_A \/ file_of psq = FILE_H)
      /\ (relative_rank strongSide psq = RANK_5
          /\ (KRPKB strongSide pos = 24 \/ KRPKB strongSide pos = 48)
          \/ relative_rank strongSide psq = RANK_6
             /\ KRPKB strongSide pos = 8)).
Proof.
  intros Hlive Hp Hw psq.
  assert (Hps : is_ok psq) by (apply square_ok; [apply Hlive | lia]).
  assert (Hbb : pieces_p pos PAWN = square_bb psq).
  { unfold pieces_p, pieces_cp, psq, square, squares, count in *.
    destruct (pieceList pos strongSide PAWN) as [| p [| q l]] eqn:Es;
      simpl in Hp; try lia.
    destruct (pieceList pos (Color_not strongSide) PAWN) as [| q l] eqn:Ew;
      simpl in Hw; try lia.
    destruct strongSide; simpl in Es, Ew; rewrite Es, Ew; simpl;
      now rewrite ?Z.lor_0_r. }
  unfold KRPKB. cbv zeta. rewrite Hbb. fold psq.
  destruct (bb_nonzero (square_bb psq &b Z.lor FileABB FileHBB)) eqn:Erook;
    [| now left].
  assert (Hfile : file_of psq = FILE_A \/ file_of psq = FILE_H).
  { unfold bb_nonzero in Erook. apply negb_true_iff, Z.eqb_neq in Erook.
    destruct (Z.testbit (Z.lor FileABB FileHBB) psq) eqn:Eb.
    - rewrite rook_files_testbit in Eb by exact Hps.
      apply orb_true_iff in Eb.
      destruct Eb as [Eb | Eb]; apply Z.eqb_eq in Eb; tauto.
    - exfalso. apply Erook. apply square_bb_land; [apply Hps | exact Eb]. }
  destruct (relative_rank strongSide psq =? RANK_5) eqn:E5.
  - apply Z.eqb_eq in E5.
    destruct (negb (opposite_colors (square pos BISHOP (Color_not strongSide))
                                    psq)); simpl.
    + right. split; [exact Hfile |]. left. split; [exact E5 |].
      match goal with
      | |- (if ?b then _ else _) = _ \/ _ => destruct b; tauto
      end.
    + rewrite E5. simpl. now left.
  - simpl.
    destruct (relative_rank strongSide psq =? RANK_6) eqn:E6; [| now left].
    apply Z.eqb_eq in E6. simpl.
    match goal with
    | |- (if ?b then _ else _) = _ \/ _ => destruct b
    end; [| now left].
    right. split; [exact Hfile |]. right. now split.
Qed.

End ScaleGeometryRookPawn.

Lemma KNPK_scales_only_rook_pawn_on_seventh_witness :
  KNPK (K := engine_constants) BLACK knpk_black_a2 = 255
  \/ ((file_of (square knpk_black_a2 PAWN BLACK) = FILE_A
       \/ file_of (square knpk_black_a2 PAWN BLACK) = FILE_H)
      /\ relative_rank BLACK (square knpk_black_a2 PAWN BLACK) = RANK_7
      /\ RANK_7 <= relative_rank BLACK (square knpk_black_a2 KING WHITE)
      /\ distance_File (square knpk_black_a2 KING WHITE)
                       (square knpk_black_a2 PAWN BLACK) <= 2).
Proof.
  apply (KNPK_scales_only_rook_pawn_on_seventh
           (K := engine_constants) BLACK knpk_black_a2).
  - unfold knpk_black_a2. snapshot_live.
  - reflexivity.
Defined.

Lemma KPsK_draws_only_rook_file_pawns_witness :
  KPsK (K := engine_constants) WHITE kpsk_h_pawns = 255
  \/ (((forall p, In p (pieceList kpsk_h_pawns WHITE PAWN) ->
                  file_of p = FILE_A)
       /\ file_of (square kpsk_h_pawns KING BLACK) <= FILE_B
       \/ (forall p, In p (pieceList kpsk_h_pawns WHITE PAWN) ->
                     file_of p = FILE_H)
          /\ FILE_G <= file_of (square kpsk_h_pawns KING BLACK))
      /\ (forall p, In p (pieceList kpsk_h_pawns WHITE PAWN) ->
            relative_rank WHITE p
            < relative_rank WHITE (square kpsk_h_pawns KING BLACK))).
Proof.
  apply (KPsK_draws_only_rook_file_pawns
           (K := engine_constants) WHITE kpsk_h_pawns).
  - unfold kpsk_h_pawns. snapshot_live.
  - vm_compute. intro H. discriminate H.
Defined.

Example KPsK_h_pawns_draw :
  KPsK (K := engine_constants) WHITE kpsk_h_pawns = 0.
Proof. reflexivity. Qed.

Lemma KRPKB_scales_only_rook_pawn_witness :
  KRPKB (K := engine_constants) (X := sample_collaborators) WHITE krpkb_h5
  = 255
  \/ ((file_of (square krpkb_h5 PAWN WHITE) = FILE_A
       \/ file_of (square krpkb_h5 PAWN WHITE) = FILE_H)
      /\ (relative_rank WHITE (square krpkb_h5 PAWN WHITE) = RANK_5
          /\ (KRPKB (K := engine_constants) (X := sample_collaborators)
                    WHITE krpkb_h5 = 24
              \/ KRPKB (K := engine_constants) (X := sample_collaborators)
                       WHITE krpkb_h5 = 48)
          \/ relative_rank WHITE (square krpkb_h5 PAWN WHITE) = RANK_6
             /\ KRPKB (K := engine_constants) (X := sample_collaborators)
                      WHITE krpkb_h5 = 8)).
Proof.
  apply (KRPKB_scales_only_rook_pawn
           (K := engine_constants) (X := sample_collaborators)
           WHITE krpkb_h5).
  - unfold krpkb_h5. snapshot_live.
  - reflexivity.
  - reflexivity.
Defined.

Example KRPKB_h5_scale :
  KRPKB (K := engine_constants) (X := sample_collaborators) WHITE krpkb_h5
  = 24.
Proof. reflexivity. Qed.

(** ** The FEN string forged for a code *)

Module ForgedFen.

Import Signature.
Import Registry.

Local Open Scope string_scope.

Lemma find_from_first (ch : ascii) (s : string) :
  forall p i, find_from ch p s = Some i ->
    (p <= i)%nat /\ get i s = Some ch
    /\ forall j, (p <= j < i)%nat -> get j s <> Some ch.
Proof.
  induction s as [| c s IH]; intros p i; simpl; [discriminate |].
  destruct p as [| p].
  - destruct (Ascii.eqb_spec c ch) as [-> | Hne].
    + intros [= <-]. split; [lia |]. split; [reflexivity |]. intros j Hj. lia.
    + destruct (find_from ch 0 s) as [i' |] eqn:E; simpl; [| discriminate].
      intros [= <-]. destruct (IH _ _ E) as (_ & Hget & Hmin).
      split; [lia |]. split; [exact Hget |].
      intros [| j] Hj; simpl; [congruence |]. apply Hmin. lia.
  - destruct (find_from ch p s) as [i' |] eqn:E; simpl; [| discriminate].
    intros [= <-]. destruct (IH _ _ E) as (Hle & Hget & Hmin).
    split; [lia |]. split; [exact Hget |].
    intros [| j] Hj; [lia |]. simpl. apply Hmin. lia.
Qed.

Lemma substring_split (s : string) :
  forall i, (i <= String.length s)%nat ->
    substring 0 i s ++ substring i (String.length s - i) s = s.
Proof.
  induction s as [| c s IH]; intros i Hi; simpl in *.
  - destruct i; [reflexivity | lia].
  - destruct i as [| i]; simpl.
    + f_equal.
      assert (H := IH 0%nat ltac:(lia)).
      replace (substring 0 0 s) with "" in H by (destruct s; reflexivity).
      simpl in H. now rewrite Nat.sub_0_r in H.
    + f_equal. apply IH. lia.
Qed.

Lemma length_transform (f : ascii -> ascii) (s : string) :
  String.length (transform f s) = String.length s.
Proof. induction s; simpl; congruence. Qed.

Lemma empty_squares_digit (side : string) :
  (String.length side <= 8)%nat ->
  empty_squares side
  = String (digit_char (8 - String.length side)) "".
Proof.
  unfold empty_squares, digit_char. intro H.
  assert (Hc : (String.length side = 0 \/ String.length side = 1
                \/ String.length side = 2 \/ String.length side = 3
                \/ String.length side = 4 \/ String.length side = 5
                \/ String.length side = 6 \/ String.length side = 7
                \/ String.length side = 8)%nat) by lia.
  repeat (destruct Hc as [-> | Hc]; [reflexivity |]).
  now rewrite Hc.
Qed.

(** The FEN string forged once the assertions hold and a second 'K' is
    found at [i]. *)
Lemma forge_fen_found (code : string) (c : Color) (i : nat) :
  (0 < String.length code < 8)%nat ->
  get 0 code = Some "K"%char ->
  find_from "K" 1 code = Some i ->
  forge_fen code c
  = inr (let weak := substring i (String.length code - i) code in
         let strong := substring 0 i code in
         let sides0 := match c with
                       | WHITE => transform tolower weak
                       | BLACK => weak
                       end in
         let sides1 := match c with
                       | WHITE => strong
                       | BLACK => transform tolower strong
                       end in
         sides0 ++ empty_squares sides0 ++ "/8/8/8/8/8/8/"
         ++ sides1 ++ empty_squares sides1 ++ " w - - 0 10").
Proof.
  intros [H0 H8] Hget Hfind.
  pose proof (SignatureFacts.find_from_some _ _ _ _ Hfind) as Hi.
  unfold forge_fen.
  replace ((0 <? String.length code) && (String.length code <? 8))%nat
    with true
    by (symmetry; apply andb_true_iff; split; apply Nat.ltb_lt; lia).
  rewrite Hget, Hfind, Ascii.eqb_refl.
  change (negb true) with false. cbv beta iota.
  unfold substr_from, substr_upto.
  replace (i <=? String.length code)%nat with true
    by (symmetry; apply Nat.leb_le; lia).
  reflexivity.
Qed.

(** What [key] hands to the position collaborator: whenever a FEN string is
    forged, the code splits into a strong part and a weak part, each led by
    its 'K' and with no other 'K' in the strong part; the weak part goes to
    the eighth rank and the strong part to the first; for [c] white the
    weak part is put in lower case, so that the strong pieces are white,
    for [c] black the strong part; and each of the two ranks is completed
    to eight squares by a digit between 2 and 7. *)
Theorem forged_fen_shape (code : string) (c : Color) (fen : string) :
  forge_fen code c = inr fen ->
  exists strong weak,
    code = strong ++ weak
    /\ get 0 strong = Some "K"%char
    /\ get 0 weak = Some "K"%char
    /\ (forall j, (1 <= j)%nat -> get j strong <> Some "K"%char)
    /\ (2 <= 8 - String.length weak <= 7)%nat
    /\ (2 <= 8 - String.length strong <= 7)%nat
    /\ fen = (match c with
              | WHITE => transform tolower weak
              | BLACK => weak
              end)
             ++ String (digit_char (8 - String.length weak)) ""
             ++ "/8/8/8/8/8/8/"
             ++ (match c with
                 | WHITE => strong
                 | BLACK => transform tolower strong
                 end)
             ++ String (digit_char (8 - String.length strong)) ""
             ++ " w - - 0 10".
Proof.
  intro H.
  destruct (SignatureFacts.forge_fen_failure code c) as (HA & HO).
  assert (Hlen : (0 < String.length code < 8)%nat).
  { destruct (Nat.eq_dec (String.length code) 0) as [E | E].
    - rewrite (proj2 HA (or_introl E)) in H. discriminate H.
    - destruct (le_lt_dec 8 (String.length code)) as [E' | E'].
      + rewrite (proj2 HA (or_intror (or_introl E'))) in H. discriminate H.
      + lia. }
  assert (Hget : get 0 code = Some "K"%char).
  { destruct (get 0 code) as [ch |] eqn:Eget.
    - destruct (Ascii.eqb_spec ch "K"%char) as [-> | Hne]; [reflexivity |].
      rewrite (proj2 HA) in H; [discriminate H |].
      right. right. congruence.
    - rewrite (proj2 HA) in H; [discriminate H |].
      right. right. congruence. }
  destruct (find_from "K" 1 code) as [i |] eqn:Efind.
  2:{ rewrite (proj2 HO) in H; [discriminate H |].
      split; [exact Hlen |]. split; [exact Hget |].
      now apply SignatureFacts.find_from_none. }
  rewrite (forge_fen_found code c i Hlen Hget Efind) in H.
  cbv zeta in H.
  assert (Hinr : forall x y : string,
            @inr Failure string x = inr y -> x = y)
    by (intros x y Hxy; congruence).
  apply Hinr in H. subst fen.
  pose proof (SignatureFacts.find_from_some _ _ _ _ Efind) as Hi.
  destruct (find_from_first _ _ _ _ Efind) as (Hle & HgetK & Hmin).
  exists (substring 0 i code), (substring i (String.length code - i) code).
  assert (Ls : String.length (substring 0 i code) = i)
    by (apply SignatureFacts.length_substring; lia).
  assert (Lw : String.length (substring i (String.length code - i) code)
               = (String.length code - i)%nat)
    by (apply SignatureFacts.length_substring; lia).
  split; [symmetry; apply substring_split; lia |].
  split; [rewrite substring_correct1 by lia; exact Hget |].
  split; [rewrite substring_correct1 by lia; exact HgetK |].
  split.
  { intros j Hj. destruct (Nat.lt_ge_cases j i) as [Hlt | Hge].
    - rewrite substring_correct1 by lia. rewrite Nat.add_0_r.
      apply Hmin. lia.
    - rewrite substring_correct2 by lia. discriminate. }
  split; [lia |]. split; [lia |].
  destruct c;
    rewrite !empty_squares_digit by (rewrite ?length_transform; lia);
    rewrite ?length_transform; reflexivity.
Qed.

End ForgedFen.

Lemma forged_fen_shape_witness :
  exists strong weak,
    "KRPPKRP"%string = (strong ++ weak)%string
    /\ get 0 strong = Some "K"%char
    /\ get 0 weak = Some "K"%char
    /\ (forall j, (1 <= j)%nat -> get j strong <> Some "K"%char)
    /\ (2 <= 8 - String.length weak <= 7)%nat
    /\ (2 <= 8 - String.length strong <= 7)%nat
    /\ "krp5/8/8/8/8/8/8/KRPP4 w - - 0 10"%string
       = (Signature.transform Signature.tolower weak
          ++ String (Registry.digit_char (8 - String.length weak)) ""
          ++ "/8/8/8/8/8/8/"
          ++ strong
          ++ String (Registry.digit_char (8 - String.length strong)) ""
          ++ " w - - 0 10")%string.
Proof.
  apply (ForgedFen.forged_fen_shape "KRPPKRP" WHITE). reflexivity.
Defined.

(** ** What the registry holds once built *)

Module RegistryFacts.

Import Signature.
Import Registry.

Section Maps.

Context {V : Type}.

Lemma probe_assign_same (k : Key) (v : V) (m : list (Key * V)) :
  probe k (assign k v m) = Some v.
Proof.
  induction m as [| [k' v'] m IH]; simpl.
  - now rewrite Z.eqb_refl.
  - destruct (Z.eqb k' k) eqn:E; simpl.
    + now rewrite Z.eqb_refl.
    + now rewrite E.
Qed.

Lemma probe_assign_other (k k' : Key) (v : V) (m : list (Key * V)) :
  k' <> k -> probe k' (assign k v m) = probe k' m.
Proof.
  intro Hne. induction m as [| [k0 v0] m IH]; simpl.
  - replace (Z.eqb k k') with false
      by (symmetry; apply Z.eqb_neq; congruence).
    reflexivity.
  - destruct (Z.eqb_spec k0 k) as [-> | Hk]; simpl.
    + replace (Z.eqb k k') with false
        by (symmetry; apply Z.eqb_neq; congruence).
      reflexivity.
    + now rewrite IH.
Qed.

Lemma in_assign (k : Key) (v : V) (m : list (Key * V)) (e : Key * V) :
  In e (assign k v m) -> e = (k, v) \/ In e m.
Proof.
  induction m as [| [k0 v0] m IH]; simpl.
  - intros [H | []]. left. congruence.
  - destruct (Z.eqb k0 k); simpl.
    + intros [H | H]; [left; congruence | right; now right].
    + intros [H | H]; [right; now left |].
      destruct (IH H) as [H' | H']; [now left | right; now right].
Qed.

End Maps.

Lemma sel_assign_in_same (e : EndgameType.t) (k : Key) (c : Color)
    (m : Endgames) :
  sel (EndgameType.is_scaling e) (assign_in e k c m)
  = assign k (e, c) (sel (EndgameType.is_scaling e) m).
Proof.
  unfold sel, assign_in. now destruct (EndgameType.is_scaling e).
Qed.

Lemma sel_assign_in_other (e : EndgameType.t) (k : Key) (c : Color)
    (m : Endgames) (b : bool) :
  b <> EndgameType.is_scaling e ->
  sel b (assign_in e k c m) = sel b m.
Proof.
  unfold sel, assign_in.
  destruct (EndgameType.is_scaling e), b; simpl; congruence.
Qed.

Section Building.

Context {X : Collaborators}.

Lemma construct_over_failed (regs : list (EndgameType.t * string))
    (f : Failure) :
  fold_left (fun acc reg =>
               match acc with
               | inl f => inl f
               | inr m => add (fst reg) (snd reg) m
               end) regs (inl f) = inl f.
Proof. induction regs; simpl; auto. Qed.

Lemma construct_over_cons (reg : EndgameType.t * string)
    (regs : list (EndgameType.t * string)) (m0 m : Endgames) :
  construct_over (reg :: regs) m0 = inr m ->
  exists kw kb,
    key (snd reg) WHITE = inr kw /\ key (snd reg) BLACK = inr kb
    /\ construct_over regs
         (assign_in (fst reg) kb BLACK (assign_in (fst reg) kw WHITE m0))
       = inr m.
Proof.
  unfold construct_over. simpl. unfold add at 2.
  destruct (key (snd reg) WHITE) as [f | kw].
  - rewrite construct_over_failed. discriminate.
  - destruct (key (snd reg) BLACK) as [f | kb].
    + rewrite construct_over_failed. discriminate.
    + intro H. exists kw, kb. auto.
Qed.

Lemma in_signatures (regs : list (EndgameType.t * string))
    (reg : EndgameType.t * string) (c : Color) :
  In reg regs -> In (key (snd reg) c) (signatures regs).
Proof.
  intro Hin. unfold signatures. apply in_flat_map. exists reg.
  split; [exact Hin |]. destruct c; simpl; tauto.
Qed.

(** A signature no registration of a category asks for is left as it was in
    the map of that category. *)
Lemma construct_over_frame (regs : list (EndgameType.t * string)) :
  forall m0 m b k,
    construct_over regs m0 = inr m ->
    (forall reg c, In reg regs -> EndgameType.is_scaling (fst reg) = b ->
                   key (snd reg) c <> inr k) ->
    probe k (sel b m) = probe k (sel b m0).
Proof.
  induction regs as [| reg regs IH]; intros m0 m b k Hm Hfree.
  - unfold construct_over in Hm. simpl in Hm. now injection Hm as <-.
  - destruct (construct_over_cons _ _ _ _ Hm) as (kw & kb & Hw & Hb & Hrest).
    rewrite (IH _ _ b k Hrest)
      by (intros r c Hr; apply Hfree; now right).
    destruct (Bool.bool_dec b (EndgameType.is_scaling (fst reg))) as [-> | Hne].
    + rewrite !sel_assign_in_same.
      rewrite !probe_assign_other; [reflexivity | |].
      * intros ->. apply (Hfree reg WHITE); [now left | reflexivity | exact Hw].
      * intros ->. apply (Hfree reg BLACK); [now left | reflexivity | exact Hb].
    + now rewrite !sel_assign_in_other by exact Hne.
Qed.

(** Registrations with pairwise distinct signatures are each found again. *)
Lemma construct_over_bound (regs : list (EndgameType.t * string)) :
  forall m0 m,
    NoDup (signatures regs) ->
    construct_over regs m0 = inr m ->
    forall reg c k, In reg regs -> key (snd reg) c = inr k ->
      probe k (sel (EndgameType.is_scaling (fst reg)) m) = Some (fst reg, c).
Proof.
  induction regs as [| reg regs IH]; intros m0 m Hnd Hm r c k Hin Hk.
  - destruct Hin.
  - destruct (construct_over_cons _ _ _ _ Hm) as (kw & kb & Hw & Hb & Hrest).
    simpl in Hnd. inversion Hnd as [| ? ? HnW Hnd']. subst.
    inversion Hnd' as [| ? ? HnB Hnd'']. subst.
    destruct Hin as [<- | Hin].
    + rewrite (construct_over_frame regs _ m _ k Hrest).
      * rewrite !sel_assign_in_same.
        destruct c.
        -- assert (k = kw) by congruence. subst k.
           rewrite probe_assign_other.
           ++ apply probe_assign_same.
           ++ intros ->. apply HnW. left. congruence.
        -- assert (k = kb) by congruence. subst k.
           apply probe_assign_same.
      * intros r' c' Hr' _ Heq.
        pose proof (in_signatures regs r' c' Hr') as Hs. rewrite Heq in Hs.
        destruct c.
        -- apply HnW. right. congruence.
        -- apply HnB. congruence.
    + apply (IH _ m Hnd'' Hrest r c k Hin Hk).
Qed.

Lemma distinct_signatures_same_registration
    (regs : list (EndgameType.t * string)) :
  NoDup (signatures regs) ->
  forall r1 r2 c1 c2 k,
    In r1 regs -> In r2 regs ->
    key (snd r1) c1 = inr k -> key (snd r2) c2 = inr k ->
    r1 = r2 /\ c1 = c2.
Proof.
  induction regs as [| reg regs IH]; intros Hnd r1 r2 c1 c2 k H1 H2 K1 K2.
  - destruct H1.
  - simpl in Hnd. inversion Hnd as [| ? ? HnW Hnd']. subst.
    inversion Hnd' as [| ? ? HnB Hnd'']. subst.
    assert (Hclash : forall r c c', In r regs ->
              key (snd r) c = key (snd reg) c' -> False).
    { intros r c c' Hr Heq.
      pose proof (in_signatures regs r c Hr) as Hs. rewrite Heq in Hs.
      destruct c'; [apply HnW; now right | now apply HnB]. }
    destruct H1 as [<- | H1], H2 as [<- | H2].
    + split; [reflexivity |].
      destruct c1, c2; try reflexivity; exfalso; apply HnW; left; congruence.
    + exfalso. apply (Hclash r2 c2 c1 H2). congruence.
    + exfalso. apply (Hclash r1 c1 c2 H1). congruence.
    + apply (IH Hnd'' r1 r2 c1 c2 k H1 H2 K1 K2).
Qed.

(** Every entry comes from a registration, into the map of its kind. *)
Lemma construct_over_sorted (regs : list (EndgameType.t * string)) :
  forall m0 m b,
    construct_over regs m0 = inr m ->
    forall k e c, In (k, (e, c)) (sel b m) ->
      In (k, (e, c)) (sel b m0)
      \/ (EndgameType.is_scaling e = b
          /\ exists code, In (e, code) regs /\ key code c = inr k).
Proof.
  induction regs as [| reg regs IH]; intros m0 m b Hm k e c Hin.
  - unfold construct_over in Hm. simpl in Hm. injection Hm as <-. now left.
  - destruct (construct_over_cons _ _ _ _ Hm) as (kw & kb & Hw & Hb & Hrest).
    destruct (IH _ _ b Hrest k e c Hin) as [Hold | (Hs & code & Hc & Hkey)].
    + destruct (Bool.bool_dec b (EndgameType.is_scaling (fst reg)))
        as [-> | Hne].
      * rewrite !sel_assign_in_same in Hold.
        apply in_assign in Hold. destruct Hold as [Heq | Hold].
        -- injection Heq as -> -> ->. right. split; [reflexivity |].
           exists (snd reg). split; [left; now destruct reg | exact Hb].
        -- apply in_assign in Hold. destruct Hold as [Heq | Hold].
           ++ injection Heq as -> -> ->. right. split; [reflexivity |].
              exists (snd reg). split; [left; now destruct reg | exact Hw].
           ++ now left.
      * rewrite !sel_assign_in_other in Hold by exact Hne. now left.
    + right. split; [exact Hs |]. exists code. split; [now right | exact Hkey].
Qed.

End Building.

End RegistryFacts.

Section RegistryProperties.

Context {X : Collaborators}.

(** Whatever the material keys are, the registry the constructor builds
    keeps the two categories apart: every entry of the value map is a kind
    that returns a value and every entry of the scale map a kind that
    returns a scale factor, each bound under the signature of one of its
    registered codes for the colour it is bound to. *)
Theorem registry_keeps_categories_apart (m : Signature.Endgames) :
  Signature.construct = inr m ->
  (forall k e c, In (k, (e, c)) (Signature.value_map m) ->
     EndgameType.is_scaling e = false
     /\ exists code, In (e, code) Signature.registrations
                     /\ Signature.key code c = inr k)
  /\ (forall k e c, In (k, (e, c)) (Signature.scale_map m) ->
        EndgameType.is_scaling e = true
        /\ exists code, In (e, code) Signature.registrations
                        /\ Signature.key code c = inr k).
Proof.
  intro Hm.
  change (Registry.construct_over Signature.registrations
            {| Signature.value_map := []; Signature.scale_map := [] |}
          = inr m) in Hm.
  split; intros k e c Hin.
  - destruct (RegistryFacts.construct_over_sorted _ _ _ false Hm k e c Hin)
      as [[] | H]; exact H.
  - destruct (RegistryFacts.construct_over_sorted _ _ _ true Hm k e c Hin)
      as [[] | H]; exact H.
Qed.

(** When no two registrations ask for the same signature, every registered
    code is found again: looking up the signature of a registered code for
    a colour gives the evaluator of that kind bound to that colour, in the
    map of the kind's category, and nothing in the other map. *)
Theorem registry_round_trip (m : Signature.Endgames) :
  NoDup (Registry.signatures Signature.registrations) ->
  Signature.construct = inr m ->
  forall e code c k,
    In (e, code) Signature.registrations ->
    Signature.key code c = inr k ->
    Registry.probe k (Registry.map_of e m) = Some (e, c)
    /\ Registry.probe k (Registry.other_map_of e m) = None.
Proof.
  intros Hnd Hm e code c k Hin Hk.
  change (Registry.construct_over Signature.registrations
            {| Signature.value_map := []; Signature.scale_map := [] |}
          = inr m) in Hm.
  split.
  - apply (RegistryFacts.construct_over_bound _ _ _ Hnd Hm (e, code) c k Hin Hk).
  - replace (Registry.other_map_of e m)
      with (Registry.sel (negb (EndgameType.is_scaling e)) m)
      by (unfold Registry.other_map_of, Registry.sel;
          now destruct (EndgameType.is_scaling e)).
    rewrite (RegistryFacts.construct_over_frame _ _ _ _ k Hm).
    + unfold Registry.sel.
      now destruct (negb (EndgameType.is_scaling e)).
    + intros r c' Hr Hcat Heq.
      destruct (RegistryFacts.distinct_signatures_same_registration
                  _ Hnd r (e, code) c' c k Hr Hin Heq Hk) as [-> _].
      simpl in Hcat. now destruct (EndgameType.is_scaling e).
Qed.

End RegistryProperties.

Lemma registry_round_trip_witness :
  exists m,
    Signature.construct (X := sample_collaborators) = inr m
    /\ Registry.probe
         (Sample.fen_hash "kr6/8/8/8/8/8/8/KRP5 w - - 0 10")
         (Registry.map_of EndgameType.KRPKR m)
       = Some (EndgameType.KRPKR, WHITE)
    /\ Registry.probe
         (Sample.fen_hash "kr6/8/8/8/8/8/8/KRP5 w - - 0 10")
         (Registry.other_map_of EndgameType.KRPKR m)
       = None.
Proof.
  assert (Hnd : NoDup (Registry.signatures (X := sample_collaborators)
                         Signature.registrations)).
  { vm_compute.
    repeat (constructor;
            [ intro Hin; simpl in Hin;
              repeat (destruct Hin as [Hin | Hin]; [discriminate Hin |]);
              exact Hin
            | ]).
    constructor. }
  destruct (Signature.construct (X := sample_collaborators))
    as [f | m] eqn:E; [vm_compute in E; discriminate E |].
  exists m. split; [reflexivity |].
  apply (registry_round_trip (X := sample_collaborators) m Hnd E
           EndgameType.KRPKR "KRPKR" WHITE).
  - simpl. tauto.
  - reflexivity.
Defined.

(** ** The transposition table *)

Module TTFacts.

Import TT.

Lemma first_entry_div (tt : TranspositionTable) (key : Key) :
  first_entry tt key
  = ((key mod 2 ^ 32) * (clusterCount tt mod 2 ^ 64)) mod 2 ^ 64 / 2 ^ 32.
Proof.
  unfold first_entry, uint64_t, uint32_t.
  now rewrite Z.shiftr_div_pow2 by lia.
Qed.

Lemma first_entry_small (tt : TranspositionTable) (key : Key) :
  0 < clusterCount tt <= 2 ^ 32 ->
  first_entry tt key = (key mod 2 ^ 32) * clusterCount tt / 2 ^ 32.
Proof.
  intro Hn. rewrite first_entry_div.
  pose proof (Z.mod_pos_bound key (2 ^ 32) ltac:(lia)) as Hk.
  rewrite (Z.mod_small (clusterCount tt)) by lia.
  rewrite Z.mod_small; [reflexivity |].
  split; [nia |].
  change (2 ^ 64) with (2 ^ 32 * 2 ^ 32). nia.
Qed.

End TTFacts.

Section TTProperties.

Import TT.

(** [first_entry] never leaves the table: for any key and any positive
    number of clusters that fits [size_t], the index of the cluster it
    returns is below the number of clusters. *)
Theorem first_entry_in_bounds (tt : TranspositionTable) (key : Key) :
  0 < clusterCount tt < 2 ^ 64 ->
  0 <= first_entry tt key < clusterCount tt.
Proof.
  intro Hn.
  destruct (Z_le_gt_dec (clusterCount tt) (2 ^ 32)) as [Hle | Hgt].
  - rewrite TTFacts.first_entry_small by lia.
    pose proof (Z.mod_pos_bound key (2 ^ 32) ltac:(lia)) as Hk.
    split.
    + apply Z.div_pos; nia.
    + apply Z.div_lt_upper_bound; nia.
  - rewrite TTFacts.first_entry_div.
    pose proof (Z.mod_pos_bound
                  ((key mod 2 ^ 32) * (clusterCount tt mod 2 ^ 64))
                  (2 ^ 64) ltac:(lia)) as Hp.
    split.
    + apply Z.div_pos; lia.
    + assert ((key mod 2 ^ 32 * (clusterCount tt mod 2 ^ 64)) mod 2 ^ 64
              / 2 ^ 32 < 2 ^ 32).
      { apply Z.div_lt_upper_bound; [lia |].
        change (2 ^ 32 * 2 ^ 32) with (2 ^ 64). lia. }
      lia.
Qed.

(** With at most 2^32 clusters, [first_entry] spreads the keys over the
    whole table in the order of their low 32 bits: the index does not
    decrease when the low 32 bits grow, and every cluster is the first
    entry of some key. *)
Theorem first_entry_spreads_keys (tt : TranspositionTable) :
  0 < clusterCount tt <= 2 ^ 32 ->
  (forall k1 k2, k1 mod 2 ^ 32 <= k2 mod 2 ^ 32 ->
                 first_entry tt k1 <= first_entry tt k2)
  /\ (forall j, 0 <= j < clusterCount tt ->
                exists key, 0 <= key < 2 ^ 32 /\ first_entry tt key = j).
Proof.
  intro Hn. split.
  - intros k1 k2 Hk. rewrite !TTFacts.first_entry_small by exact Hn.
    apply Z.div_le_mono; [lia |]. nia.
  - intros j Hj.
    set (n := clusterCount tt) in *.
    set (key := (j * 2 ^ 32 + n - 1) / n).
    assert (Hlow : j * 2 ^ 32 <= key * n).
    { unfold key.
      pose proof (Z.mul_div_le (j * 2 ^ 32 + n - 1) n ltac:(lia)) as H1.
      pose proof (Z.mod_pos_bound (j * 2 ^ 32 + n - 1) n ltac:(lia)) as H2.
      pose proof (Z.div_mod (j * 2 ^ 32 + n - 1) n ltac:(lia)) as H3.
      nia. }
    assert (Hhigh : key * n <= j * 2 ^ 32 + n - 1).
    { unfold key.
      pose proof (Z.mul_div_le (j * 2 ^ 32 + n - 1) n ltac:(lia)) as H1.
      lia. }
    assert (Hkey : 0 <= key < 2 ^ 32).
    { split.
      - unfold key. apply Z.div_pos; nia.
      - destruct (Z_lt_ge_dec key (2 ^ 32)) as [Hlt | Hge]; [exact Hlt |].
        exfalso. nia. }
    exists key. split; [exact Hkey |].
    rewrite TTFacts.first_entry_small by exact Hn. fold n.
    rewrite Z.mod_small by exact Hkey.
    symmetry. apply Z.div_unique with (r := key * n - j * 2 ^ 32); lia.
Qed.

(** [new_search] leaves the three low bits of the generation alone -- they
    are kept for the PV flag and the bound -- and after [n] searches the
    generation is the starting one plus [8 * n], wrapped to 32 bits, so
    that it comes back to its start after 2^29 searches. *)
Theorem new_search_keeps_low_bits (tt : TranspositionTable) (n : nat) :
  0 <= generation32 tt < 2 ^ 32 ->
  Z.land (generation32 (new_search tt)) 7 = Z.land (generation32 tt) 7
  /\ generation32 (searches n tt)
     = (generation32 tt + 8 * Z.of_nat n) mod 2 ^ 32
  /\ (Z.of_nat n = 2 ^ 29 -> generation32 (searches n tt) = generation32 tt).
Proof.
  intro Hg.
  assert (Hgen : forall m, generation32 (searches m tt)
                           = (generation32 tt + 8 * Z.of_nat m) mod 2 ^ 32).
  { induction m as [| m IH].
    - simpl. rewrite Z.add_0_r. symmetry. now apply Z.mod_small.
    - change (searches (S m) tt) with (new_search (searches m tt)).
      unfold new_search at 1. cbn [generation32]. unfold uint32_t.
      rewrite IH, Zplus_mod_idemp_l. f_equal. lia. }
  split; [| split].
  - unfold new_search. cbn [generation32]. unfold uint32_t.
    change 7 with (Z.ones 3). rewrite !Z.land_ones by lia.
    rewrite Z.mod_mod_divide by (exists (2 ^ 29); reflexivity).
    replace (generation32 tt + 8) with (generation32 tt + 1 * 2 ^ 3) by lia.
    now rewrite Z_mod_plus_full.
  - apply Hgen.
  - intro Hn. rewrite Hgen, Hn.
    replace (generation32 tt + 8 * 2 ^ 29)
      with (generation32 tt + 1 * 2 ^ 32) by lia.
    rewrite Z_mod_plus_full. now apply Z.mod_small.
Qed.

End TTProperties.

Lemma first_entry_in_bounds_witness :
  0 <= TT.first_entry {| TT.clusterCount := 524288; TT.generation32 := 0 |}
                      0xFEDCBA9876543210
    < 524288.
Proof.
  apply (first_entry_in_bounds
           {| TT.clusterCount := 524288; TT.generation32 := 0 |}
           0xFEDCBA9876543210).
  simpl. lia.
Defined.

Lemma first_entry_spreads_keys_witness :
  (forall k1 k2, k1 mod 2 ^ 32 <= k2 mod 2 ^ 32 ->
     TT.first_entry {| TT.clusterCount := 524288; TT.generation32 := 0 |} k1
     <= TT.first_entry {| TT.clusterCount := 524288; TT.generation32 := 0 |}
                       k2)
  /\ (forall j, 0 <= j < 524288 ->
        exists key, 0 <= key < 2 ^ 32
          /\ TT.first_entry
               {| TT.clusterCount := 524288; TT.generation32 := 0 |} key
             = j).
Proof.
  apply (first_entry_spreads_keys
           {| TT.clusterCount := 524288; TT.generation32 := 0 |}).
  simpl. lia.
Defined.

Lemma new_search_keeps_low_bits_witness :
  Z.land (TT.generation32
            (TT.new_search
               {| TT.clusterCount := 1; TT.generation32 := 4294967288 |})) 7
  = Z.land 4294967288 7
  /\ TT.generation32
       (TT.searches 2 {| TT.clusterCount := 1; TT.generation32 := 4294967288 |})
     = (4294967288 + 8 * Z.of_nat 2) mod 2 ^ 32
  /\ (Z.of_nat 2 = 2 ^ 29 ->
      TT.generation32
        (TT.searches 2 {| TT.clusterCount := 1; TT.generation32 := 4294967288 |})
      = 4294967288).
Proof.
  apply (new_search_keeps_low_bits
           {| TT.clusterCount := 1; TT.generation32 := 4294967288 |} 2).
  simpl. lia.
Defined.

Lemma registry_keeps_categories_apart_witness :
  exists m,
    Signature.construct (X := sample_collaborators) = inr m
    /\ (forall k e c, In (k, (e, c)) (Signature.value_map m) ->
          EndgameType.is_scaling e = false
          /\ exists code, In (e, code) Signature.registrations
                          /\ Signature.key (X := sample_collaborators) code c
                             = inr k)
    /\ (forall k e c, In (k, (e, c)) (Signature.scale_map m) ->
          EndgameType.is_scaling e = true
          /\ exists code, In (e, code) Signature.registrations
                          /\ Signature.key (X := sample_collaborators) code c
                             = inr k).
Proof.
  destruct (Signature.construct (X := sample_collaborators))
    as [f | m] eqn:E; [vm_compute in E; discriminate E |].
  exists m. split; [reflexivity |].
  apply (registry_keeps_categories_apart (X := sample_collaborators) m E).
Defined.

(** ** Board symmetries and the mating evaluator *)

Section KXKSymmetry.

Lemma count_map_position (f : Square -> Square) (pos : Position)
    (pt : PieceType) (c : Color) :
  count (map_position f pos) pt c = count pos pt c.
Proof. unfold count. simpl. now rewrite length_map. Qed.

Lemma count_swap_colors (pos : Position) (pt : PieceType) (c : Color) :
  count (swap_colors pos) pt (Color_not c) = count pos pt c.
Proof.
  unfold count. simpl. now rewrite Color_not_involutive, length_map.
Qed.

Lemma dark_mirror_file (s : Square) :
  is_ok s -> dark_square (mirror_file s) = negb (dark_square s).
Proof.
  intro Hs.
  pose proof (forall_squares
    (fun s => Bool.eqb (dark_square (mirror_file s)) (negb (dark_square s)))
    eq_refl s Hs) as H.
  now apply Bool.eqb_prop in H.
Qed.

Lemma dark_Square_not (s : Square) :
  is_ok s -> dark_square (Square_not s) = negb (dark_square s).
Proof.
  intro Hs.
  pose proof (forall_squares
    (fun s => Bool.eqb (dark_square (Square_not s)) (negb (dark_square s)))
    eq_refl s Hs) as H.
  now apply Bool.eqb_prop in H.
Qed.

Lemma forallb_agree {A : Type} (p q : A -> bool) (l : list A) :
  (forall x, In x l -> p x = q x) -> forallb p l = forallb q l.
Proof.
  induction l as [| a l IH]; intro H; simpl; [reflexivity |].
  rewrite (H a) by now left.
  rewrite IH by (intros x Hx; apply H; now right).
  reflexivity.
Qed.

Lemma forallb_over_map {A B : Type} (p : B -> bool) (f : A -> B)
    (l : list A) :
  forallb p (map f l) = forallb (fun x => p (f x)) l.
Proof. induction l as [| a l IH]; simpl; congruence. Qed.

Lemma none_on_mask (l : list Square) (b : Bitboard) :
  (forall s, In s l -> is_ok s) ->
  bb_nonzero (bb_of_list l &b b) = negb (forallb (fun s => negb (Z.testbit b s)) l).
Proof.
  intro Hok. unfold bb_nonzero. f_equal.
  destruct (forallb (fun s => negb (Z.testbit b s)) l) eqn:E.
  - apply Z.eqb_eq. apply bb_of_list_land; [exact Hok |].
    rewrite forallb_forall in E. intros s Hs.
    now apply negb_true_iff, E.
  - apply Z.eqb_neq. intro H0.
    pose proof (proj1 (bb_of_list_land l b Hok) H0) as Hall.
    assert (forallb (fun s => negb (Z.testbit b s)) l = true).
    { apply forallb_forall. intros s Hs. apply negb_true_iff. now apply Hall. }
    congruence.
Qed.

Lemma on_both_colours_map (f : Square -> Square) (l : list Square) :
  (forall s, is_ok s -> is_ok (f s)) ->
  (forall s, is_ok s -> dark_square (f s) = negb (dark_square s)) ->
  (forall s, In s l -> is_ok s) ->
  on_both_colours (map f l) = on_both_colours l.
Proof.
  intros Hf Hdark Hok.
  assert (Hok' : forall s, In s (map f l) -> is_ok s).
  { intros s Hs. apply in_map_iff in Hs. destruct Hs as (t & <- & Ht).
    apply Hf, Hok, Ht. }
  unfold on_both_colours.
  rewrite !none_on_mask by assumption.
  rewrite !forallb_over_map.
  rewrite andb_comm. f_equal; f_equal; apply forallb_agree.
  - intros s Hs. pose proof (Hok s Hs) as Hs'.
    rewrite not_DarkSquares_spec by (apply Hf; exact Hs').
    rewrite DarkSquares_spec by exact Hs'.
    rewrite Hdark by exact Hs'. now rewrite negb_involutive.
  - intros s Hs. pose proof (Hok s Hs) as Hs'.
    rewrite DarkSquares_spec by (apply Hf; exact Hs').
    rewrite not_DarkSquares_spec by exact Hs'.
    now rewrite Hdark by exact Hs'.
Qed.

Lemma PushToEdges_mirror (s : Square) :
  is_ok s ->
  lookup PushToEdges (mirror_file s) = lookup PushToEdges s
  /\ lookup PushToEdges (Square_not s) = lookup PushToEdges s.
Proof.
  intro Hs.
  pose proof (forall_squares
    (fun s => match lookup PushToEdges (mirror_file s),
                    lookup PushToEdges (Square_not s),
                    lookup PushToEdges s with
              | Some a, Some b, Some c => (a =? c) && (b =? c)
              | _, _, _ => false
              end) eq_refl s Hs) as H.
  cbv beta in H.
  destruct (lookup PushToEdges (mirror_file s)) as [a |],
           (lookup PushToEdges (Square_not s)) as [b |],
           (lookup PushToEdges s) as [c |]; try discriminate.
  apply andb_true_iff in H. destruct H as [H1 H2].
  apply Z.eqb_eq in H1, H2. now subst.
Qed.

Lemma PushToCorners_mirror (s : Square) :
  is_ok s ->
  lookup PushToCorners (Square_not (mirror_file s)) = lookup PushToCorners s
  /\ lookup PushToCorners (mirror_file s)
     = lookup PushToCorners (Square_not s).
Proof.
  intro Hs.
  pose proof (forall_squares
    (fun s => match lookup PushToCorners (Square_not (mirror_file s)),
                    lookup PushToCorners s,
                    lookup PushToCorners (mirror_file s),
                    lookup PushToCorners (Square_not s) with
              | Some a, Some b, Some c, Some d => (a =? b) && (c =? d)
              | _, _, _, _ => false
              end) eq_refl s Hs) as H.
  cbv beta in H.
  destruct (lookup PushToCorners (Square_not (mirror_file s))) as [a |],
           (lookup PushToCorners s) as [b |],
           (lookup PushToCorners (mirror_file s)) as [c |],
           (lookup PushToCorners (Square_not s)) as [d |]; try discriminate.
  apply andb_true_iff in H. destruct H as [H1 H2].
  apply Z.eqb_eq in H1, H2. now subst.
Qed.

Context {K : Constants} {X : Collaborators}.

Lemma KXK_same_bishops_on_list (strongSide : Color) (pos : Position) :
  KXK_same_bishops strongSide pos
  = (1 <? count pos BISHOP strongSide)
    && negb (on_both_colours (pieceList pos strongSide BISHOP))
    && (count pos PAWN strongSide =? 0)
    && (count pos KNIGHT strongSide =? 0)
    && (count pos ROOK strongSide =? 0)
    && (count pos QUEEN strongSide =? 0).
Proof. reflexivity. Qed.

(** [Endgame<KXK>] does not tell a position from its mirror image: with a
    move generator that finds the mirrored lone king stalemated exactly
    when the lone king is, the two values are the same -- the edge table is
    symmetric, the distance of the kings is kept, and in the mirror the
    bishop changes colour while the corner table is read at the reflected
    square. *)
Theorem KXK_mirror_symmetric (strongSide : Color) (pos : Position) :
  live pos ->
  KXK_stalemate strongSide (mirror_position pos)
  = KXK_stalemate strongSide pos ->
  KXK strongSide (mirror_position pos) = KXK strongSide pos.
Proof.
  intros Hlive Hstale.
  assert (Hboard : on_board pos) by apply Hlive.
  pose proof (king_ok pos strongSide Hlive) as Hw.
  pose proof (king_ok pos (Color_not strongSide) Hlive) as Hl.
  assert (Hk : forall c, 0 < count pos KING c)
    by (intros [|]; destruct Hlive as (_ & Hwk & Hbk); lia).
  unfold KXK. rewrite Hstale.
  destruct (KXK_stalemate strongSide pos); [reflexivity |].
  assert (Hsame : KXK_same_bishops strongSide (mirror_position pos)
                  = KXK_same_bishops strongSide pos).
  { rewrite !KXK_same_bishops_on_list. unfold mirror_position.
    rewrite !count_map_position. simpl pieceList.
    rewrite (on_both_colours_map mirror_file);
      auto using mirror_file_ok, dark_mirror_file.
    intros s Hs. apply (Hboard _ _ _ Hs). }
  rewrite Hsame.
  destruct (KXK_same_bishops strongSide pos); [reflexivity |].
  cbv zeta.
  unfold KXK_bishop_and_knight, mirror_position.
  rewrite !count_map_position.
  rewrite !(square_map_position mirror_file pos KING) by apply Hk.
  simpl non_pawn_material. simpl side_to_move.
  destruct (mirror_file_distances _ _ Hw Hl) as [HF HR].
  unfold distance at 1. rewrite HF, HR. fold (distance (square pos KING strongSide)
                                                (square pos KING (Color_not strongSide))).
  rewrite (proj1 (PushToEdges_mirror _ Hl)).
  destruct (lookup PushToEdges (square pos KING (Color_not strongSide)))
    as [edge |]; [| reflexivity].
  destruct (lookup PushClose _) as [close |]; [| reflexivity].
  cbn [obind].
  destruct ((count pos BISHOP strongSide =? 1)
            && (count pos KNIGHT strongSide =? 1)) eqn:EBN; [| reflexivity].
  apply andb_true_iff in EBN. destruct EBN as [EB _].
  apply Z.eqb_eq in EB.
  assert (Hb : is_ok (square pos BISHOP strongSide))
    by (apply square_ok; [exact Hboard | lia]).
  rewrite (square_map_position mirror_file pos BISHOP) by lia.
  rewrite (opposite_colors_A1 _ (mirror_file_ok _ Hb)).
  rewrite (opposite_colors_A1 _ Hb).
  rewrite dark_mirror_file by exact Hb.
  destruct (PushToCorners_mirror _ Hl) as [HC1 HC2].
  destruct (dark_square (square pos BISHOP strongSide)); cbn [negb];
    rewrite ?HC1, ?HC2; reflexivity.
Qed.

(** [Endgame<KXK>] does not tell a position from the one with the colours
    exchanged either, under the same proviso on the move generator. *)
Theorem KXK_color_symmetric (strongSide : Color) (pos : Position) :
  live pos ->
  KXK_stalemate (Color_not strongSide) (swap_colors pos)
  = KXK_stalemate strongSide pos ->
  KXK (Color_not strongSide) (swap_colors pos) = KXK strongSide pos.
Proof.
  intros Hlive Hstale.
  assert (Hboard : on_board pos) by apply Hlive.
  pose proof (king_ok pos strongSide Hlive) as Hw.
  pose proof (king_ok pos (Color_not strongSide) Hlive) as Hl.
  assert (Hk : forall c, 0 < count pos KING c)
    by (intros [|]; destruct Hlive as (_ & Hwk & Hbk); lia).
  unfold KXK. rewrite Hstale.
  destruct (KXK_stalemate strongSide pos); [reflexivity |].
  assert (Hsame : KXK_same_bishops (Color_not strongSide) (swap_colors pos)
                  = KXK_same_bishops strongSide pos).
  { rewrite !KXK_same_bishops_on_list.
    rewrite !count_swap_colors. simpl pieceList.
    rewrite Color_not_involutive.
    rewrite (on_both_colours_map Square_not);
      auto using Square_not_ok, dark_Square_not.
    intros s Hs. apply (Hboard _ _ _ Hs). }
  rewrite Hsame.
  destruct (KXK_same_bishops strongSide pos); [reflexivity |].
  cbv zeta.
  unfold KXK_bishop_and_knight.
  rewrite !count_swap_colors.
  rewrite (square_swap_colors pos KING strongSide) by apply Hk.
  pose proof (square_swap_colors pos KING (Color_not strongSide) (Hk _))
    as HsK.
  rewrite Color_not_involutive in HsK |- *. rewrite HsK.
  simpl non_pawn_material. rewrite Color_not_involutive.
  simpl side_to_move. rewrite Color_eqb_not.
  destruct (Square_not_distances _ _ Hw Hl) as [HF HR].
  unfold distance at 1. rewrite HF, HR.
  fold (distance (square pos KING strongSide)
                 (square pos KING (Color_not strongSide))).
  rewrite (proj2 (PushToEdges_mirror _ Hl)).
  destruct (lookup PushToEdges (square pos KING (Color_not strongSide)))
    as [edge |]; [| reflexivity].
  destruct (lookup PushClose _) as [close |]; [| reflexivity].
  cbn [obind].
  destruct ((count pos BISHOP strongSide =? 1)
            && (count pos KNIGHT strongSide =? 1)) eqn:EBN; [| reflexivity].
  apply andb_true_iff in EBN. destruct EBN as [EB _].
  apply Z.eqb_eq in EB.
  assert (Hb : is_ok (square pos BISHOP strongSide))
    by (apply square_ok; [exact Hboard | lia]).
  rewrite (square_swap_colors pos BISHOP strongSide) by lia.
  rewrite (opposite_colors_A1 _ (Square_not_ok _ Hb)).
  rewrite (opposite_colors_A1 _ Hb).
  rewrite dark_Square_not by exact Hb.
  destruct (dark_square (square pos BISHOP strongSide)); cbn [negb];
    rewrite ?Square_not_involutive; reflexivity.
Qed.

End KXKSymmetry.

Lemma KXK_mirror_symmetric_witness :
  KXK (K := engine_constants) (X := sample_collaborators)
      WHITE (mirror_position kbnk_dark_bishop)
  = KXK (K := engine_constants) (X := sample_collaborators)
        WHITE kbnk_dark_bishop.
Proof.
  apply (KXK_mirror_symmetric (K := engine_constants)
           (X := sample_collaborators) WHITE kbnk_dark_bishop).
  - unfold kbnk_dark_bishop. snapshot_live.
  - reflexivity.
Defined.

Lemma KXK_color_symmetric_witness :
  KXK (K := engine_constants) (X := sample_collaborators)
      BLACK (swap_colors kbnk_dark_bishop)
  = KXK (K := engine_constants) (X := sample_collaborators)
        WHITE kbnk_dark_bishop.
Proof.
  apply (KXK_color_symmetric (K := engine_constants)
           (X := sample_collaborators) WHITE kbnk_dark_bishop).
  - unfold kbnk_dark_bishop. snapshot_live.
  - reflexivity.
Defined.

(** ** Rook against pawn: colours and sides of the board *)

Section KRKPSymmetry.

Context {K : Constants} {V : EndgameValues}.

Lemma relative_square_swap (c : Color) (s : Square) :
  relative_square (Color_not c) (Square_not s) = relative_square c s.
Proof.
  unfold relative_square, Square_not.
  destruct c; simpl.
  - now rewrite Z.lxor_assoc, Z.lxor_nilpotent, !Z.lxor_0_r.
  - now rewrite Z.lxor_0_r.
Qed.

(** [Endgame<KRKP>] does not tell a position from the one with the colours
    exchanged. *)
Theorem KRKP_color_symmetric (strongSide : Color) (pos : Position) :
  live pos ->
  count pos ROOK strongSide = 1 ->
  count pos PAWN (Color_not strongSide) = 1 ->
  KRKP (Color_not strongSide) (swap_colors pos) = KRKP strongSide pos.
Proof.
  intros Hlive Hr Hp.
  assert (Hk : forall c, 0 < count pos KING c)
    by (intros [|]; destruct Hlive as (_ & Hwk & Hbk); lia).
  assert (Hn : forall pt c, 0 < count pos pt c ->
            relative_square (Color_not strongSide)
                            (square (swap_colors pos) pt (Color_not c))
            = relative_square strongSide (square pos pt c)).
  { intros pt c Hc. rewrite square_swap_colors by exact Hc.
    apply relative_square_swap. }
  unfold KRKP, KRKP_result. cbv zeta. rewrite Color_not_involutive.
  rewrite (Hn KING strongSide), (Hn ROOK strongSide) by (try apply Hk; lia).
  pose proof (Hn KING (Color_not strongSide) (Hk _)) as HnK.
  pose proof (Hn PAWN (Color_not strongSide) ltac:(lia)) as HnP.
  rewrite Color_not_involutive in HnK, HnP. rewrite HnK, HnP.
  simpl side_to_move.
  assert (He : forall a b, Color_eqb (Color_not a) b
                           = Color_eqb a (Color_not b))
    by (intros [|] [|]; reflexivity).
  rewrite !He, !Color_not_involutive.
  reflexivity.
Qed.

Lemma square_order (a b : Square) :
  is_ok a -> is_ok b ->
  (a < b <-> rank_of a < rank_of b
             \/ rank_of a = rank_of b /\ file_of a < file_of b).
Proof.
  intros Ha Hb. rewrite !rank_of_div, !file_of_mod.
  pose proof (Z.div_mod a 8 ltac:(lia)) as Da.
  pose proof (Z.div_mod b 8 ltac:(lia)) as Db.
  pose proof (Z.mod_pos_bound a 8 ltac:(lia)) as Ma.
  pose proof (Z.mod_pos_bound b 8 ltac:(lia)) as Mb.
  lia.
Qed.

(** The test of [Endgame<KRKP>] for the king in front of the pawn compares
    square indices, so it also passes for a king on the pawn's rank on the
    file to its left, and fails for one on the file to its right: with the
    strong king beside the pawn, the pawn (seen from the strong side) on
    its third rank or beyond and not both it and its king beyond the sixth,
    the king on the left gets the known win from this test; for the king on
    the right the test does not fire. *)
Theorem KRKP_king_beside_pawn (strongSide : Color) (pos : Position) :
  live pos ->
  count pos PAWN (Color_not strongSide) = 1 ->
  let wksq := relative_square strongSide (square pos KING strongSide) in
  let bksq := relative_square strongSide
                (square pos KING (Color_not strongSide)) in
  let psq := relative_square strongSide
               (square pos PAWN (Color_not strongSide)) in
  rank_of wksq = rank_of psq ->
  distance_File wksq psq = 1 ->
  RANK_3 <= rank_of psq < RANK_6 ->
  (file_of wksq < file_of psq -> KRKP_result strongSide pos = KRKP_win)
  /\ (file_of psq < file_of wksq ->
      (wksq <? psq) && (distance_File wksq psq <=? 1)
      && ((RANK_3 <=? rank_of psq) || (2 <=? distance bksq psq)) = false).
Proof.
  intros Hlive Hp wksq bksq psq Hrank Hfile Hadv.
  assert (Hw : is_ok wksq) by (apply relative_square_ok, king_ok, Hlive).
  assert (Hps : is_ok psq).
  { apply relative_square_ok, square_ok; [apply Hlive | lia]. }
  pose proof (square_order wksq psq Hw Hps) as Hord.
  split.
  - intro Hleft. unfold KRKP_result. cbv zeta.
    fold wksq bksq psq.
    replace (RANK_6 <=? rank_of psq) with false
      by (symmetry; apply Z.leb_gt; lia).
    rewrite andb_false_r. cbn [andb].
    replace (wksq <? psq) with true
      by (symmetry; apply Z.ltb_lt, Hord; right; lia).
    replace (distance_File wksq psq <=? 1) with true
      by (symmetry; apply Z.leb_le; lia).
    replace (RANK_3 <=? rank_of psq) with true
      by (symmetry; apply Z.leb_le; lia).
    reflexivity.
  - intro Hright.
    replace (wksq <? psq) with false; [reflexivity |].
    symmetry. apply Z.ltb_ge.
    destruct (Z_lt_ge_dec wksq psq) as [Hlt | Hge]; [| lia].
    apply Hord in Hlt. lia.
Qed.

(** [Endgame<KQKP>] does not tell a position from its mirror image, nor
    from the position with the colours exchanged. *)
Theorem KQKP_board_symmetric (strongSide : Color) (pos : Position) :
  live pos ->
  count pos PAWN (Color_not strongSide) = 1 ->
  KQKP strongSide (mirror_position pos) = KQKP strongSide pos
  /\ KQKP (Color_not strongSide) (swap_colors pos) = KQKP strongSide pos.
Proof.
  intros Hlive Hp.
  pose proof (king_ok pos strongSide Hlive) as Hw.
  pose proof (king_ok pos (Color_not strongSide) Hlive) as Hl.
  assert (Hps : is_ok (square pos PAWN (Color_not strongSide)))
    by (apply square_ok; [apply Hlive | lia]).
  assert (Hk : forall c, 0 < count pos KING c)
    by (intros [|]; destruct Hlive as (_ & Hwk & Hbk); lia).
  split.
  - unfold KQKP. cbv zeta. unfold mirror_position.
    rewrite !(square_map_position mirror_file pos KING) by apply Hk.
    rewrite !(square_map_position mirror_file pos PAWN) by lia.
    simpl rule50_count. simpl side_to_move.
    destruct (mirror_file_distances _ _ Hw Hl) as [HF HR].
    destruct (mirror_file_distances _ _ Hl Hps) as [HF' HR'].
    unfold distance. rewrite HF, HR, HF', HR'.
    rewrite !rook_pawn_files by (try apply mirror_file_ok; exact Hps).
    unfold relative_rank. rewrite mirror_file_rank by exact Hps.
    rewrite mirror_file_file by exact Hps.
    pose proof (file_of_range (square pos PAWN (Color_not strongSide))) as Hf.
    replace ((7 - file_of (square pos PAWN (Color_not strongSide)) =? FILE_A)
             || (7 - file_of (square pos PAWN (Color_not strongSide)) =? FILE_C)
             || (7 - file_of (square pos PAWN (Color_not strongSide)) =? FILE_F)
             || (7 - file_of (square pos PAWN (Color_not strongSide)) =? FILE_H))
      with ((file_of (square pos PAWN (Color_not strongSide)) =? FILE_A)
            || (file_of (square pos PAWN (Color_not strongSide)) =? FILE_C)
            || (file_of (square pos PAWN (Color_not strongSide)) =? FILE_F)
            || (file_of (square pos PAWN (Color_not strongSide)) =? FILE_H));
      [reflexivity |].
    unfold FILE_A, FILE_C, FILE_F, FILE_H.
    assert (Hc : file_of (square pos PAWN (Color_not strongSide)) = 0
                 \/ file_of (square pos PAWN (Color_not strongSide)) = 1
                 \/ file_of (square pos PAWN (Color_not strongSide)) = 2
                 \/ file_of (square pos PAWN (Color_not strongSide)) = 3
                 \/ file_of (square pos PAWN (Color_not strongSide)) = 4
                 \/ file_of (square pos PAWN (Color_not strongSide)) = 5
                 \/ file_of (square pos PAWN (Color_not strongSide)) = 6
                 \/ file_of (square pos PAWN (Color_not strongSide)) = 7)
      by lia.
    repeat (destruct Hc as [-> | Hc]; [reflexivity |]).
    now rewrite Hc.
  - unfold KQKP. cbv zeta. rewrite Color_not_involutive.
    rewrite (square_swap_colors pos KING strongSide) by apply Hk.
    pose proof (square_swap_colors pos KING (Color_not strongSide) (Hk _))
      as HsK.
    pose proof (square_swap_colors pos PAWN (Color_not strongSide)
                  ltac:(lia)) as HsP.
    rewrite Color_not_involutive in HsK, HsP. rewrite HsK, HsP.
    simpl rule50_count. simpl side_to_move. rewrite Color_eqb_not.
    destruct (Square_not_distances _ _ Hw Hl) as [HF HR].
    destruct (Square_not_distances _ _ Hl Hps) as [HF' HR'].
    unfold distance. rewrite HF, HR, HF', HR'.
    rewrite !rook_pawn_files by (try apply Square_not_ok; exact Hps).
    rewrite Square_not_file by exact Hps.
    replace (relative_rank strongSide
               (Square_not (square pos PAWN (Color_not strongSide))))
      with (relative_rank (Color_not strongSide)
              (square pos PAWN (Color_not strongSide))); [reflexivity |].
    pose proof (rank_of_range _ Hps) as Hrk.
    pose proof (Square_not_rank _ Hps) as Hnr.
    destruct strongSide; simpl Color_not in *;
      rewrite ?relative_rank_WHITE, ?relative_rank_BLACK
        by (try apply Square_not_ok; exact Hps);
      lia.
Qed.

End KRKPSymmetry.

Lemma KRKP_color_symmetric_witness :
  KRKP (K := engine_constants) (V := engine_endgame_values)
       BLACK (swap_colors krkp_b2)
  = KRKP (K := engine_constants) (V := engine_endgame_values) WHITE krkp_b2.
Proof.
  apply (KRKP_color_symmetric
           (K := engine_constants) (V := engine_endgame_values)
           WHITE krkp_b2).
  - unfold krkp_b2. snapshot_live.
  - reflexivity.
  - reflexivity.
Defined.

Lemma KRKP_king_beside_pawn_witness :
  KRKP_result (K := engine_constants) (V := engine_endgame_values)
              WHITE krkp_king_left
  = KRKP_win (K := engine_constants) (V := engine_endgame_values).
Proof.
  apply (KRKP_king_beside_pawn
           (K := engine_constants) (V := engine_endgame_values)
           WHITE krkp_king_left).
  - unfold krkp_king_left. snapshot_live.
  - reflexivity.
  - reflexivity.
  - reflexivity.
  - vm_compute. split; [intro H; discriminate H | reflexivity].
  - vm_compute. reflexivity.
Defined.

(** With the king on d4 beside the pawn on e4 the rook's side has the known
    win; in the mirror image, the king on e4 beside the pawn on d4, it gets
    the small score of the last case. *)
Example KRKP_left_and_right_differ :
  KRKP (K := engine_constants) (V := engine_endgame_values)
       WHITE krkp_king_left = 10000 + 127 - 258
  /\ KRKP (K := engine_constants) (V := engine_endgame_values)
          WHITE (mirror_position krkp_king_left) = 240.
Proof. split; reflexivity. Qed.

Lemma KQKP_board_symmetric_witness :
  KQKP (K := engine_constants) (V := engine_endgame_values)
       WHITE (mirror_position (kqkp_c2 3))
  = KQKP (K := engine_constants) (V := engine_endgame_values)
         WHITE (kqkp_c2 3)
  /\ KQKP (K := engine_constants) (V := engine_endgame_values)
          BLACK (swap_colors (kqkp_c2 3))
     = KQKP (K := engine_constants) (V := engine_endgame_values)
            WHITE (kqkp_c2 3).
Proof.
  apply (KQKP_board_symmetric
           (K := engine_constants) (V := engine_endgame_values)
           WHITE (kqkp_c2 3)).
  - unfold kqkp_c2. snapshot_live.
  - reflexivity.
Defined.

(** ** Bishop and rook pawns: the wrong bishop *)

Section WrongBishop.

Context {K : Constants}.

(** With every pawn of the strong side on one rook file, [Endgame<KBPsK>]
    is decided by the queening corner alone: the draw when the bishop does
    not control the corner and the weak king is on it or next to it, no
    scaling otherwise; the two later tests, for knight pawns, are out of
    reach. *)
Theorem KBPsK_rook_pawns (strongSide : Color) (pos : Position) (f : File) :
  on_board pos ->
  1 <= count pos PAWN strongSide ->
  f = FILE_A \/ f = FILE_H ->
  (forall p, In p (pieceList pos strongSide PAWN) -> file_of p = f) ->
  KBPsK strongSide pos
  = if opposite_colors
         (relative_square strongSide (make_square f RANK_8))
         (square pos BISHOP strongSide)
       && (distance (relative_square strongSide (make_square f RANK_8))
                    (square pos KING (Color_not strongSide)) <=? 1)
    then SCALE_FACTOR_DRAW
    else SCALE_FACTOR_NONE.
Proof.
  intros Hob Hcount Hf Hall.
  assert (Hok : forall s, In s (pieceList pos strongSide PAWN) -> is_ok s)
    by (intros s Hs; exact (Hob _ _ _ Hs)).
  assert (Hne : pieceList pos strongSide PAWN <> []).
  { unfold count in Hcount.
    destruct (pieceList pos strongSide PAWN); [simpl in Hcount; lia |].
    discriminate. }
  assert (Hlsb : file_of (lsb (pieces_cp pos strongSide PAWN)) = f)
    by (apply Hall, lsb_in; assumption).
  assert (Hmask : bb_nonzero (pieces_cp pos strongSide PAWN
                              &b bb_not (file_bb f)) = false).
  { unfold bb_nonzero. apply negb_false_iff, Z.eqb_eq.
    apply bb_of_list_land; [exact Hok |].
    intros s Hs. rewrite bb_not_testbit by (apply Hok, Hs).
    unfold file_bb. rewrite bb_where_spec by (apply Hok, Hs).
    apply negb_false_iff, Z.eqb_eq, Hall, Hs. }
  unfold KBPsK. cbv zeta. rewrite Hlsb, Hmask.
  assert (Hrook : (f =? FILE_A) || (f =? FILE_H) = true)
    by (destruct Hf as [-> | ->]; reflexivity).
  assert (Hknight : (f =? FILE_B) || (f =? FILE_G) = false)
    by (destruct Hf as [-> | ->]; reflexivity).
  rewrite Hrook, Hknight. cbn [andb negb].
  destruct (opposite_colors
              (relative_square strongSide (make_square f RANK_8))
              (square pos BISHOP strongSide)
            && (distance (relative_square strongSide (make_square f RANK_8))
                         (square pos KING (Color_not strongSide)) <=? 1));
    [reflexivity |].
  rewrite andb_false_r. cbn [andb]. reflexivity.
Qed.

End WrongBishop.

Lemma KBPsK_rook_pawns_witness :
  KBPsK (K := engine_constants) WHITE kbpsk_wrong_bishop
  = SCALE_FACTOR_DRAW (Constants := engine_constants).
Proof.
  apply (KBPsK_rook_pawns (K := engine_constants)
           WHITE kbpsk_wrong_bishop FILE_A).
  - unfold kbpsk_wrong_bishop. intros c pt s Hs.
    destruct c, pt; simpl in Hs; unfold is_ok; lia.
  - vm_compute. intro H. discriminate H.
  - left. reflexivity.
  - intros p Hp. simpl in Hp. destruct Hp as [<- | [<- | []]]; reflexivity.
Defined.
